(** * khp-scraping: the program-extraction engine of [script.py]

    A shallow embedding of the accordion locator, the category-header
    discovery, the per-header harvest, the noise filters and the
    serialisation of the [programs] field, together with the properties
    the specification states about them; then of the listing walk, the
    detail fields and the saving of the records, with what the code
    itself guarantees about them.

    Python strings are modelled by [string]: a character is a code point
    below 256, and the character classes ([str.isspace], [str.lower],
    [str.isupper], [\d], [\s], [\w]) follow CPython on that range.  The
    arrow glyphs of one regular expression of [is_nav_element] lie outside
    that range and therefore never occur in a modelled string. *)

From Stdlib Require Import String Ascii List Bool Arith Lia.
From Stdlib Require Decimal DecimalFacts DecimalString DecimalNat.
Import ListNotations.
Open Scope string_scope.
Open Scope list_scope.
Open Scope nat_scope.

(** String concatenation, Python's [+] on [str]. *)
Infix "+++" := String.append (right associativity, at level 60).

(* ------------------------------------------------------------------ *)
(** ** Python string primitives *)

Module PyStr.

Definition code (c : ascii) : nat := nat_of_ascii c.

Definition between (lo hi n : nat) : bool := (lo <=? n) && (n <=? hi).

(** [str.isspace] on one character. *)
Definition isspace (c : ascii) : bool :=
  let n := code c in
  between 9 13 n || between 28 32 n || (n =? 133) || (n =? 160).

(** [str.isupper] on one character. *)
Definition isupper_char (c : ascii) : bool :=
  let n := code c in
  between 65 90 n || between 192 214 n || between 216 222 n.

(** [str.islower] on one character. *)
Definition islower_char (c : ascii) : bool :=
  let n := code c in
  between 97 122 n || (n =? 170) || (n =? 181) || (n =? 186)
  || between 223 246 n || between 248 255 n.

(** The regular-expression class [\d]. *)
Definition isdigit (c : ascii) : bool := between 48 57 (code c).

(** The regular-expression class [\w]. *)
Definition isword (c : ascii) : bool :=
  let n := code c in
  isdigit c || between 65 90 n || (n =? 95) || between 97 122 n
  || (n =? 170) || (n =? 178) || (n =? 179) || (n =? 181)
  || (n =? 185) || (n =? 186) || between 188 190 n
  || between 192 214 n || between 216 246 n || between 248 255 n.

(** [[a-zA-Z]]. *)
Definition isalpha_ascii (c : ascii) : bool :=
  let n := code c in between 65 90 n || between 97 122 n.

Definition lower_char (c : ascii) : ascii :=
  if isupper_char c then ascii_of_nat (code c + 32) else c.

(** [s.lower()] *)
Fixpoint lower (s : string) : string :=
  match s with
  | EmptyString => EmptyString
  | String c r => String (lower_char c) (lower r)
  end.

Fixpoint lstrip (s : string) : string :=
  match s with
  | EmptyString => EmptyString
  | String c r => if isspace c then lstrip r else s
  end.

Fixpoint rstrip (s : string) : string :=
  match s with
  | EmptyString => EmptyString
  | String c r =>
      match rstrip r with
      | EmptyString => if isspace c then EmptyString else String c EmptyString
      | r' => String c r'
      end
  end.

(** [s.strip()] *)
Definition strip (s : string) : string := rstrip (lstrip s).

(** [s.rstrip(ch)] for a one-character argument. *)
Fixpoint rstrip_char (ch : ascii) (s : string) : string :=
  match s with
  | EmptyString => EmptyString
  | String c r =>
      match rstrip_char ch r with
      | EmptyString => if Ascii.eqb c ch then EmptyString else String c EmptyString
      | r' => String c r'
      end
  end.

(** [s.startswith(p)] *)
Fixpoint startswith (s p : string) : bool :=
  match p, s with
  | EmptyString, _ => true
  | String _ _, EmptyString => false
  | String a p', String b s' => Ascii.eqb a b && startswith s' p'
  end.

(** [s.endswith(ch)] for a one-character argument. *)
Fixpoint endswith_char (s : string) (ch : ascii) : bool :=
  match s with
  | EmptyString => false
  | String c EmptyString => Ascii.eqb c ch
  | String _ r => endswith_char r ch
  end.

(** [needle in hay] *)
Fixpoint contains (needle hay : string) : bool :=
  startswith hay needle ||
  match hay with
  | EmptyString => false
  | String _ r => contains needle r
  end.

(** [s.split(sep)] for a one-character separator. *)
Fixpoint split_on (sep : ascii) (s : string) : list string :=
  match s with
  | EmptyString => [EmptyString]
  | String c r =>
      if Ascii.eqb c sep then EmptyString :: split_on sep r
      else match split_on sep r with
           | h :: t => String c h :: t
           | [] => [String c EmptyString]
           end
  end.

(** [s.split()]: the maximal runs of non-whitespace characters. *)
Fixpoint split_ws (s : string) : list string :=
  match s with
  | EmptyString => []
  | String c r =>
      if isspace c then split_ws r
      else match r with
           | EmptyString => [String c EmptyString]
           | String d _ =>
               if isspace d then String c EmptyString :: split_ws r
               else match split_ws r with
                    | h :: t => String c h :: t
                    | [] => [String c EmptyString]
                    end
           end
  end.

(** [sep.join(l)] *)
Definition join (sep : string) (l : list string) : string := String.concat sep l.

(** [s[1:]] *)
Definition tail (s : string) : string :=
  match s with EmptyString => EmptyString | String _ r => r end.

(** [s.split(sep)[0]] *)
Definition first_line (s : string) : string := hd EmptyString (split_on "010"%char s).

(** [x in l] on a list of strings. *)
Definition mem (x : string) (l : list string) : bool := existsb (String.eqb x) l.

(** [set(a).issubset(set(b))] on lists of words. *)
Definition subset (a b : list string) : bool := forallb (fun w => mem w b) a.

(** [s.isupper()]: some cased character, and no lowercase one. *)
Fixpoint has_upper (s : string) : bool :=
  match s with EmptyString => false | String c r => isupper_char c || has_upper r end.
Fixpoint has_lower (s : string) : bool :=
  match s with EmptyString => false | String c r => islower_char c || has_lower r end.
Definition isupper (s : string) : bool := has_upper s && negb (has_lower s).

(** [s[0].isupper()] on a non-empty string. *)
Definition head_isupper (s : string) : bool :=
  match s with EmptyString => false | String c _ => isupper_char c end.

Definition nl : string := String "010"%char EmptyString.
Definition dq : string := String "034"%char EmptyString.

End PyStr.

(* ------------------------------------------------------------------ *)
(** ** Regular expressions of the [re] module, by derivatives *)

Module Re.
Import PyStr.

Inductive regex : Type :=
| Void
| Eps
| Class (p : ascii -> bool)
| Cat (r1 r2 : regex)
| Alt (r1 r2 : regex)
| Star (r : regex).

Fixpoint nullable (r : regex) : bool :=
  match r with
  | Void => false
  | Eps => true
  | Class _ => false
  | Cat a b => nullable a && nullable b
  | Alt a b => nullable a || nullable b
  | Star _ => true
  end.

Fixpoint deriv (c : ascii) (r : regex) : regex :=
  match r with
  | Void => Void
  | Eps => Void
  | Class p => if p c then Eps else Void
  | Cat a b =>
      if nullable a then Alt (Cat (deriv c a) b) (deriv c b)
      else Cat (deriv c a) b
  | Alt a b => Alt (deriv c a) (deriv c b)
  | Star a => Cat (deriv c a) (Star a)
  end.

Fixpoint fullmatch (r : regex) (s : string) : bool :=
  match s with
  | EmptyString => nullable r
  | String c t => fullmatch (deriv c r) t
  end.

Definition Plus (r : regex) : regex := Cat r (Star r).
Definition Opt (r : regex) : regex := Alt Eps r.
Fixpoint Rep (n : nat) (r : regex) : regex :=
  match n with O => Eps | S k => Cat r (Rep k r) end.
Definition anything : regex := Star (Class (fun _ => true)).
Definition one_of (l : list ascii) : regex :=
  Class (fun c => existsb (Ascii.eqb c) l).

(** A trailing [$] matches at the end of the string, and also just before
    a final newline. *)
Fixpoint drop_final_newline (s : string) : option string :=
  match s with
  | EmptyString => None
  | String c EmptyString => if Ascii.eqb c "010" then Some EmptyString else None
  | String c t =>
      match drop_final_newline t with
      | Some t' => Some (String c t')
      | None => None
      end
  end.

(** [re.search(r'^ r $', s)] and [re.match(r'^ r $', s)]. *)
Definition search_anchored (r : regex) (s : string) : bool :=
  fullmatch r s ||
  match drop_final_newline s with
  | Some s' => fullmatch r s'
  | None => false
  end.

(** [re.search(r, s)] for a pattern without anchors. *)
Definition search (r : regex) (s : string) : bool :=
  fullmatch (Cat anything (Cat r anything)) s.

(** [re.match(r, s)] for a pattern with no trailing anchor. *)
Definition match_prefix (r : regex) (s : string) : bool :=
  fullmatch (Cat r anything) s.

End Re.

(* ------------------------------------------------------------------ *)
(** ** The noise predicate of the harvest *)

Module Noise.
Import PyStr Re.

(** [nav_elements] of [click_and_extract_subprograms]. *)
Definition nav_elements : list string :=
  [ "home"; "about"; "contact"; "menu"; "skip to content";
    "services"; "about us"; "find"; "resources"; "guides";
    "participate"; "search"; "login"; "register"; "sign in";
    "education institutions"; "find education"; "copyright";
    "privacy"; "terms"; "sitemap"; "faq"; "help";
    "click"; "toggle"; "close"; "open"; "show"; "hide";
    "programs offered"; "next"; "previous"; "submit";
    "apply now"; "learn more"; "read more"; "view all";
    "download"; "upload"; "back"; "forward"; "continue"; "proceed";
    "cancel"; "ok"; "yes"; "no"; "submit"; "reset"; "clear";
    "navigate"; "expand"; "collapse"; "menu"; "dropdown" ].

Definition ws : regex := Star (Class isspace).

(** [^\s*[\[\(\<\>\)\]]+\s*$] *)
Definition re_brackets : regex :=
  Cat ws (Cat (Plus (one_of ["["; "("; "<"; ">"; ")"; "]"]%char)) ws).

(** [^\s*\d+\s*$] *)
Definition re_number : regex := Cat ws (Cat (Plus (Class isdigit)) ws).

(** [^\s*[<>...]\s*$], the arrows being outside the modelled range. *)
Definition re_arrow : regex := Cat ws (Cat (one_of ["<"; ">"]%char) ws).

(** [[a-zA-Z]{2,}] *)
Definition re_word : regex :=
  Cat (Rep 2 (Class isalpha_ascii)) (Star (Class isalpha_ascii)).

Definition is_nav_element (text : string) : bool :=
  if (text =? "")%string || (String.length (strip text) <? 3) then true
  else
    let text_lower := strip (lower text) in
    if existsb (fun nav => (nav =? text_lower)%string
                           || ((4 <? String.length nav) && contains nav text_lower))
               nav_elements
    then true
    else if search_anchored re_brackets text then true
    else if search_anchored re_number text then true
    else if search_anchored re_arrow text then true
    else if (String.length text <? 5) && negb (search re_word text) then true
    else false.

End Noise.

(* ------------------------------------------------------------------ *)
(** ** The document view and the effects of the engine

    Every call on the page or on an element handle either returns a value
    or raises, and may change the live document.  The document is an
    abstract state [W]; a computation threads it and stops at the first
    exception that no handler catches. *)

Module Dom.

Definition exn : Type := string.

Inductive outcome (A : Type) : Type :=
| Ok (a : A)
| Raised (e : exn).
Arguments Ok {A} a.
Arguments Raised {A} e.

Definition M (W A : Type) : Type := W -> outcome A * W.

Definition ret {W A} (a : A) : M W A := fun w => (Ok a, w).

Definition raise {W A} (e : exn) : M W A := fun w => (Raised e, w).

Definition bind {W A B} (m : M W A) (k : A -> M W B) : M W B :=
  fun w =>
    match m w with
    | (Ok a, w') => k a w'
    | (Raised e, w') => (Raised e, w')
    end.

(** [try: m  except Exception as e: h e] *)
Definition try_catch {W A} (m : M W A) (h : exn -> M W A) : M W A :=
  fun w =>
    match m w with
    | (Ok a, w') => (Ok a, w')
    | (Raised e, w') => h e w'
    end.

Declare Scope dom_scope.
Delimit Scope dom_scope with dom.
Notation "x <- m ;; k" := (bind m (fun x => k))
  (at level 61, m at next level, right associativity) : dom_scope.
Notation "m ;;; k" := (bind m (fun _ => k))
  (at level 61, right associativity) : dom_scope.

(** One entry of the list returned by the container script of the
    harvest: [{type: 'list' | 'container', items: [...]}]. *)
Inductive container_type : Type := CList | CContainer.
Record container : Type := mkContainer
  { c_type : container_type; c_items : list string }.

(** One entry of the snapshot script of the harvest. *)
Record snapshot_entry : Type := mkSnapshot
  { s_text : string; s_isListItem : bool; s_isParagraph : bool }.

(** One entry of the clickable-element scan of the header discovery. *)
Record clickable : Type := mkClickable
  { k_text : string; k_selector : option string; k_className : string;
    k_tagName : string; k_index : nat }.

(** The capabilities the engine uses.  Each [js_] field is one of the
    scripts the source passes to [page.evaluate]. *)
Record DocumentView (W Elem : Type) : Type := mkView
  { wait_for_load_state : string -> M W unit;
    wait_for_timeout : nat -> M W unit;
    wait_for_selector : string -> nat -> string -> M W (option Elem);
    query_selector : string -> M W (option Elem);
    query_selector_all : Elem -> string -> M W (list Elem);
    get_attribute : Elem -> string -> M W (option string);
    inner_text : Elem -> M W string;
    click : Elem -> M W unit;
    is_visible : Elem -> M W bool;
    js_click : Elem -> M W unit;
    js_show_expanded : string -> M W unit;
    js_show : string -> M W unit;
    js_has_content : Elem -> M W bool;
    js_visible_texts : M W (list string);
    js_target_items : string -> M W (list string);
    js_containers : M W (list container);
    js_snapshot : M W (list snapshot_entry);
    js_sibling_items : Elem -> M W (list string);
    js_clickable_elements : M W (list clickable) }.

Arguments wait_for_load_state {W Elem} _ _ _.
Arguments wait_for_timeout {W Elem} _ _ _.
Arguments wait_for_selector {W Elem} _ _ _ _ _.
Arguments query_selector {W Elem} _ _ _.
Arguments query_selector_all {W Elem} _ _ _ _.
Arguments get_attribute {W Elem} _ _ _ _.
Arguments inner_text {W Elem} _ _ _.
Arguments click {W Elem} _ _ _.
Arguments is_visible {W Elem} _ _ _.
Arguments js_click {W Elem} _ _ _.
Arguments js_show_expanded {W Elem} _ _ _.
Arguments js_show {W Elem} _ _ _.
Arguments js_has_content {W Elem} _ _ _.
Arguments js_visible_texts {W Elem} _ _.
Arguments js_target_items {W Elem} _ _ _.
Arguments js_containers {W Elem} _ _.
Arguments js_snapshot {W Elem} _ _.
Arguments js_sibling_items {W Elem} _ _ _.
Arguments js_clickable_elements {W Elem} _ _.

(** Truthiness of an optional string: neither [None] nor empty. *)
Definition truthy (o : option string) : bool :=
  match o with
  | Some s => negb (s =? "")%string
  | None => false
  end.

(** [a or b] on two attribute reads: the second is evaluated only when
    the first is falsy. *)
Definition or_else {W} (a b : M W (option string)) : M W (option string) :=
  bind a (fun x => if truthy x then ret x else b).

(** The id a [#id] reference points at, when the attribute is one. *)
Definition hash_target (o : option string) : option string :=
  match o with
  | Some s => if negb (s =? "")%string && PyStr.startswith s "#"
              then Some (PyStr.tail s) else None
  | None => None
  end.

End Dom.

(* ------------------------------------------------------------------ *)
(** ** [click_and_expand_accordion] *)

Module Locator.
Import PyStr Dom.
Local Open Scope dom_scope.

Definition has_text (prefix text : string) : string :=
  prefix +++ ":has-text(" +++ dq +++ text +++ dq +++ ")".

Definition selectors (text : string) : list string :=
  [ has_text ("a[role=" +++ dq +++ "button" +++ dq +++ "][data-bs-toggle="
              +++ dq +++ "collapse" +++ dq +++ "]") text;
    has_text ("a[role=" +++ dq +++ "button" +++ dq +++ "]") text;
    has_text ("button[data-bs-toggle=" +++ dq +++ "collapse" +++ dq +++ "]") text;
    has_text ("[data-bs-toggle=" +++ dq +++ "collapse" +++ dq +++ "]") text;
    has_text ("[data-toggle=" +++ dq +++ "collapse" +++ dq +++ "]") text;
    has_text "button.accordion-button" text;
    has_text ".accordion-header" text;
    has_text ".card-header" text;
    has_text ".panel-heading" text;
    has_text "a" text;
    has_text "div.accordion" text;
    has_text "div" text;
    has_text "h3" text;
    has_text "h4" text;
    has_text "h5" text;
    has_text "*" text ].

Definition content_selectors : list string :=
  [ ".collapse.show"; ".accordion-body"; ".card-body"; ".panel-body";
    ".content"; "[role=" +++ dq +++ "tabpanel" +++ dq +++ "]" ].

Definition last_resort_selectors : list string :=
  [ "div:has-text(" +++ dq +++ "Programs" +++ dq +++ ")";
    "div:has-text(" +++ dq +++ "Courses" +++ dq +++ ")";
    "[class*=" +++ dq +++ "program" +++ dq +++ "]";
    "[class*=" +++ dq +++ "course" +++ dq +++ "]" ].

Section WithView.
Context {W Elem : Type} (dv : DocumentView W Elem).

(** The probe loop over the trigger selectors: the first selector whose
    wait returns an element ends the loop; a wait that raises or returns
    nothing moves on to the next selector. *)
Fixpoint find_trigger (sels : list string) : M W (option Elem) :=
  match sels with
  | [] => ret None
  | sel :: rest =>
      found <- try_catch (wait_for_selector dv sel 3000 "attached")
                         (fun _ => ret None) ;;
      match found with
      | Some e => ret (Some e)
      | None => find_trigger rest
      end
  end.

(** The loop over the content selectors, each wait guarded on its own. *)
Fixpoint find_content (sels : list string) : M W (option Elem) :=
  match sels with
  | [] => ret None
  | sel :: rest =>
      found <- try_catch (wait_for_selector dv sel 2000 "visible")
                         (fun _ => ret None) ;;
      match found with
      | Some e => ret (Some e)
      | None => find_content rest
      end
  end.

(** The last-resort loop: the queries are not guarded one by one, the
    whole loop is. *)
Fixpoint last_resort (sels : list string) : M W (option Elem) :=
  match sels with
  | [] => ret None
  | sel :: rest =>
      found <- query_selector dv sel ;;
      match found with
      | Some e => ret (Some e)
      | None => last_resort rest
      end
  end.

(** The content lookup through an explicit [#id] target; [Some content]
    stands for the [return content] of the source. *)
Definition by_target_id (content_id : string) : M W (option Elem) :=
  try_catch
    (content <- wait_for_selector dv
                  ("#" +++ content_id +++ ", div[id=" +++ dq +++ content_id +++ dq +++ "]")
                  3000 "attached" ;;
     match content with
     | Some c =>
         visible <- is_visible dv c ;;
         (if visible then ret tt
          else js_show_expanded dv content_id ;;; wait_for_timeout dv 500) ;;;
         ret (Some c)
     | None => ret None
     end)
    (fun _ => ret None).

(** The body of the outer [try] once a trigger element is known;
    [Some content] again stands for a [return] inside it. *)
Definition expand_and_resolve (element : Elem) : M W (option Elem) :=
  aria_expanded <- get_attribute dv element "aria-expanded" ;;
  (match aria_expanded with
   | Some "true" => ret tt
   | _ =>
       try_catch (click dv element) (fun _ => js_click dv element) ;;;
       wait_for_timeout dv 1500
   end) ;;;
  target <- or_else (get_attribute dv element "href")
                    (get_attribute dv element "data-bs-target") ;;
  by_id <- match hash_target target with
           | Some content_id => by_target_id content_id
           | None => ret None
           end ;;
  match by_id with
  | Some c => ret (Some c)
  | None =>
      content_element <- js_has_content dv element ;;
      if content_element then find_content content_selectors else ret None
  end.

Definition click_and_expand_accordion (text : string) : M W (option Elem) :=
  wait_for_load_state dv "networkidle" ;;;
  element <- find_trigger (selectors text) ;;
  match element with
  | None => ret None
  | Some element =>
      resolved <- try_catch (expand_and_resolve element) (fun _ => ret None) ;;
      match resolved with
      | Some c => ret (Some c)
      | None => try_catch (last_resort last_resort_selectors) (fun _ => ret None)
      end
  end.

End WithView.
End Locator.

(* ------------------------------------------------------------------ *)
(** ** [click_and_extract_subprograms] *)

Module Harvest.
Import PyStr Dom Noise.
Local Open Scope dom_scope.

(** [main_words.issubset(item_words) or item_words.issubset(main_words)] *)
Definition word_overlap (main_title clean_item : string) : bool :=
  let main_words := split_ws (lower main_title) in
  let item_words := split_ws (lower clean_item) in
  subset main_words item_words || subset item_words main_words.

(** The cleaning every item of the container, snapshot and sibling paths
    goes through once it has passed the guard on its raw text. *)
Definition add_cleaned (main_title : string) (subprograms : list string)
    (item : string) : list string :=
  let clean_item := strip (first_line item) in
  if negb (clean_item =? "")%string && (2 <? String.length clean_item)
     && negb (is_nav_element clean_item)
  then if negb (word_overlap main_title clean_item)
       then subprograms ++ [clean_item] else subprograms
  else subprograms.

(** Loop body of the container path. *)
Definition add_container_item (main_title : string) (subprograms : list string)
    (item : string) : list string :=
  if negb (item =? "")%string && negb (item =? main_title)%string
     && negb (mem item subprograms)
  then add_cleaned main_title subprograms item else subprograms.

(** Loop body of the snapshot and sibling paths. *)
Definition add_text_item (main_title : string) (subprograms : list string)
    (text : string) : list string :=
  if negb (text =? main_title)%string && negb (mem text subprograms)
  then add_cleaned main_title subprograms text else subprograms.

(** Loop body of the target-id path. *)
Definition add_target_item (subprograms : list string) (item : string)
  : list string :=
  if negb (item =? "")%string && negb (mem item subprograms)
  then subprograms ++ [item] else subprograms.

Definition is_list (c : container) : bool :=
  match c_type c with CList => true | CContainer => false end.

Section WithView.
Context {W Elem : Type} (dv : DocumentView W Elem).

(** Standard click, then the scripted click; when both fail the harvest
    goes on. *)
Definition click_header (element : Elem) : M W unit :=
  try_catch (click dv element ;;; wait_for_timeout dv 1000)
    (fun _ => try_catch (js_click dv element ;;; wait_for_timeout dv 1000)
                        (fun _ => ret tt)).

Definition read_target_id (element : Elem) : M W (option string) :=
  try_catch
    (href <- get_attribute dv element "href" ;;
     match hash_target href with
     | Some id => ret (Some id)
     | None =>
         data_target <- or_else (get_attribute dv element "data-bs-target")
                                (get_attribute dv element "data-target") ;;
         ret (hash_target data_target)
     end)
    (fun _ => ret None).

(** Path 1: the items of the element an explicit target id points at. *)
Definition from_target (target_id : string) : M W (list string) :=
  try_catch
    (target_elem <- query_selector dv ("#" +++ target_id) ;;
     match target_elem with
     | Some _ =>
         js_show dv target_id ;;;
         items <- js_target_items dv target_id ;;
         ret (fold_left add_target_item items [])
     | None => ret []
     end)
    (fun _ => ret []).

(** Paths 2 and 3: the first visible list or expanded container of the
    page, else the snapshot of all visible elements. *)
Definition from_page (main_title : string) : M W (list string) :=
  try_catch
    (after_content <- js_containers dv ;;
     match after_content with
     | first :: _ =>
         let container :=
           match filter is_list after_content with
           | c :: _ => c
           | [] => first
           end in
         ret (fold_left (add_container_item main_title) (c_items container) [])
     | [] =>
         after_elements <- js_snapshot dv ;;
         let list_items := map s_text (filter s_isListItem after_elements) in
         let paragraphs := map s_text (filter s_isParagraph after_elements) in
         match list_items, paragraphs with
         | _ :: _, _ => ret (fold_left (add_text_item main_title) list_items [])
         | [], _ :: _ => ret (fold_left (add_text_item main_title) paragraphs [])
         | [], [] => ret []
         end
     end)
    (fun _ => ret []).

(** Path 4: list items of the siblings that follow the header. *)
Definition from_siblings (element : Elem) (main_title : string)
  : M W (list string) :=
  try_catch
    (items <- js_sibling_items dv element ;;
     ret (fold_left (add_text_item main_title) items []))
    (fun _ => ret []).

Definition click_and_extract_subprograms (element : Elem) (main_title : string)
  : M W (list string) :=
  js_visible_texts dv ;;;
  click_header element ;;;
  target_id <- read_target_id element ;;
  sub1 <- (match target_id with
           | Some id => if (id =? "")%string then ret [] else from_target id
           | None => ret []
           end) ;;
  sub2 <- (match sub1 with
           | [] => from_page main_title
           | _ :: _ => ret sub1
           end) ;;
  match sub2 with
  | [] => from_siblings element main_title
  | _ :: _ => ret sub2
  end.

End WithView.
End Harvest.

(* ------------------------------------------------------------------ *)
(** ** Insertion-ordered dictionaries with string keys *)

Module Dict.

Definition dict (V : Type) : Type := list (string * V).

Fixpoint get {V} (d : dict V) (k : string) : option V :=
  match d with
  | [] => None
  | (k', v) :: r => if (k' =? k)%string then Some v else get r k
  end.

Definition has {V} (d : dict V) (k : string) : bool :=
  match get d k with Some _ => true | None => false end.

(** [d[k] = v]: an existing key keeps its place. *)
Fixpoint set {V} (d : dict V) (k : string) (v : V) : dict V :=
  match d with
  | [] => [(k, v)]
  | (k', v') :: r =>
      if (k' =? k)%string then (k, v) :: r else (k', v') :: set r k v
  end.

(** [del d[k]] guarded by [k in d]. *)
Fixpoint del {V} (d : dict V) (k : string) : dict V :=
  match d with
  | [] => []
  | (k', v') :: r => if (k' =? k)%string then r else (k', v') :: del r k
  end.

Definition keys {V} (d : dict V) : list string := map fst d.

End Dict.

(* ------------------------------------------------------------------ *)
(** ** The programs section of [scrape_training_providers] *)

Module Engine.
Import PyStr Re Dom Dict.
Local Open Scope dom_scope.

(** *** Cleaning of the harvested sub-programs *)

(** [nav_elements] of the clean-up loop. *)
Definition nav_elements : list string :=
  [ "home"; "about"; "contact"; "menu"; "skip to content";
    "services"; "about us"; "find"; "resources"; "guides";
    "participate"; "search"; "login"; "register"; "sign in";
    "education institutions"; "find education"; "copyright";
    "privacy"; "terms"; "sitemap"; "faq"; "help";
    "click"; "toggle"; "close"; "open"; "show"; "hide";
    "programs offered"; "next"; "previous"; "submit";
    "apply now"; "learn more"; "read more"; "view all" ].

Definition digit : regex := Class isdigit.

(** [\d{2}[:/]\d{2}[:/]\d{2,4}] *)
Definition re_date : regex :=
  let sep := one_of [":"; "/"]%char in
  Cat (Rep 2 digit) (Cat sep (Cat (Rep 2 digit) (Cat sep
    (Cat (Rep 2 digit) (Cat (Opt digit) (Opt digit)))))).

(** [^[\d\s\.,]+$] *)
Definition re_numeric : regex :=
  Plus (Class (fun c => isdigit c || isspace c
                        || Ascii.eqb c "." || Ascii.eqb c ",")).

(** The occurrence count of every stripped, non-empty sub-program. *)
Definition count_duplicates (sub_programs : list string) : dict nat :=
  fold_left
    (fun duplicate_count sub =>
       if negb (sub =? "")%string && negb (strip sub =? "")%string
       then let clean_sub := strip sub in
            set duplicate_count clean_sub
                (match get duplicate_count clean_sub with
                 | Some n => n | None => 0 end + 1)
       else duplicate_count)
    sub_programs [].

Definition repeated_elements (sub_programs : list string) : list string :=
  map fst (filter (fun tc => 3 <=? snd tc) (count_duplicates sub_programs)).

Definition is_nav (clean_sub : string) : bool :=
  existsb (fun nav => (lower nav =? lower clean_sub)%string
                      || ((4 <? String.length nav)
                          && contains (lower nav) (lower clean_sub)))
          nav_elements.

(** The over-long item: its first line when that is short and free of
    navigation words, else nothing. *)
Definition shorten (clean_sub : string) : option string :=
  if 100 <? String.length clean_sub then
    let first_line := strip (first_line clean_sub) in
    if negb (first_line =? "")%string && (String.length first_line <? 100)
       && negb (existsb (fun nav => contains (lower nav) (lower first_line))
                        nav_elements)
    then Some first_line else None
  else Some clean_sub.

(** The inner loop over the items already accepted. *)
Definition similar_exists (clean_subs : list string) (clean_sub : string) : bool :=
  existsb (fun existing =>
             (0 <? String.length existing) && (0 <? String.length clean_sub)
             && (contains (lower existing) (lower clean_sub)
                 || contains (lower clean_sub) (lower existing)))
          clean_subs.

(** The last step of the loop body: the containment dedup. *)
Definition dedup_add (clean_subs : list string) (clean_sub : string) : list string :=
  if negb (clean_sub =? "")%string && negb (similar_exists clean_subs clean_sub)
     && negb (mem clean_sub clean_subs)
  then clean_subs ++ [clean_sub] else clean_subs.

(** The filters of the loop body, up to the dedup: [None] is [continue]. *)
Definition accept_sub (main_title : string) (repeated : list string)
    (sub : string) : option string :=
  if (sub =? "")%string || (String.length (strip sub) <? 3) then None
  else
    let clean_sub := strip sub in
    if mem clean_sub repeated then None
    else if is_nav clean_sub then None
    else if (clean_sub =? strip main_title)%string then None
    else if contains "http" (lower clean_sub) || contains "www." (lower clean_sub)
    then None
    else if search re_date clean_sub || search_anchored re_numeric clean_sub
    then None
    else shorten clean_sub.

Definition clean_step (main_title : string) (repeated : list string)
    (clean_subs : list string) (sub : string) : list string :=
  match accept_sub main_title repeated sub with
  | None => clean_subs
  | Some clean_sub => dedup_add clean_subs clean_sub
  end.

(** The clean-up of one category's sub-programs. *)
Definition clean_subprograms (main_title : string) (sub_programs : list string)
  : list string :=
  fold_left (clean_step main_title (repeated_elements sub_programs))
            sub_programs [].

(** *** Category-header discovery *)

Record candidate (Elem : Type) : Type := mkCandidate
  { title : string; element : Elem }.
Arguments mkCandidate {Elem} _ _.
Arguments title {Elem} _.
Arguments element {Elem} _.

Definition titles {Elem} (main_programs : list (candidate Elem)) : list string :=
  map title main_programs.

Definition main_program_selectors : list string :=
  [ "h3"; "h4"; "h5"; "strong"; ".program-title"; ".main-program";
    "div[class*=" +++ dq +++ "header" +++ dq +++ "]";
    ".accordion-button"; ".card-header";
    "div[role=" +++ dq +++ "button" +++ dq +++ "]";
    "a[role=" +++ dq +++ "button" +++ dq +++ "]";
    ".panel-heading"; ".accordion-header";
    "button[data-toggle=" +++ dq +++ "collapse" +++ dq +++ "]";
    "[class*=" +++ dq +++ "accordion" +++ dq +++ "]";
    "a[data-toggle=" +++ dq +++ "tab" +++ dq +++ "]";
    "[class*=" +++ dq +++ "tab-header" +++ dq +++ "]";
    ".nav-link";
    "[data-bs-toggle=" +++ dq +++ "collapse" +++ dq +++ "]";
    "[data-bs-toggle=" +++ dq +++ "tab" +++ dq +++ "]";
    ".btn-accordion"; ".toggle-trigger"; ".dropdown-toggle" ].

(** The body of the loop over the elements of one family, once the text
    of the element is read. *)
Definition add_candidate {Elem} (main_programs : list (candidate Elem))
    (el : Elem) (text : string) : list (candidate Elem) :=
  if negb (text =? "")%string && (1 <? String.length (strip text)) then
    let title := strip text in
    if existsb (fun p => (p.(Engine.title) =? title)%string) main_programs
    then main_programs
    else main_programs ++ [mkCandidate title el]
  else main_programs.

Section WithView.
Context {W Elem : Type} (dv : DocumentView W Elem).

(** The loop over the elements of one family.  The list is mutated in
    place, so what was appended before an [inner_text] raised stays;
    the boolean tells whether the loop ran to its end. *)
Fixpoint scan_elements (els : list Elem) (main_programs : list (candidate Elem))
    (w : W) : (list (candidate Elem) * bool) * W :=
  match els with
  | [] => ((main_programs, true), w)
  | el :: rest =>
      match inner_text dv el w with
      | (Ok text, w') => scan_elements rest (add_candidate main_programs el text) w'
      | (Raised _, w') => ((main_programs, false), w')
      end
  end.

(** One turn of the loop over the selector families; the boolean is the
    [break]. *)
Definition scan_family (content : Elem) (selector : string)
    (main_programs : list (candidate Elem)) (w : W)
  : (list (candidate Elem) * bool) * W :=
  match query_selector_all dv content selector w with
  | (Raised _, w') => ((main_programs, false), w')
  | (Ok [], w') => ((main_programs, false), w')
  | (Ok els, w') =>
      match scan_elements els main_programs w' with
      | ((main_programs', true), w'') =>
          ((main_programs', 1 <? List.length main_programs'), w'')
      | ((main_programs', false), w'') => ((main_programs', false), w'')
      end
  end.

Fixpoint scan_families (content : Elem) (selectors : list string)
    (main_programs : list (candidate Elem)) (w : W)
  : list (candidate Elem) * W :=
  match selectors with
  | [] => (main_programs, w)
  | selector :: rest =>
      match scan_family content selector main_programs w with
      | ((main_programs', true), w') => (main_programs', w')
      | ((main_programs', false), w') => scan_families content rest main_programs' w'
      end
  end.

(** The selector the clickable-element fallback rebuilds for one entry.
    The two branches that call [toLowerCase] on a Python string raise. *)
Definition rebuilt_selector (item : clickable) : outcome (option string) :=
  if truthy (k_selector item) then Ok (k_selector item)
  else if negb (k_className item =? "")%string && negb (k_tagName item =? "")%string
  then Raised "'str' object has no attribute 'toLowerCase'"
  else if negb (k_tagName item =? "")%string
  then Raised "'str' object has no attribute 'toLowerCase'"
  else Ok None.

(** One turn of the loop over the clickable entries. *)
Definition reacquire (main_programs : list (candidate Elem)) (item : clickable)
    (w : W) : list (candidate Elem) * W :=
  match rebuilt_selector item with
  | Ok (Some selector) =>
      match wait_for_selector dv selector 1000 "visible" w with
      | (Ok (Some el), w') => (main_programs ++ [mkCandidate (k_text item) el], w')
      | (Ok None, w') => (main_programs, w')
      | (Raised _, w') =>
          if startswith selector "//" then
            match wait_for_selector dv selector 1000 "visible" w' with
            | (Ok (Some el), w'') =>
                (main_programs ++ [mkCandidate (k_text item) el], w'')
            | (_, w'') => (main_programs, w'')
            end
          else (main_programs, w')
      end
  | _ => (main_programs, w)
  end.

Fixpoint reacquire_all (items : list clickable)
    (main_programs : list (candidate Elem)) (w : W)
  : list (candidate Elem) * W :=
  match items with
  | [] => (main_programs, w)
  | item :: rest =>
      let '(main_programs', w') := reacquire main_programs item w in
      reacquire_all rest main_programs' w'
  end.

(** The fallback scan for clickable elements, run when no family gave a
    candidate. *)
Definition scan_clickables (w : W) : list (candidate Elem) * W :=
  match js_clickable_elements dv w with
  | (Ok items, w') => reacquire_all items [] w'
  | (Raised _, w') => ([], w')
  end.

Definition discover_categories (content : Elem) (w : W)
  : list (candidate Elem) * W :=
  match scan_families content main_program_selectors [] w with
  | ([], w') => scan_clickables w'
  | r => r
  end.

(** *** Harvest of every category *)

(** One turn of the loop over the candidates: [program_structure] and
    [flat_programs] change only when the harvest returned. *)
Definition process_main_program
    (acc : dict (list string) * list string) (main_program : candidate Elem)
    (w : W) : (dict (list string) * list string) * W :=
  let '(program_structure, flat_programs) := acc in
  let main_title := title main_program in
  match Harvest.click_and_extract_subprograms dv (element main_program) main_title w with
  | (Ok [], w') =>
      ((set program_structure main_title [], flat_programs ++ [main_title]), w')
  | (Ok sub_programs, w') =>
      let clean_subs := clean_subprograms main_title sub_programs in
      ((set program_structure main_title clean_subs,
        flat_programs ++ map (fun sub => main_title +++ " - " +++ sub) clean_subs),
       w')
  | (Raised _, w') => (acc, w')
  end.

Fixpoint process_main_programs (main_programs : list (candidate Elem))
    (acc : dict (list string) * list string) (w : W)
  : (dict (list string) * list string) * W :=
  match main_programs with
  | [] => (acc, w)
  | main_program :: rest =>
      let '(acc', w') := process_main_program acc main_program w in
      process_main_programs rest acc' w'
  end.

End WithView.

(** *** The structural text fallback *)

(** [^\d+[\.\)]\s+\w] *)
Definition re_numbered : regex :=
  Cat (Plus digit) (Cat (one_of ["."; ")"]%char)
    (Cat (Plus (Class isspace)) (Class isword))).

Definition is_main_program (line : string) : bool :=
  if match_prefix re_numbered line then true
  else if endswith_char line ":" then true
  else if (List.length (split_ws line) <? 5) && (isupper line || head_isupper line)
  then true
  else if forallb head_isupper (split_ws line) then true
  else false.

(** [program_structure[key].append(item)] on a key that is present. *)
Fixpoint append_to (d : dict (list string)) (key item : string) : dict (list string) :=
  match d with
  | [] => []
  | (k, v) :: r =>
      if (k =? key)%string then (k, v ++ [item]) :: r
      else (k, v) :: append_to r key item
  end.

Definition text_lines (content_text : string) : list string :=
  map strip (filter (fun line => negb (strip line =? "")%string)
                    (split_on "010"%char content_text)).

Definition text_step (st : option string * dict (list string)) (line : string)
  : option string * dict (list string) :=
  let '(current_main_program, program_structure) := st in
  if is_main_program line then
    let current := rstrip_char ":"%char (strip line) in
    (Some current, set program_structure current [])
  else
    match current_main_program with
    | Some current =>
        if negb (current =? "")%string && negb (line =? "")%string
        then (current_main_program, append_to program_structure current (strip line))
        else st
    | None => st
    end.

(** The structure read off the flattened text of the container. *)
Definition parse_text (content_text : string) : dict (list string) :=
  if (content_text =? "")%string then []
  else snd (fold_left text_step (text_lines content_text) (None, [])).

(** The flat list that mirrors a structure. *)
Definition flatten (program_structure : dict (list string)) : list string :=
  flat_map (fun ms =>
              match snd ms with
              | [] => [fst ms]
              | subs => map (fun sub => fst ms +++ " - " +++ sub) subs
              end)
           program_structure.

(** *** The flat fallback *)

Definition flat_selectors : list string :=
  [ "li"; ".list-item"; "p";
    "div[class*=" +++ dq +++ "program" +++ dq +++ "]";
    "div[class*=" +++ dq +++ "item" +++ dq +++ "]";
    ".card"; "span" ].

Definition add_flat (flat_programs : list string) (prog_text : string) : list string :=
  if negb (prog_text =? "")%string && (1 <? String.length (strip prog_text))
  then flat_programs ++ [strip prog_text] else flat_programs.

Section Fallbacks.
Context {W Elem : Type} (dv : DocumentView W Elem).

Definition text_fallback (content : Elem) (flat_programs : list string) (w : W)
  : (dict (list string) * list string) * W :=
  match inner_text dv content w with
  | (Ok content_text, w') =>
      let program_structure := parse_text content_text in
      ((program_structure, flat_programs ++ flatten program_structure), w')
  | (Raised _, w') => (([], flat_programs), w')
  end.

Fixpoint read_items (items : list Elem) (flat_programs : list string) (w : W)
  : (list string * bool) * W :=
  match items with
  | [] => ((flat_programs, true), w)
  | prog :: rest =>
      match inner_text dv prog w with
      | (Ok prog_text, w') => read_items rest (add_flat flat_programs prog_text) w'
      | (Raised _, w') => ((flat_programs, false), w')
      end
  end.

Fixpoint flat_fallback (content : Elem) (selectors : list string)
    (flat_programs : list string) (w : W) : list string * W :=
  match selectors with
  | [] => (flat_programs, w)
  | selector :: rest =>
      match query_selector_all dv content selector w with
      | (Ok (prog :: items), w') =>
          match read_items (prog :: items) flat_programs w' with
          | ((_ :: _) as flat_programs', true, w'') => (flat_programs', w'')
          | (flat_programs', _, w'') => flat_fallback content rest flat_programs' w''
          end
      | (_, w') => flat_fallback content rest flat_programs w'
      end
  end.

(** Discovery, then the harvest of each category found. *)
Definition harvest_structure (content : Elem) (w : W)
  : (dict (list string) * list string) * W :=
  let '(main_programs, w1) := discover_categories dv content w in
  process_main_programs dv main_programs ([], []) w1.

(** Everything done with a located container: the harvested structure,
    and the two fallbacks when no structure came out. *)
Definition extract_structure (content : Elem) (w : W)
  : (dict (list string) * list string) * W :=
  let '((program_structure, flat_programs), w2) := harvest_structure content w in
  match program_structure with
  | _ :: _ => ((program_structure, flat_programs), w2)
  | [] =>
      let '((program_structure', flat_programs'), w3) :=
        text_fallback content flat_programs w2 in
      match flat_programs' with
      | _ :: _ => ((program_structure', flat_programs'), w3)
      | [] =>
          let '(flat_programs'', w4) := flat_fallback content flat_selectors [] w3 in
          ((program_structure', flat_programs''), w4)
      end
  end.

End Fallbacks.

(** *** The [programs] field of the record *)

Definition non_program_keywords : list string :=
  [ "home"; "about us"; "contact"; "menu"; "collapse"; "expand";
    "click"; "toggle"; "close"; "open"; "show"; "hide"; "programs offered" ].

Definition unique_programs (flat_programs : list string) : list string :=
  fold_left
    (fun unique prog =>
       let prog_clean := strip prog in
       if negb (prog_clean =? "")%string && (2 <? String.length prog_clean)
          && negb (mem prog_clean unique)
       then unique ++ [prog_clean] else unique)
    flat_programs [].

Definition filtered_programs (flat_programs : list string) : list string :=
  filter (fun prog => negb (mem (lower prog) non_program_keywords))
         (unique_programs flat_programs).

Definition or_na (segments : list string) : string :=
  match segments with
  | [] => "N/A"
  | _ :: _ => join "; " segments
  end.

Definition filtered_subs (sub_programs : list string) : list string :=
  filter (fun sub =>
            negb (sub =? "")%string && (2 <? String.length (strip sub))
            && negb (existsb (fun nav => contains nav (lower sub))
                             ["home"; "about"; "contact"; "menu"]))
         sub_programs.

(** One turn of the loop that formats the structure. *)
Definition format_step (formatted_programs : list string)
    (entry : string * list string) : list string :=
  let '(main_program, sub_programs) := entry in
  match sub_programs with
  | _ :: _ =>
      match filtered_subs sub_programs with
      | (_ :: _) as subs =>
          formatted_programs ++ [main_program +++ " (" +++ join ", " subs +++ ")"]
      | [] => formatted_programs ++ [main_program]
      end
  | [] => formatted_programs ++ [main_program]
  end.

Definition formatted_programs (program_structure : dict (list string)) : list string :=
  fold_left format_step program_structure [].

(** The value stored under ['programs'] for a non-empty structure. *)
Definition serialize (program_structure : dict (list string)) : string :=
  or_na (formatted_programs program_structure).

(** The record after the flat clean-up, the serialisation and the removal
    of the legacy columns. *)
Definition finalize (detailed_data : dict string)
    (program_structure : dict (list string)) (flat_programs : list string)
  : dict string :=
  let d1 :=
    match flat_programs with
    | _ :: _ =>
        match program_structure with
        | [] => set detailed_data "programs" (or_na (filtered_programs flat_programs))
        | _ :: _ => detailed_data
        end
    | [] =>
        if has detailed_data "programs" then detailed_data
        else set detailed_data "programs" "N/A"
    end in
  let d2 :=
    match program_structure with
    | _ :: _ => set d1 "programs" (serialize program_structure)
    | [] =>
        set d1 "programs"
            (match get d1 "programs_offered" with Some v => v | None => "N/A" end)
    end in
  del (del (del d2 "programs_offered") "formatted_programs") "program_structure".

(** The record as it stands when the programs section starts. *)
Definition detail_record (name area location website email phone address : string)
  : dict string :=
  [ ("name", name); ("area", area); ("listing_location", location);
    ("website", website); ("email", email); ("phone", phone);
    ("address", address) ].

Section Provider.
Context {W Elem : Type} (dv : DocumentView W Elem).

(** From the guarded call of the locator to the finished record. *)
Definition locate_and_build (detailed_data : dict string) : M W (dict string) :=
  fun w =>
    let '(accordion_content, w1) :=
      match Locator.click_and_expand_accordion dv "Programs Offered" w with
      | (Ok content, w') => (content, w')
      | (Raised _, w') => (None, w')
      end in
    let '((program_structure, flat_programs), w2) :=
      match accordion_content with
      | Some content => extract_structure dv content w1
      | None => (([], []), w1)
      end in
    (Ok (finalize detailed_data program_structure flat_programs), w2).

Definition programs_section (detailed_data : dict string) : M W (dict string) :=
  wait_for_load_state dv "networkidle" ;;;
  wait_for_timeout dv 1000 ;;;
  locate_and_build detailed_data.

End Provider.

(** *** The clean-up before the record is saved *)

(** [nav_elements] of the save step. *)
Definition save_nav_elements : list string :=
  [ "home"; "about"; "contact"; "menu"; "skip to content";
    "services"; "about us"; "find"; "resources"; "guides";
    "participate"; "search"; "login"; "register"; "sign in";
    "education institutions"; "find education"; "copyright";
    "privacy"; "terms"; "sitemap"; "faq"; "help" ].

Definition has_save_nav (prog_item : string) : bool :=
  existsb (fun nav => contains (lower nav) (lower prog_item)) save_nav_elements.

Definition save_step (cleaned_programs : list string) (prog_item : string)
  : list string :=
  let prog_item := strip prog_item in
  if has_save_nav prog_item then cleaned_programs
  else if negb (prog_item =? "")%string && negb (mem prog_item cleaned_programs)
  then cleaned_programs ++ [prog_item] else cleaned_programs.

Definition cleaned_programs (programs : string) : list string :=
  fold_left save_step (split_on ";"%char programs) [].

Definition clean_saved_programs (programs : string) : string :=
  or_na (cleaned_programs programs).

(** [save_data] as handed to the CSV writer. *)
Definition save_data (detailed_data : dict string) : dict string :=
  let d := del (del (del detailed_data "programs_offered") "program_structure")
               "formatted_programs" in
  match get d "programs" with
  | Some programs =>
      if (programs =? "")%string then d
      else set d "programs" (clean_saved_programs programs)
  | None => d
  end.

End Engine.

(* ------------------------------------------------------------------ *)
(** ** Concrete document views *)

Module Fixtures.
Import PyStr Dom.

(** A page whose content does not change: what each capability answers. *)
Record page : Type := mkPage
  { p_loads : bool;
    p_wait : string -> option nat;
    p_query : string -> option nat;
    p_query_all : nat -> string -> list nat;
    p_attr : nat -> string -> option string;
    p_text : nat -> string;
    p_target_items : string -> list string;
    p_containers : list container;
    p_snapshot : list snapshot_entry;
    p_siblings : nat -> list string;
    p_clickables : list clickable }.

Definition timeout {A} : M unit A := raise "TimeoutError".

(** The view of an unchanging page.  A wait for a selector that matches
    nothing times out, as in the browser layer. *)
Definition static_view (p : page) : DocumentView unit nat :=
  {| wait_for_load_state := fun _ => if p_loads p then ret tt else timeout;
     wait_for_timeout := fun _ => ret tt;
     wait_for_selector := fun sel _ _ =>
       match p_wait p sel with Some e => ret (Some e) | None => timeout end;
     query_selector := fun sel => ret (p_query p sel);
     query_selector_all := fun e sel => ret (p_query_all p e sel);
     get_attribute := fun e name => ret (p_attr p e name);
     inner_text := fun e => ret (p_text p e);
     click := fun _ => ret tt;
     is_visible := fun _ => ret true;
     js_click := fun _ => ret tt;
     js_show_expanded := fun _ => ret tt;
     js_show := fun _ => ret tt;
     js_has_content := fun _ => ret false;
     js_visible_texts := ret [];
     js_target_items := fun id => ret (p_target_items p id);
     js_containers := ret (p_containers p);
     js_snapshot := ret (p_snapshot p);
     js_sibling_items := fun e => ret (p_siblings p e);
     js_clickable_elements := ret (p_clickables p) |}.

(** A page on which nothing matches. *)
Definition blank_page : page :=
  {| p_loads := true;
     p_wait := fun _ => None;
     p_query := fun _ => None;
     p_query_all := fun _ _ => [];
     p_attr := fun _ _ => None;
     p_text := fun _ => "";
     p_target_items := fun _ => [];
     p_containers := [];
     p_snapshot := [];
     p_siblings := fun _ => [];
     p_clickables := [] |}.

(** A page that never reaches the network-idle state. *)
Definition stalled_page : page :=
  {| p_loads := false;
     p_wait := p_wait blank_page;
     p_query := p_query blank_page;
     p_query_all := p_query_all blank_page;
     p_attr := p_attr blank_page;
     p_text := p_text blank_page;
     p_target_items := p_target_items blank_page;
     p_containers := [];
     p_snapshot := [];
     p_siblings := p_siblings blank_page;
     p_clickables := [] |}.

(** No element carries the label, yet element 7 has a class that
    contains "program". *)
Definition unlabelled_page : page :=
  {| p_loads := true;
     p_wait := fun _ => None;
     p_query := fun sel =>
       if (sel =? "[class*=" +++ dq +++ "program" +++ dq +++ "]")%string
       then Some 7 else None;
     p_query_all := fun _ _ => [];
     p_attr := fun _ _ => None;
     p_text := fun _ => "";
     p_target_items := fun _ => [];
     p_containers := [];
     p_snapshot := [];
     p_siblings := fun _ => [];
     p_clickables := [] |}.

(** Container 0 holds one [h3] "Business", one [h4] "Technology" and one
    [h5] "Health". *)
Definition headings_page : page :=
  {| p_loads := true;
     p_wait := fun _ => None;
     p_query := fun _ => None;
     p_query_all := fun e sel =>
       if negb (e =? 0) then []
       else if (sel =? "h3")%string then [1]
       else if (sel =? "h4")%string then [2]
       else if (sel =? "h5")%string then [3]
       else [];
     p_attr := fun _ _ => None;
     p_text := fun e =>
       match e with
       | 1 => "Business" | 2 => "Technology" | 3 => "Health" | _ => ""
       end;
     p_target_items := fun _ => [];
     p_containers := [];
     p_snapshot := [];
     p_siblings := fun _ => [];
     p_clickables := [] |}.

(** Container 0 has no header element; its text is a colon-terminated
    line followed by the same lower-case line twice. *)
Definition plain_text_page : page :=
  {| p_loads := true;
     p_wait := fun _ => None;
     p_query := fun _ => None;
     p_query_all := fun _ _ => [];
     p_attr := fun _ _ => None;
     p_text := fun e =>
       match e with
       | 0 => "Business:" +++ nl +++ "diploma in accounting" +++ nl
              +++ "diploma in accounting"
       | _ => ""
       end;
     p_target_items := fun _ => [];
     p_containers := [];
     p_snapshot := [];
     p_siblings := fun _ => [];
     p_clickables := [] |}.

(** Header 1 is a link to [#p1]; the element with that id is 2 and shows
    one item. *)
Definition linked_page : page :=
  {| p_loads := true;
     p_wait := fun _ => None;
     p_query := fun sel => if (sel =? "#p1")%string then Some 2 else None;
     p_query_all := fun _ _ => [];
     p_attr := fun e name =>
       if (e =? 1) && (name =? "href")%string then Some "#p1" else None;
     p_text := fun _ => "";
     p_target_items := fun id =>
       if (id =? "p1")%string then ["Business Management"] else [];
     p_containers := [];
     p_snapshot := [];
     p_siblings := fun _ => [];
     p_clickables := [] |}.

(** A header [h4] "Business" without target reference, followed by a
    list of two items that a click on the header shows or hides, and by
    a paragraph that is always visible.  The state is whether the list
    is shown. *)
Definition toggle_view : DocumentView bool nat :=
  let items := ["Item1"; "Item2"] in
  {| wait_for_load_state := fun _ => ret tt;
     wait_for_timeout := fun _ => ret tt;
     wait_for_selector := fun _ _ _ => raise "TimeoutError";
     query_selector := fun _ => ret None;
     query_selector_all := fun _ _ => ret [];
     get_attribute := fun _ _ => ret None;
     inner_text := fun _ => ret "Business";
     click := fun _ shown => (Ok tt, negb shown);
     is_visible := fun _ => ret true;
     js_click := fun _ shown => (Ok tt, negb shown);
     js_show_expanded := fun _ => ret tt;
     js_show := fun _ => ret tt;
     js_has_content := fun _ => ret false;
     js_visible_texts := ret [];
     js_target_items := fun _ => ret [];
     js_containers := fun shown =>
       (Ok (if shown then [mkContainer CList items] else []), shown);
     js_snapshot := fun shown =>
       (Ok ([mkSnapshot "Business" false false]
            ++ (if shown
                then map (fun t => mkSnapshot t true false) items else [])
            ++ [mkSnapshot "Accredited by KHDA" false true]),
        shown);
     js_sibling_items := fun _ => ret items;
     js_clickable_elements := ret [] |}.

End Fixtures.

(* ------------------------------------------------------------------ *)
(** ** Further string primitives *)

Module PyMore.
Import PyStr.

(** [s.replace(old, new)] for a non-empty [old]: the occurrences are
    taken from left to right and do not overlap; [skip] counts the
    characters of a matched occurrence still to pass over. *)
Fixpoint replace_from (old new : string) (skip : nat) (s : string) : string :=
  match s with
  | EmptyString => EmptyString
  | String c r =>
      match skip with
      | S k => replace_from old new k r
      | O =>
          if startswith s old
          then new +++ replace_from old new (String.length old - 1) r
          else String c (replace_from old new 0 r)
      end
  end.

Definition replace (old new s : string) : string := replace_from old new 0 s.

(** [str.isalnum] on one character. *)
Definition isalnum (c : ascii) : bool :=
  isword c && negb (Ascii.eqb c "_").

(** [str(n)] for a natural number. *)
Definition str_of_nat (n : nat) : string :=
  DecimalString.NilEmpty.string_of_uint (Nat.to_uint n).

(** [int(s)] for a string of decimal digits. *)
Definition int_of_digits (s : string) : nat :=
  match DecimalString.NilEmpty.uint_of_string s with
  | Some d => Nat.of_uint d
  | None => 0
  end.

(** The longest prefix of characters of one class, and what follows. *)
Fixpoint take_while (p : ascii -> bool) (s : string) : string :=
  match s with
  | EmptyString => EmptyString
  | String c r => if p c then String c (take_while p r) else EmptyString
  end.

Fixpoint drop_while (p : ascii -> bool) (s : string) : string :=
  match s with
  | EmptyString => EmptyString
  | String c r => if p c then drop_while p r else s
  end.

(** [s[n:]] *)
Fixpoint drop (n : nat) (s : string) : string :=
  match n, s with
  | O, _ => s
  | S k, EmptyString => EmptyString
  | S k, String _ r => drop k r
  end.

(** Character-wise mapping, [''.join(f(c) for c in s)]. *)
Fixpoint map_chars (f : ascii -> ascii) (s : string) : string :=
  match s with
  | EmptyString => EmptyString
  | String c r => String (f c) (map_chars f r)
  end.

(** A character occurs in a string. *)
Fixpoint occurs (c : ascii) (s : string) : bool :=
  match s with
  | EmptyString => false
  | String a r => Ascii.eqb a c || occurs c r
  end.

(** Every character of a string is of one class. *)
Fixpoint all_chars (p : ascii -> bool) (s : string) : bool :=
  match s with
  | EmptyString => true
  | String a r => p a && all_chars p r
  end.

End PyMore.

(* ------------------------------------------------------------------ *)
(** ** The listing page: item count, card text, file names *)

Module Listing.
Import PyStr PyMore.

(** A match of [of (\d+) items] at the start of [s], with its group.
    The digits are followed by a space, so the greedy run of digits is
    the only candidate for the group. *)
Definition match_of_items (s : string) : option string :=
  if startswith s "of " then
    let rest := drop 3 s in
    let digits := take_while isdigit rest in
    if negb (digits =? "")%string && startswith (drop_while isdigit rest) " items"
    then Some digits else None
  else None.

(** [re.search(r'of (\d+) items', s)]: the leftmost match. *)
Fixpoint search_of_items (s : string) : option string :=
  match match_of_items s with
  | Some digits => Some digits
  | None =>
      match s with
      | EmptyString => None
      | String _ r => search_of_items r
      end
  end.

(** [total_items] as read from the pagination text. *)
Definition total_items (total_items_text : string) : nat :=
  match search_of_items total_items_text with
  | Some digits => int_of_digits digits
  | None => 0
  end.

(** The text made up when the items are counted directly. *)
Definition estimated_info (n : nat) : string :=
  "1 - " +++ str_of_nat n +++ " of " +++ str_of_nat n +++ " items".

Definition unknown_info : string := "unknown number of items".

(** The first index of a line that mentions the provider name. *)
Fixpoint name_index (name : string) (lines : list string) : option nat :=
  match lines with
  | [] => None
  | line :: rest =>
      if contains (lower (strip name)) (lower line) then Some 0
      else option_map S (name_index name rest)
  end.

(** [area] as read off the lines of the card. *)
Definition area_of (name : string) (lines : list string) : string :=
  match name_index name lines with
  | Some i =>
      match nth_error lines (i + 1) with
      | Some potential_area =>
          if negb (startswith (lower potential_area) "location")
             && (2 <? String.length potential_area)
          then potential_area else "N/A"
      | None => "N/A"
      end
  | None => "N/A"
  end.

(** [location] as read off the lines of the card. *)
Fixpoint location_of (lines : list string) : string :=
  match lines with
  | [] => "N/A"
  | line :: rest =>
      match rest with
      | next :: _ =>
          if (strip (lower line) =? "location")%string then next
          else if startswith (lower line) "location:"
          then strip (replace "location:" "" line)
          else if contains "location" (lower line) && (10 <? String.length line)
          then line
          else location_of rest
      | [] =>
          if startswith (lower line) "location:"
          then strip (replace "location:" "" line)
          else if contains "location" (lower line) && (10 <? String.length line)
          then line
          else "N/A"
      end
  end.

(** [detail_url] for a non-empty [href]. *)
Definition detail_url (href : string) : string :=
  if startswith href "/" then "https://web.khda.gov.ae" +++ href
  else "https://web.khda.gov.ae/en/Education-Directory/" +++ href.

(** [safe_filename] of the backup save. *)
Definition safe_filename (name : string) : string :=
  map_chars (fun c => if isalnum c then c else "_"%char) name.

(** The stem of the provider-specific CSV of the save loop. *)
Definition provider_stem (name : string) : string :=
  replace "/" "_" (replace " " "_" name).

End Listing.

(* ------------------------------------------------------------------ *)
(** ** The listing page: area and location of one card *)

Module Card.
Import PyStr PyMore Dom Listing.

(** The calls made on the link of a provider and on its card:
    [closest_card] is the script evaluated on the link, as the truth
    value the code tests; [closest_handle] is the handle of the same
    parent, missing when the handle holds no element, in which case
    reading its text raises; [query_in] is [query_selector] on the
    handle of the card. *)
Record CardView (W Elem : Type) : Type := mkCardView
  { page : DocumentView W Elem;
    closest_card : Elem -> M W bool;
    closest_handle : Elem -> M W (option Elem);
    query_in : Elem -> string -> M W (option Elem) }.

Arguments page {W Elem} _.
Arguments closest_card {W Elem} _ _ _.
Arguments closest_handle {W Elem} _ _ _.
Arguments query_in {W Elem} _ _ _ _.

Definition area_selectors : list string :=
  [ "td:nth-child(2)"; ".area"; ".location-area";
    "[class*=" +++ dq +++ "area" +++ dq +++ "]" ].

Definition location_selectors : list string :=
  [ "td:nth-child(3)"; ".location"; ".address";
    "[class*=" +++ dq +++ "location" +++ dq +++ "]";
    "[class*=" +++ dq +++ "address" +++ dq +++ "]" ].

Section WithCard.
Context {W Elem : Type} (cv : CardView W Elem).

(** The loop over the selectors of one field: the trimmed text of the
    first element with a text that is not blank is taken, and the loop
    left, only while the field is still "N/A"; a call that raises moves
    on to the next selector. *)
Fixpoint fill_from (parent_handle : Elem) (selectors : list string)
    (current : string) (w : W) : string * W :=
  match selectors with
  | [] => (current, w)
  | selector :: rest =>
      match query_in cv parent_handle selector w with
      | (Ok (Some elem), w1) =>
          match inner_text (page cv) elem w1 with
          | (Ok text, w2) =>
              if negb (text =? "")%string && negb (strip text =? "")%string
                 && (current =? "N/A")%string
              then (strip text, w2)
              else fill_from parent_handle rest current w2
          | (Raised _, w2) => fill_from parent_handle rest current w2
          end
      | (_, w1) => fill_from parent_handle rest current w1
      end
  end.

(** [area] and [location] of one provider link: the text of the card is
    analysed first, then the selectors are tried inside the card; any
    failure to reach the card or its text leaves both at "N/A". *)
Definition card_fields (link : Elem) (name : string) (w : W)
  : (string * string) * W :=
  match closest_card cv link w with
  | (Ok true, w1) =>
      match closest_handle cv link w1 with
      | (Ok (Some parent_handle), w2) =>
          match inner_text (page cv) parent_handle w2 with
          | (Ok card_text, w3) =>
              let lines := Engine.text_lines card_text in
              let '(area, w4) :=
                fill_from parent_handle area_selectors (area_of name lines) w3 in
              let '(location, w5) :=
                fill_from parent_handle location_selectors (location_of lines) w4 in
              ((area, location), w5)
          | (Raised _, w3) => (("N/A", "N/A"), w3)
          end
      | (_, w2) => (("N/A", "N/A"), w2)
      end
  | (_, w1) => (("N/A", "N/A"), w1)
  end.

End WithCard.
End Card.

(* ------------------------------------------------------------------ *)
(** ** The detail page: website, e-mail link and address *)

Module Detail.
Import PyStr PyMore Dom.

Definition website_selectors : list string :=
  [ "a[href*=" +++ dq +++ "http" +++ dq +++ "]:not([href*=" +++ dq
      +++ "khda.gov.ae" +++ dq +++ "])";
    "a[target=" +++ dq +++ "_blank" +++ dq +++ "]";
    "a[href*=" +++ dq +++ ".com" +++ dq +++ "]";
    "a[href*=" +++ dq +++ ".ae" +++ dq +++ "]:not([href*=" +++ dq
      +++ "khda.gov.ae" +++ dq +++ "])" ].

Definition email_selectors : list string :=
  [ "a[href*=" +++ dq +++ "mailto:" +++ dq +++ "]";
    "a[href*=" +++ dq +++ "@" +++ dq +++ "]" ].

Definition address_selectors : list string :=
  [ "[class*=" +++ dq +++ "address" +++ dq +++ "]";
    "[class*=" +++ dq +++ "location" +++ dq +++ "]";
    "address" ].

Section WithView.
Context {W Elem : Type} (dv : DocumentView W Elem).

(** The [href] of the first element a selector matches; a selector that
    matches nothing, or a call that raises, gives nothing. *)
Definition href_of (selector : string) (w : W) : option string * W :=
  match query_selector dv selector w with
  | (Ok (Some el), w1) =>
      match get_attribute dv el "href" w1 with
      | (Ok href, w2) => (href, w2)
      | (Raised _, w2) => (None, w2)
      end
  | (_, w1) => (None, w1)
  end.

(** The loop over the website selectors. *)
Fixpoint find_website (selectors : list string) (w : W) : string * W :=
  match selectors with
  | [] => ("N/A", w)
  | selector :: rest =>
      match href_of selector w with
      | (Some href_attr, w') =>
          if negb (href_attr =? "")%string && contains "http" href_attr
             && negb (contains "khda.gov.ae" href_attr)
          then (href_attr, w') else find_website rest w'
      | (None, w') => find_website rest w'
      end
  end.

(** The loop over the e-mail selectors. *)
Fixpoint find_email_link (selectors : list string) (w : W) : string * W :=
  match selectors with
  | [] => ("N/A", w)
  | selector :: rest =>
      match href_of selector w with
      | (Some href_attr, w') =>
          if negb (href_attr =? "")%string && contains "@" href_attr
          then (strip (replace "mailto:" "" href_attr), w')
          else find_email_link rest w'
      | (None, w') => find_email_link rest w'
      end
  end.

(** The text of the first element a selector matches. *)
Definition text_of (selector : string) (w : W) : option string * W :=
  match query_selector dv selector w with
  | (Ok (Some el), w1) =>
      match inner_text dv el w1 with
      | (Ok text, w2) => (Some text, w2)
      | (Raised _, w2) => (None, w2)
      end
  | (_, w1) => (None, w1)
  end.

(** The loop over the address selectors. *)
Fixpoint find_address (selectors : list string) (w : W) : string * W :=
  match selectors with
  | [] => ("N/A", w)
  | selector :: rest =>
      match text_of selector w with
      | (Some address_text, w') =>
          if negb (address_text =? "")%string
             && (5 <? String.length (strip address_text))
          then (strip address_text, w') else find_address rest w'
      | (None, w') => find_address rest w'
      end
  end.

End WithView.
End Detail.

(* ------------------------------------------------------------------ *)
(** ** The listing walk: loading, next page, opening a provider *)

Module Walk.
Import PyStr PyMore Dom Listing.
Local Open Scope dom_scope.

(** The capabilities of the page the listing walk uses beyond those of
    the engine. *)
Record PageView (W Elem : Type) : Type := mkPageView
  { view : DocumentView W Elem;
    goto : string -> option nat -> M W unit;
    load_state : string -> nat -> M W unit;
    query_all : string -> M W (list Elem);
    text_content : Elem -> M W (option string);
    page_text : string -> M W (option string);
    page_url : W -> string;
    js_is_enabled : Elem -> M W bool }.

Arguments view {W Elem} _.
Arguments goto {W Elem} _ _ _ _.
Arguments load_state {W Elem} _ _ _ _.
Arguments query_all {W Elem} _ _ _.
Arguments text_content {W Elem} _ _ _.
Arguments page_text {W Elem} _ _ _.
Arguments page_url {W Elem} _ _.
Arguments js_is_enabled {W Elem} _ _ _.

Definition url : string := "https://web.khda.gov.ae/en/Education-Directory/Training".

(** The timeout of the loading calls, 60 seconds in milliseconds. *)
Definition load_timeout : nat := 60 * 1000.

Definition content_selector : string :=
  "table, .directory-item, tr[role=" +++ dq +++ "row" +++ dq
  +++ "], .card, .item, [class*=" +++ dq +++ "list-item" +++ dq
  +++ "], h2, h3, h4, a[href*=" +++ dq +++ "details" +++ dq
  +++ "], div[class*=" +++ dq +++ "card" +++ dq
  +++ "], div[class*=" +++ dq +++ "item" +++ dq +++ "]".

Definition pager_selectors : list string :=
  [ ".k-pager-info.k-label"; ".pagination-info";
    "div[class*=" +++ dq +++ "pager" +++ dq +++ "]";
    "div[class*=" +++ dq +++ "pagination" +++ dq +++ "]";
    ".paginator-info"; ".page-count";
    "span[class*=" +++ dq +++ "count" +++ dq +++ "]" ].

Definition item_count_selector : string :=
  "tr[role=" +++ dq +++ "row" +++ dq
  +++ "], .directory-item, .card, .item, [class*=" +++ dq +++ "list-item" +++ dq
  +++ "], div[class*=" +++ dq +++ "card" +++ dq
  +++ "], div[class*=" +++ dq +++ "item" +++ dq +++ "]".

Definition next_selectors : list string :=
  [ "a.k-link[title=" +++ dq +++ "Go to the next page" +++ dq +++ "]";
    ".k-pager-nav.k-pager-next:not(.k-state-disabled)";
    "button[aria-label=" +++ dq +++ "Next page" +++ dq +++ "], [aria-label="
      +++ dq +++ "next page" +++ dq +++ "]";
    "[class*=" +++ dq +++ "next" +++ dq +++ "]:not([disabled])";
    "a[class*=" +++ dq +++ "next" +++ dq +++ "], button[class*=" +++ dq
      +++ "next" +++ dq +++ "]";
    "[aria-label*=" +++ dq +++ "next" +++ dq +++ "]";
    "a:has-text(" +++ dq +++ "Next" +++ dq +++ ")";
    "button:has-text(" +++ dq +++ "Next" +++ dq +++ ")" ].

Definition item_selectors : list string :=
  [ "tr[role=" +++ dq +++ "row" +++ dq +++ "]"; ".directory-item"; ".card";
    "table tbody tr";
    "[class*=" +++ dq +++ "institute" +++ dq +++ "]";
    "[class*=" +++ dq +++ "item" +++ dq +++ "]";
    "tr"; "td";
    "div[class*=" +++ dq +++ "card" +++ dq +++ "]"; "a" ].

Definition detail_selectors : list string :=
  [ "a[href*=" +++ dq +++ "detail" +++ dq +++ "], button:has-text(" +++ dq
    +++ "Details" +++ dq +++ "), a:has-text(" +++ dq +++ "Details" +++ dq
    +++ "), [class*=" +++ dq +++ "detail" +++ dq +++ "]" ].

Section WithPage.
Context {W Elem : Type} (pv : PageView W Elem).

(** *** Loading the listing *)

(** The loop over the pagination selectors: the text of the first
    element found, which may be missing; a call that raises moves on. *)
Fixpoint find_pager_text (selectors : list string) (w : W) : option string * W :=
  match selectors with
  | [] => (None, w)
  | selector :: rest =>
      match query_selector (view pv) selector w with
      | (Ok (Some element), w1) =>
          match text_content pv element w1 with
          | (Ok total_items_text, w2) => (total_items_text, w2)
          | (Raised _, w2) => find_pager_text rest w2
          end
      | (_, w1) => find_pager_text rest w1
      end
  end.

(** The count of the entries when no pagination text is found. *)
Definition count_items (w : W) : string * W :=
  match query_all pv item_count_selector w with
  | (Ok (item :: items), w1) => (estimated_info (List.length (item :: items)), w1)
  | (_, w1) => (unknown_info, w1)
  end.

(** One attempt at loading the listing: the body of the [try]. *)
Definition load_attempt : M W string :=
  goto pv url (Some load_timeout) ;;;
  load_state pv "domcontentloaded" load_timeout ;;;
  load_state pv "networkidle" load_timeout ;;;
  wait_for_selector (view pv) content_selector load_timeout "visible" ;;;
  (fun w =>
     match find_pager_text pager_selectors w with
     | (Some total_items_text, w1) =>
         if negb (total_items_text =? "")%string then (Ok total_items_text, w1)
         else let '(t, w2) := count_items w1 in (Ok t, w2)
     | (None, w1) => let '(t, w2) := count_items w1 in (Ok t, w2)
     end).

Definition load_failure (e : exn) : exn :=
  "Failed to load page after 3 attempts: " +++ e.

(** The attempts still to make; the last failure is raised again with
    the message of the loop. *)
Fixpoint load_attempts (left : nat) : M W string :=
  match left with
  | O => raise "UnboundLocalError"
  | S k =>
      try_catch load_attempt
        (fun e => match k with
                  | O => raise (load_failure e)
                  | S _ => load_attempts k
                  end)
  end.

(** The pagination text the walk starts from: [max_retries] is 3. *)
Definition load_listing : M W string := load_attempts 3.

(** *** The next page *)

(** The loop over the next-page selectors; the state carried is
    [next_button]. *)
Fixpoint find_next (selectors : list string) (next_button : option Elem) (w : W)
  : (option Elem * bool) * W :=
  match selectors with
  | [] => ((next_button, false), w)
  | selector :: rest =>
      match wait_for_selector (view pv) selector 2000 "attached" w with
      | (Ok (Some btn), w1) =>
          match js_is_enabled pv btn w1 with
          | (Ok true, w2) => ((Some btn, true), w2)
          | (_, w2) => find_next rest (Some btn) w2
          end
      | (Ok None, w1) => find_next rest None w1
      | (Raised _, w1) => find_next rest next_button w1
      end
  end.

(** *** [click_on_provider] *)

Definition click_and_wait (el : Elem) : M W unit :=
  click (view pv) el ;;; wait_for_load_state (view pv) "networkidle".

(** Stage 1: the elements with the exact name, each click guarded. *)
Fixpoint click_first (elements : list Elem) (w : W) : bool * W :=
  match elements with
  | [] => (false, w)
  | elem :: rest =>
      match click_and_wait elem w with
      | (Ok _, w') => (true, w')
      | (Raised _, w') => click_first rest w'
      end
  end.

(** Stage 2, inner loop: the first item whose text mentions the name. *)
Fixpoint click_matching (provider_name : string) (items : list Elem) (w : W)
  : bool * W :=
  match items with
  | [] => (false, w)
  | item :: rest =>
      match (text <- inner_text (view pv) item ;;
             if contains (lower provider_name) (lower text)
             then click_and_wait item ;;; ret true
             else ret false) w with
      | (Ok true, w') => (true, w')
      | (_, w') => click_matching provider_name rest w'
      end
  end.

(** Stage 2, outer loop: the query of each selector is not guarded. *)
Fixpoint click_container (provider_name : string) (selectors : list string)
  : M W bool :=
  match selectors with
  | [] => ret false
  | selector :: rest =>
      items <- query_all pv selector ;;
      (fun w =>
         match click_matching provider_name items w with
         | (true, w') => (Ok true, w')
         | (false, w') => click_container provider_name rest w'
         end)
  end.

(** Stage 3, inner loop: follow a details link and look for the name on
    the page reached; the loop as a whole is guarded. *)
Fixpoint follow_details (provider_name : string) (elems : list Elem) : M W bool :=
  match elems with
  | [] => ret false
  | elem :: rest =>
      click_and_wait elem ;;;
      page_text <- page_text pv "body" ;;
      match page_text with
      | None => raise "'NoneType' object has no attribute 'lower'"
      | Some t =>
          if contains (lower provider_name) (lower t) then ret true
          else (fun w => goto pv (page_url pv w) None w) ;;;
               wait_for_load_state (view pv) "networkidle" ;;;
               follow_details provider_name rest
      end
  end.

Fixpoint click_details (provider_name : string) (selectors : list string)
  : M W bool :=
  match selectors with
  | [] => ret false
  | selector :: rest =>
      found <- try_catch (elems <- query_all pv selector ;;
                          follow_details provider_name elems)
                         (fun _ => ret false) ;;
      if found then ret true else click_details provider_name rest
  end.

Definition click_on_provider (provider_name : string) : M W bool :=
  elements_with_name <- query_all pv ("text=" +++ dq +++ provider_name +++ dq) ;;
  (fun w =>
     match click_first elements_with_name w with
     | (true, w') => (Ok true, w')
     | (false, w') =>
         (found <- click_container provider_name item_selectors ;;
          if found then ret true
          else click_details provider_name detail_selectors) w'
     end).

End WithPage.
End Walk.

(* ------------------------------------------------------------------ *)
(** ** A concrete listing page *)

Module WalkFixtures.
Import PyStr Dom Walk.

(** A listing that shows content (element 9) but no pagination text and
    no entry, whose first next-page selector matches element 5, and on
    which element 1 carries the exact text of the provider name; every
    capability answers at once. *)
Definition listing_page : Fixtures.page :=
  {| Fixtures.p_loads := true;
     Fixtures.p_wait := fun sel =>
       if (sel =? hd "" next_selectors)%string then Some 5
       else if (sel =? content_selector)%string then Some 9 else None;
     Fixtures.p_query := fun _ => None;
     Fixtures.p_query_all := fun _ _ => [];
     Fixtures.p_attr := fun _ _ => None;
     Fixtures.p_text := fun _ => "";
     Fixtures.p_target_items := fun _ => [];
     Fixtures.p_containers := [];
     Fixtures.p_snapshot := [];
     Fixtures.p_siblings := fun _ => [];
     Fixtures.p_clickables := [] |}.

Definition listing_view : PageView unit nat :=
  {| view := Fixtures.static_view listing_page;
     goto := fun _ _ => ret tt;
     load_state := fun _ _ => ret tt;
     query_all := fun sel =>
       ret (if (sel =? "text=" +++ dq +++ "ABC Institute" +++ dq)%string
            then [1] else []);
     text_content := fun _ => ret None;
     page_text := fun _ => ret None;
     page_url := fun _ => url;
     js_is_enabled := fun _ => ret true |}.

End WalkFixtures.

(* ------------------------------------------------------------------ *)
(** ** The retry loop of the per-provider save *)

Module Saving.
Import PyStr Dom.

(** What the loop looks at in the CSV it has read back. *)
Record existing_csv : Type := mkExisting
  { e_empty : bool; e_has_name : bool; e_names : list string }.

(** The file operations of the loop.  Each may raise; [write_temp]
    stands for the update or the concatenation of the frame followed by
    its export to the temporary file, [replace_csv] for the removal of
    the old file followed by the move of the temporary one. *)
Record FileView (W : Type) : Type := mkFileView
  { isfile : M W bool;
    write_csv : M W unit;
    read_csv : M W existing_csv;
    write_temp : bool -> M W unit;
    temp_exists : M W bool;
    replace_csv : M W unit;
    write_provider_csv : string -> M W unit }.

Arguments isfile {W} _ _.
Arguments write_csv {W} _ _.
Arguments read_csv {W} _ _.
Arguments write_temp {W} _ _ _.
Arguments temp_exists {W} _ _.
Arguments replace_csv {W} _ _.
Arguments write_provider_csv {W} _ _ _.

(** What one turn of the loop does to its two variables: [saved] is set,
    [retry_count] is incremented, or neither. *)
Inductive turn : Type := Saved | Counted | Unchanged.

Definition max_retries : nat := 5.

Section WithFiles.
Context {W : Type} (fv : FileView W).

(** The provider-specific file, written when the CSV cannot be used. *)
Definition save_aside (name : string) (w : W) : turn * W :=
  match write_provider_csv fv (Listing.provider_stem name) w with
  | (Ok _, w') => (Saved, w')
  | (Raised _, w') => (Counted, w')
  end.

(** One turn of the loop. *)
Definition save_attempt (name : string) (w : W) : turn * W :=
  match isfile fv w with
  | (Raised _, w1) => (Counted, w1)
  | (Ok false, w1) =>
      match write_csv fv w1 with
      | (Ok _, w2) => (Saved, w2)
      | (Raised _, w2) => (Counted, w2)
      end
  | (Ok true, w1) =>
      match read_csv fv w1 with
      | (Ok existing_df, w2) =>
          if negb (e_empty existing_df) && e_has_name existing_df then
            match write_temp fv (mem name (e_names existing_df)) w2 with
            | (Raised _, w3) => (Counted, w3)
            | (Ok _, w3) =>
                match temp_exists fv w3 with
                | (Raised _, w4) => (Counted, w4)
                | (Ok false, w4) => (Unchanged, w4)
                | (Ok true, w4) =>
                    match replace_csv fv w4 with
                    | (Ok _, w5) => (Saved, w5)
                    | (Raised _, w5) => (Unchanged, w5)
                    end
                end
            end
          else save_aside name w2
      | (Raised _, w2) => save_aside name w2
      end
  end.

(** [while retry_count < max_retries and not saved], run for at most
    [fuel] turns: the final [(saved, retry_count)], or nothing when the
    loop is still running. *)
Fixpoint save_loop (fuel : nat) (name : string) (retry_count : nat) (w : W)
  : option (bool * nat) * W :=
  if retry_count <? max_retries then
    match fuel with
    | O => (None, w)
    | S fuel' =>
        match save_attempt name w with
        | (Saved, w') => (Some (true, retry_count), w')
        | (Counted, w') => save_loop fuel' name (S retry_count) w'
        | (Unchanged, w') => save_loop fuel' name retry_count w'
        end
    end
  else (Some (false, retry_count), w).

End WithFiles.

(** A directory in which the CSV exists and can be read, the temporary
    file is written, and the move onto the CSV always fails. *)
Definition locked_files : FileView unit :=
  {| isfile := ret true;
     write_csv := ret tt;
     read_csv := ret (mkExisting false true ["ABC Institute"]);
     write_temp := fun _ => ret tt;
     temp_exists := ret true;
     replace_csv := raise "PermissionError";
     write_provider_csv := fun _ => ret tt |}.

(** A directory that cannot be written at all. *)
Definition read_only_files : FileView unit :=
  {| isfile := ret false;
     write_csv := raise "PermissionError";
     read_csv := raise "FileNotFoundError";
     write_temp := fun _ => raise "PermissionError";
     temp_exists := ret false;
     replace_csv := raise "PermissionError";
     write_provider_csv := fun _ => raise "PermissionError" |}.

End Saving.

(* ------------------------------------------------------------------ *)
(** ** The end of the run: the records before the final save *)

Module Closing.
Import PyStr Dict.

(** The loops that remove ['location'] from every record. *)
Definition drop_location (provider : dict string) : dict string :=
  del provider "location".

(** The clean-up of one detailed record before the final CSV is
    written: the legacy columns go, and a missing or empty programs
    field becomes "N/A". *)
Definition final_cleanup (provider : dict string) : dict string :=
  let d := del (del (del provider "programs_offered") "program_structure")
               "formatted_programs" in
  match get d "programs" with
  | Some programs => if (programs =? "")%string then set d "programs" "N/A" else d
  | None => set d "programs" "N/A"
  end.

End Closing.

(* ------------------------------------------------------------------ *)
(** ** The invariants the specification states *)

Module Spec.
Import PyStr Dict.

(** An item is non-empty and carries no surrounding whitespace. *)
Definition clean_item (s : string) : Prop := s <> "" /\ strip s = s.

(** Neither string contains the other, case-insensitively. *)
Definition unrelated (a b : string) : Prop :=
  contains (lower a) (lower b) = false /\ contains (lower b) (lower a) = false.

(** An item list as the data model wants it. *)
Definition items_ok (items : list string) : Prop :=
  Forall clean_item items /\ ForallOrdPairs unrelated items.

(** The invariant of ProgramStructure. *)
Definition well_formed (program_structure : dict (list string)) : Prop :=
  NoDup (keys program_structure)
  /\ Forall (fun entry => items_ok (snd entry)) program_structure.

(** The same without the containment rule. *)
Definition keyed_and_trimmed (program_structure : dict (list string)) : Prop :=
  NoDup (keys program_structure)
  /\ Forall (fun entry => Forall clean_item (snd entry)) program_structure.

(** A computation that leaves the document as it found it. *)
Definition stable {W A} (m : Dom.M W A) : Prop := forall w, snd (m w) = w.

(** A segment of the serialised field: non-empty, trimmed, and free of
    the separator character. *)
Definition segment (s : string) : Prop :=
  s <> "" /\ strip s = s /\ contains ";" s = false.

(** The segment the serialised field shows for one category. *)
Definition rendered (entry : string * list string) : string :=
  match Engine.filtered_subs (snd entry) with
  | [] => fst entry
  | subs => fst entry +++ " (" +++ join ", " subs +++ ")"
  end.

(** A computation that returns whatever the document does. *)
Definition total {W A} (m : Dom.M W A) : Prop :=
  forall w, exists a w', m w = (Dom.Ok a, w').

(** What holds of the candidates before a scan and still holds after
    it: nothing is removed or reordered, and no title occurs twice. *)
Definition grows {Elem} (before after : list (Engine.candidate Elem)) : Prop :=
  (exists ext, after = before ++ ext)
  /\ (NoDup (Engine.titles before) -> NoDup (Engine.titles after)).

(** The word sets of the title and of the item are not included in one
    another. *)
Definition distinct_from (main_title item : string) : Prop :=
  Harvest.word_overlap main_title item = false.

End Spec.

(* ------------------------------------------------------------------ *)
(** ** Shapes of what the engine returns *)

Module Shape.
Import PyStr.

(** An item as the container, snapshot and sibling paths of the harvest
    append it: trimmed, longer than two characters, on one line, and not
    noise. *)
Definition harvested_item (s : string) : Prop :=
  strip s = s /\ 2 < String.length s
  /\ Noise.is_nav_element s = false /\ contains nl s = false.

(** A title as the selector families of the discovery record it. *)
Definition heading_title (s : string) : Prop :=
  strip s = s /\ 1 < String.length s.

(** A candidate of the clickable-element scan comes from an entry of the
    script's answer that carries an id selector. *)
Definition reacquired_from {Elem} (items : list Dom.clickable)
    (c : Engine.candidate Elem) : Prop :=
  exists item, In item items /\ Dom.truthy (Dom.k_selector item) = true
               /\ Engine.title c = Dom.k_text item.

(** Every candidate carries a title of that form. *)
Definition titled {Elem} (main_programs : list (Engine.candidate Elem)) : Prop :=
  Forall (fun c => heading_title (Engine.title c)) main_programs.

(** A sub-program that counts as an occurrence of [x]. *)
Definition counted (sub x : string) : bool :=
  negb (sub =? "")%string && negb (strip sub =? "")%string && (strip sub =? x)%string.

(** The body of the loop that counts duplicates. *)
Definition count_step (duplicate_count : Dict.dict nat) (sub : string)
  : Dict.dict nat :=
  if negb (sub =? "")%string && negb (strip sub =? "")%string
  then Dict.set duplicate_count (strip sub)
           (match Dict.get duplicate_count (strip sub) with
            | Some n => n | None => 0 end + 1)
  else duplicate_count.

(** How often [x] occurs among the trimmed sub-programs that are not
    blank. *)
Definition occurrences (x : string) (sub_programs : list string) : nat :=
  List.length
    (filter (fun sub => negb (sub =? "")%string && negb (strip sub =? "")%string
                        && (strip sub =? x)%string)
            sub_programs).

(** An entry of the structure read off the flattened text. *)
Definition text_entry (entry : string * list string) : Prop :=
  endswith_char (fst entry) ":" = false
  /\ Forall (fun item => Engine.is_main_program item = false
                         /\ Spec.clean_item item) (snd entry).

(** The keys the programs code of a record reads or writes. *)
Definition programs_key (k : string) : Prop :=
  k = "programs" \/ k = "programs_offered" \/ k = "formatted_programs"
  \/ k = "program_structure".

(** [c] went through the filters of the clean-up loop as the cleaned form
    of one of the sub-programs. *)
Definition accepted_from (main_title : string) (sub_programs : list string)
    (c : string) : Prop :=
  exists sub, In sub sub_programs
              /\ Engine.accept_sub main_title
                   (Engine.repeated_elements sub_programs) sub = Some c.

End Shape.

(* ------------------------------------------------------------------ *)
(** ** Runs of the loops, told step by step *)

Module Laws.
Import PyStr Dom.

(** *** Keeping first occurrences *)

(** Of the entries of [l], in their order, those whose key is neither in
    [seen] nor the key of an earlier entry of [l]. *)
Fixpoint first_new {A} (key : A -> string) (seen : list string) (l : list A)
  : list A :=
  match l with
  | [] => []
  | x :: rest =>
      if mem (key x) seen then first_new key seen rest
      else x :: first_new key (key x :: seen) rest
  end.

(** A piece of the programs field mentions a word of the save-time
    navigation list, whatever the letter case. *)
Definition mentions_navigation (piece : string) : Prop :=
  exists nav, In nav Engine.save_nav_elements
              /\ contains (lower nav) (lower piece) = true.

(** The pieces of a programs field that the save keeps: trimmed, not
    empty, free of navigation words, each once. *)
Definition surviving (pieces : list string) : list string :=
  first_new (fun piece => piece) []
    (filter (fun piece => negb (piece =? "")%string
                          && negb (Engine.has_save_nav piece))
            (map strip pieces)).

(** *** Probing a list of selectors *)

Section Probes.
Context {W Elem : Type} (probe : string -> M W (option Elem)).

(** Every probe, in order, found nothing or raised, and the next probe
    was made all the same. *)
Inductive all_miss : list string -> W -> W -> Prop :=
| all_miss_nil : forall w, all_miss [] w w
| all_miss_none : forall sel rest w w1 w',
    probe sel w = (Ok None, w1) -> all_miss rest w1 w' ->
    all_miss (sel :: rest) w w'
| all_miss_raised : forall sel rest e w w1 w',
    probe sel w = (Raised e, w1) -> all_miss rest w1 w' ->
    all_miss (sel :: rest) w w'.

(** The probes before the one that found [el] found nothing or raised. *)
Inductive first_hit : list string -> W -> Elem -> W -> Prop :=
| first_hit_here : forall sel rest w el w',
    probe sel w = (Ok (Some el), w') -> first_hit (sel :: rest) w el w'
| first_hit_none : forall sel rest w w1 el w',
    probe sel w = (Ok None, w1) -> first_hit rest w1 el w' ->
    first_hit (sel :: rest) w el w'
| first_hit_raised : forall sel rest e w w1 el w',
    probe sel w = (Raised e, w1) -> first_hit rest w1 el w' ->
    first_hit (sel :: rest) w el w'.

(** Every probe, in order, returned and found nothing. *)
Inductive none_found : list string -> W -> W -> Prop :=
| none_found_nil : forall w, none_found [] w w
| none_found_cons : forall sel rest w w1 w',
    probe sel w = (Ok None, w1) -> none_found rest w1 w' ->
    none_found (sel :: rest) w w'.

(** The probes before the one that found [el] returned and found
    nothing. *)
Inductive found_first : list string -> W -> Elem -> W -> Prop :=
| found_first_here : forall sel rest w el w',
    probe sel w = (Ok (Some el), w') -> found_first (sel :: rest) w el w'
| found_first_later : forall sel rest w w1 el w',
    probe sel w = (Ok None, w1) -> found_first rest w1 el w' ->
    found_first (sel :: rest) w el w'.

(** The probes before the one that raised [e] returned and found
    nothing. *)
Inductive broke_off : list string -> W -> exn -> W -> Prop :=
| broke_off_here : forall sel rest w e w',
    probe sel w = (Raised e, w') -> broke_off (sel :: rest) w e w'
| broke_off_later : forall sel rest w w1 e w',
    probe sel w = (Ok None, w1) -> broke_off rest w1 e w' ->
    broke_off (sel :: rest) w e w'.

End Probes.

Section Locating.
Context {W Elem : Type} (dv : DocumentView W Elem).

(** The probe of the trigger stage of the locator. *)
Definition trigger_probe (selector : string) : M W (option Elem) :=
  wait_for_selector dv selector 3000 "attached".

(** The stage that expands the trigger and looks for its content gave
    no container: it found none, or one of its calls raised. *)
Definition unresolved (element : Elem) (w w' : W) : Prop :=
  Locator.expand_and_resolve dv element w = (Ok None, w')
  \/ exists e, Locator.expand_and_resolve dv element w = (Raised e, w').

End Locating.

(** *** Reading the headers of one selector family *)

Section Reading.
Context {W Elem : Type} (dv : DocumentView W Elem).

(** The texts of the elements, read in order up to the first read that
    raises; the boolean tells whether every read returned. *)
Fixpoint read_texts (els : list Elem) (w : W)
  : (list (Elem * string) * bool) * W :=
  match els with
  | [] => (([], true), w)
  | el :: rest =>
      match inner_text dv el w with
      | (Ok text, w1) =>
          let '((reads, complete), w') := read_texts rest w1 in
          (((el, text) :: reads, complete), w')
      | (Raised _, w1) => (([], false), w1)
      end
  end.

(** The families run one after the other, each to its end, whatever
    they find. *)
Fixpoint try_families (content : Elem) (selectors : list string)
    (main_programs : list (Engine.candidate Elem)) (w : W)
  : list (Engine.candidate Elem) * W :=
  match selectors with
  | [] => (main_programs, w)
  | selector :: rest =>
      try_families content rest
        (fst (fst (Engine.scan_family dv content selector main_programs w)))
        (snd (Engine.scan_family dv content selector main_programs w))
  end.

(** The titles of the candidates whose harvest returned, in the order
    of the candidates. *)
Fixpoint returned_titles (main_programs : list (Engine.candidate Elem)) (w : W)
  : list string :=
  match main_programs with
  | [] => []
  | main_program :: rest =>
      match Harvest.click_and_extract_subprograms dv
              (Engine.element main_program) (Engine.title main_program) w with
      | (Ok _, w') => Engine.title main_program :: returned_titles rest w'
      | (Raised _, w') => returned_titles rest w'
      end
  end.

End Reading.

(** The candidate a read offers: the trimmed text, when the text has
    more than one character once trimmed. *)
Definition offered {Elem} (reads : list (Elem * string))
  : list (Engine.candidate Elem) :=
  flat_map (fun r : Elem * string =>
              if negb (snd r =? "")%string && (1 <? String.length (strip (snd r)))
              then [Engine.mkCandidate (strip (snd r)) (fst r)] else [])
           reads.

(** *** A header that opens on a click and stays open *)

Record expanding_header {W Elem} (dv : DocumentView W Elem) (element : Elem)
  : Prop :=
  { eh_click : forall w, exists w', click dv element w = (Ok tt, w');
    eh_once : forall w,
      snd (click dv element (snd (click dv element w)))
      = snd (click dv element w);
    eh_show : forall id w,
      snd (js_show dv id (snd (click dv element w))) = snd (click dv element w);
    eh_timeout : forall n w, wait_for_timeout dv n w = (Ok tt, w);
    eh_texts : forall w, exists texts, js_visible_texts dv w = (Ok texts, w);
    eh_attr : forall s, Spec.stable (get_attribute dv element s);
    eh_query : forall s, Spec.stable (query_selector dv s);
    eh_target_items : forall s, Spec.stable (js_target_items dv s);
    eh_containers : Spec.stable (js_containers dv);
    eh_snapshot : Spec.stable (js_snapshot dv);
    eh_siblings : Spec.stable (js_sibling_items dv element) }.

(** *** The selectors tried inside a card *)

Section CardReads.
Context {W Elem : Type} (cv : Card.CardView W Elem) (handle : Elem).

(** A selector that gives no value: its query raises or finds nothing,
    or the text of the element found raises or is blank. *)
Definition gives_nothing (selector : string) (w w' : W) : Prop :=
  (exists e, Card.query_in cv handle selector w = (Raised e, w'))
  \/ Card.query_in cv handle selector w = (Ok None, w')
  \/ exists el w1,
       Card.query_in cv handle selector w = (Ok (Some el), w1)
       /\ ((exists e, inner_text (Card.page cv) el w1 = (Raised e, w'))
           \/ exists text, inner_text (Card.page cv) el w1 = (Ok text, w')
                           /\ strip text = "").

Inductive nothing_read : list string -> W -> W -> Prop :=
| nothing_read_nil : forall w, nothing_read [] w w
| nothing_read_cons : forall sel rest w w1 w',
    gives_nothing sel w w1 -> nothing_read rest w1 w' ->
    nothing_read (sel :: rest) w w'.

(** [v] is the trimmed text of the element the first selector with a
    value finds. *)
Inductive read_from : list string -> W -> string -> W -> Prop :=
| read_from_here : forall sel rest w el w1 text w',
    Card.query_in cv handle sel w = (Ok (Some el), w1) ->
    inner_text (Card.page cv) el w1 = (Ok text, w') ->
    strip text <> "" ->
    read_from (sel :: rest) w (strip text) w'
| read_from_later : forall sel rest w w1 v w',
    gives_nothing sel w w1 -> read_from rest w1 v w' ->
    read_from (sel :: rest) w v w'.

End CardReads.

(** *** The clicks of a run *)

Section Logged.
Context {W Elem : Type}.

(** A call on the document, seen from a document that carries a log of
    the elements clicked with success. *)
Definition lift {A} (m : M W A) : M (W * list Elem) A :=
  fun s => (fst (m (fst s)), (snd (m (fst s)), snd s)).

Definition log_click (click : Elem -> M W unit) (el : Elem)
  : M (W * list Elem) unit :=
  fun s =>
    match click el (fst s) with
    | (Ok u, w') => (Ok u, (w', snd s ++ [el]))
    | (Raised e, w') => (Raised e, (w', snd s))
    end.

Definition logged_view (dv : DocumentView W Elem)
  : DocumentView (W * list Elem) Elem :=
  {| wait_for_load_state := fun s => lift (wait_for_load_state dv s);
     wait_for_timeout := fun n => lift (wait_for_timeout dv n);
     wait_for_selector := fun s n t => lift (wait_for_selector dv s n t);
     query_selector := fun s => lift (query_selector dv s);
     query_selector_all := fun e s => lift (query_selector_all dv e s);
     get_attribute := fun e s => lift (get_attribute dv e s);
     inner_text := fun e => lift (inner_text dv e);
     click := log_click (click dv);
     is_visible := fun e => lift (is_visible dv e);
     js_click := fun e => lift (js_click dv e);
     js_show_expanded := fun s => lift (js_show_expanded dv s);
     js_show := fun s => lift (js_show dv s);
     js_has_content := fun e => lift (js_has_content dv e);
     js_visible_texts := lift (js_visible_texts dv);
     js_target_items := fun s => lift (js_target_items dv s);
     js_containers := lift (js_containers dv);
     js_snapshot := lift (js_snapshot dv);
     js_sibling_items := fun e => lift (js_sibling_items dv e);
     js_clickable_elements := lift (js_clickable_elements dv) |}.

Definition logged_page (pv : Walk.PageView W Elem)
  : Walk.PageView (W * list Elem) Elem :=
  {| Walk.view := logged_view (Walk.view pv);
     Walk.goto := fun u t => lift (Walk.goto pv u t);
     Walk.load_state := fun s n => lift (Walk.load_state pv s n);
     Walk.query_all := fun s => lift (Walk.query_all pv s);
     Walk.text_content := fun e => lift (Walk.text_content pv e);
     Walk.page_text := fun s => lift (Walk.page_text pv s);
     Walk.page_url := fun s => Walk.page_url pv (fst s);
     Walk.js_is_enabled := fun e => lift (Walk.js_is_enabled pv e) |}.

End Logged.

End Laws.

(* ------------------------------------------------------------------ *)
(** ** Further concrete documents *)

Module Cases.
Import PyStr Dom Fixtures.

(** The first trigger selector matches element 1, a link to [#po]; the
    element with that id is 2. *)
Definition accordion_page : page :=
  {| p_loads := true;
     p_wait := fun sel =>
       if (sel =? hd "" (Locator.selectors "Programs Offered"))%string then Some 1
       else if (sel =? "#po, div[id=" +++ dq +++ "po" +++ dq +++ "]")%string
       then Some 2 else None;
     p_query := fun _ => None;
     p_query_all := fun _ _ => [];
     p_attr := fun e name =>
       if (e =? 1) && (name =? "href")%string then Some "#po" else None;
     p_text := fun _ => "";
     p_target_items := fun _ => [];
     p_containers := [];
     p_snapshot := [];
     p_siblings := fun _ => [];
     p_clickables := [] |}.

(** Container 0 holds three [h3] elements; the third repeats the title
    of the first. *)
Definition catalogue_page : page :=
  {| p_loads := true;
     p_wait := fun _ => None;
     p_query := fun _ => None;
     p_query_all := fun e sel =>
       if (e =? 0) && (sel =? "h3")%string then [1; 2; 3] else [];
     p_attr := fun _ _ => None;
     p_text := fun e =>
       match e with
       | 1 => "Business" | 2 => " Technology " | 3 => "Business" | _ => ""
       end;
     p_target_items := fun _ => [];
     p_containers := [];
     p_snapshot := [];
     p_siblings := fun _ => [];
     p_clickables := [] |}.

(** No selector family matches; of the three clickable elements none
    carries an id: the first has a class and a tag name, the second a
    tag name, the third neither. *)
Definition buttons_page : page :=
  {| p_loads := true;
     p_wait := fun _ => Some 4;
     p_query := fun _ => None;
     p_query_all := fun _ _ => [];
     p_attr := fun _ _ => None;
     p_text := fun _ => "";
     p_target_items := fun _ => [];
     p_containers := [];
     p_snapshot := [];
     p_siblings := fun _ => [];
     p_clickables :=
       [ mkClickable "Business" None "btn btn-link" "BUTTON" 0;
         mkClickable "Health" None "" "A" 2;
         mkClickable "Arts" None "" "" 0 ] |}.

(** A header [h4] "Business" without target reference, followed by a
    list of two items that a click on the header shows and that stays
    shown, and by a paragraph that is always visible.  The state is
    whether the list is shown. *)
Definition opening_view : DocumentView bool nat :=
  let items := ["Item1"; "Item2"] in
  {| wait_for_load_state := fun _ => ret tt;
     wait_for_timeout := fun _ => ret tt;
     wait_for_selector := fun _ _ _ => raise "TimeoutError";
     query_selector := fun _ => ret None;
     query_selector_all := fun _ _ => ret [];
     get_attribute := fun _ _ => ret None;
     inner_text := fun _ => ret "Business";
     click := fun _ _ => (Ok tt, true);
     is_visible := fun _ => ret true;
     js_click := fun _ _ => (Ok tt, true);
     js_show_expanded := fun _ => ret tt;
     js_show := fun _ => ret tt;
     js_has_content := fun _ => ret false;
     js_visible_texts := ret [];
     js_target_items := fun _ => ret [];
     js_containers := fun shown =>
       (Ok (if shown then [mkContainer CList items] else []), shown);
     js_snapshot := fun shown =>
       (Ok ([mkSnapshot "Business" false false]
            ++ (if shown
                then map (fun t => mkSnapshot t true false) items else [])
            ++ [mkSnapshot "Accredited by KHDA" false true]),
        shown);
     js_sibling_items := fun _ => ret items;
     js_clickable_elements := ret [] |}.

(** A directory in which the CSV exists but is empty. *)
Definition empty_csv_files : Saving.FileView unit :=
  {| Saving.isfile := ret true;
     Saving.write_csv := ret tt;
     Saving.read_csv := ret (Saving.mkExisting true false []);
     Saving.write_temp := fun _ => ret tt;
     Saving.temp_exists := ret true;
     Saving.replace_csv := raise "PermissionError";
     Saving.write_provider_csv := fun _ => ret tt |}.

End Cases.

(* ------------------------------------------------------------------ *)
(** ** Facts about the string primitives and the dictionaries *)

Module Facts.
Import PyStr Dict Spec.

(** *** The primitives on small inputs *)

Example strip_both_sides : strip "  a b  " = "a b".
Proof. reflexivity. Qed.

Example split_ws_runs : split_ws "  Diploma in   IT " = ["Diploma"; "in"; "IT"].
Proof. reflexivity. Qed.

Example split_on_keeps_empty : split_on ";" "a;b; c;" = ["a"; "b"; " c"; ""].
Proof. reflexivity. Qed.

Example contains_is_substring :
  contains "manage" "project management" = true
  /\ contains "" "x" = true
  /\ contains "xy" "x" = false.
Proof. repeat split. Qed.

Example lower_keeps_digits : lower "Item 1 (NEW)" = "item 1 (new)".
Proof. reflexivity. Qed.

Example date_is_found :
  Re.search Engine.re_date "starts 12/05/2024 at noon" = true
  /\ Re.search Engine.re_date "Level 12 Diploma" = false.
Proof. split; vm_compute; reflexivity. Qed.

Example numbered_line_is_header :
  Engine.is_main_program "1. business courses" = true
  /\ Engine.is_main_program "diploma in accounting" = false
  /\ Engine.is_main_program "Business:" = true.
Proof. repeat split; vm_compute; reflexivity. Qed.

Lemma rstrip_idem : forall s, rstrip (rstrip s) = rstrip s.
Proof.
  induction s as [|c r IH]; simpl; [reflexivity|].
  destruct (rstrip r) as [|d r'] eqn:E.
  - destruct (isspace c) eqn:Hc; simpl; [reflexivity|].
    rewrite Hc. reflexivity.
  - change (rstrip (String c (String d r')) = String c (String d r')).
    change (rstrip (String c (String d r')))
      with (match rstrip (String d r') with
            | EmptyString => if isspace c then EmptyString else String c EmptyString
            | x => String c x
            end).
    rewrite IH. reflexivity.
Qed.

Lemma lstrip_head : forall s,
  lstrip s = "" \/ exists c r, lstrip s = String c r /\ isspace c = false.
Proof.
  induction s as [|c r IH]; simpl; [now left|].
  destruct (isspace c) eqn:Hc; [exact IH|].
  right. exists c, r. split; [reflexivity | exact Hc].
Qed.

Lemma rstrip_head : forall c r, isspace c = false ->
  exists r', rstrip (String c r) = String c r'.
Proof.
  intros c r Hc. simpl. destruct (rstrip r) as [|d r'].
  - rewrite Hc. now exists "".
  - now exists (String d r').
Qed.

Lemma strip_idem : forall s, strip (strip s) = strip s.
Proof.
  intros s. unfold strip.
  destruct (lstrip_head s) as [E | (c & r & E & Hc)]; rewrite E.
  - reflexivity.
  - destruct (rstrip_head c r Hc) as [r' Er]. rewrite Er.
    simpl lstrip. rewrite Hc. rewrite <- Er. apply rstrip_idem.
Qed.

Lemma length_nonempty : forall s n, (String.length s <? S n) = false -> s <> "".
Proof.
  intros s n H E. subst s. simpl in H. discriminate.
Qed.

Lemma length_pos : forall s, s <> "" -> (0 <? String.length s) = true.
Proof. intros [|c r] H; [congruence | reflexivity]. Qed.

Lemma eqb_false_nonempty : forall s, negb (s =? "")%string = true -> s <> "".
Proof.
  intros s H E. subst s. discriminate.
Qed.

(** *** Folds *)

Lemma fold_left_invariant {A B} (P : A -> Prop) (Q : B -> Prop) (f : A -> B -> A) :
  (forall acc x, Q x -> P acc -> P (f acc x)) ->
  forall l init, Forall Q l -> P init -> P (fold_left f l init).
Proof.
  intros Hstep l. induction l as [|x l IH]; intros init HQ HP; simpl.
  - exact HP.
  - inversion HQ; subst. apply IH; auto.
Qed.

Lemma Forall_trivial {A} (l : list A) : Forall (fun _ => True) l.
Proof. induction l; constructor; auto. Qed.

Lemma ForallOrdPairs_snoc {A} (R : A -> A -> Prop) (l : list A) (c : A) :
  ForallOrdPairs R l -> Forall (fun a => R a c) l -> ForallOrdPairs R (l ++ [c]).
Proof.
  induction 1 as [|a l Ha Hl IH]; intros Hc; simpl.
  - constructor; constructor.
  - inversion Hc; subst. constructor.
    + apply Forall_app. split; [exact Ha | constructor; [assumption | constructor]].
    + apply IH. assumption.
Qed.

(** *** Dictionaries *)

Lemma get_set_same {V} (d : dict V) k v : get (set d k v) k = Some v.
Proof.
  induction d as [|[k' v'] r IH]; simpl.
  - now rewrite String.eqb_refl.
  - destruct (k' =? k)%string eqn:E; simpl.
    + now rewrite String.eqb_refl.
    + now rewrite E.
Qed.

Lemma get_set_other {V} (d : dict V) k k' v :
  k <> k' -> get (set d k v) k' = get d k'.
Proof.
  intros Hne. induction d as [|[k0 v0] r IH]; simpl.
  - apply String.eqb_neq in Hne. now rewrite Hne.
  - destruct (k0 =? k)%string eqn:E; simpl.
    + apply String.eqb_eq in E. subst k0.
      apply String.eqb_neq in Hne. now rewrite Hne.
    + destruct (k0 =? k')%string; auto.
Qed.

Lemma get_del_other {V} (d : dict V) k k' :
  k <> k' -> get (del d k) k' = get d k'.
Proof.
  intros Hne. induction d as [|[k0 v0] r IH]; simpl; [reflexivity|].
  destruct (k0 =? k)%string eqn:E; simpl.
  - apply String.eqb_eq in E. subst k0.
    apply String.eqb_neq in Hne. now rewrite Hne.
  - destruct (k0 =? k')%string; auto.
Qed.

Lemma in_keys_set {V} (d : dict V) k v x :
  In x (keys (set d k v)) -> x = k \/ In x (keys d).
Proof.
  induction d as [|[k0 v0] r IH]; simpl.
  - intros [E | []]. now left.
  - destruct (k0 =? k)%string eqn:E; simpl.
    + intros [H | H]; [now left | right; now right].
    + intros [H | H]; [right; now left|].
      destruct (IH H); [now left | right; now right].
Qed.

Lemma keys_set_nodup {V} (d : dict V) k v :
  NoDup (keys d) -> NoDup (keys (set d k v)).
Proof.
  induction d as [|[k0 v0] r IH]; simpl; intros H.
  - constructor; [intros [] | constructor].
  - inversion H as [|? ? Hnin Hr]; subst.
    destruct (k0 =? k)%string eqn:E; simpl.
    + apply String.eqb_eq in E. subst k0. constructor; assumption.
    + constructor; [|apply IH; assumption].
      intros Hin. apply in_keys_set in Hin. destruct Hin as [Hk | Hin].
      * subst k0. rewrite String.eqb_refl in E. discriminate.
      * contradiction.
Qed.

Lemma forall_set {V} (P : string * V -> Prop) (d : dict V) k v :
  P (k, v) -> Forall P d -> Forall P (set d k v).
Proof.
  intros Hv. induction d as [|[k0 v0] r IH]; simpl; intros H.
  - constructor; [assumption | constructor].
  - inversion H; subst. destruct (k0 =? k)%string; constructor; auto.
Qed.

End Facts.

(* ------------------------------------------------------------------ *)
(** ** The clean-up loop and the invariant of the structure *)

Module Cleaning.
Import PyStr Dom Dict Engine Spec Facts.

Lemma shorten_clean : forall s c,
  s <> "" -> strip s = s -> shorten s = Some c -> clean_item c.
Proof.
  unfold shorten. intros s c Hne Hs H.
  destruct (100 <? String.length s).
  - match type of H with
    | (if ?b then _ else _) = _ => destruct b eqn:E; [|discriminate]
    end.
    apply andb_true_iff in E. destruct E as [E _].
    apply andb_true_iff in E. destruct E as [E1 _].
    inversion H; subst c. split.
    + now apply eqb_false_nonempty.
    + apply strip_idem.
  - inversion H; subst c. now split.
Qed.

(** What the filters of the loop let through is a clean item. *)
Lemma accept_sub_clean : forall main_title repeated sub c,
  accept_sub main_title repeated sub = Some c -> clean_item c.
Proof.
  unfold accept_sub. intros main_title repeated sub c H.
  destruct ((sub =? "")%string || (String.length (strip sub) <? 3)) eqn:E;
    [discriminate|].
  apply orb_false_iff in E. destruct E as [_ E].
  repeat match type of H with
         | (if ?b then None else _) = Some _ => destruct b; [discriminate|]
         end.
  apply (shorten_clean (strip sub)); auto.
  - now apply (length_nonempty _ 2).
  - apply strip_idem.
Qed.

Lemma similar_exists_false : forall clean_subs c,
  Forall clean_item clean_subs -> c <> "" ->
  similar_exists clean_subs c = false ->
  Forall (fun a => unrelated a c) clean_subs.
Proof.
  unfold similar_exists. intros clean_subs c Hcl Hc.
  induction Hcl as [|a l [Ha _] Hl IH]; simpl; intros H; [constructor|].
  apply orb_false_iff in H. destruct H as [H1 H2].
  constructor; [|apply IH; exact H2].
  rewrite (length_pos a Ha), (length_pos c Hc) in H1. simpl in H1.
  apply orb_false_iff in H1. exact H1.
Qed.

Lemma dedup_add_ok : forall clean_subs c,
  clean_item c -> items_ok clean_subs -> items_ok (dedup_add clean_subs c).
Proof.
  unfold dedup_add. intros clean_subs c Hc [Hcl Hpairs].
  destruct (negb (c =? "")%string && negb (similar_exists clean_subs c)
            && negb (mem c clean_subs)) eqn:E; [|now split].
  apply andb_true_iff in E. destruct E as [E _].
  apply andb_true_iff in E. destruct E as [_ E].
  apply negb_true_iff in E. split.
  - apply Forall_app. split; [exact Hcl | constructor; [exact Hc | constructor]].
  - apply ForallOrdPairs_snoc; [exact Hpairs|].
    apply similar_exists_false; [exact Hcl | apply Hc | exact E].
Qed.

Lemma clean_step_ok : forall main_title repeated clean_subs sub,
  items_ok clean_subs -> items_ok (clean_step main_title repeated clean_subs sub).
Proof.
  unfold clean_step. intros main_title repeated clean_subs sub H.
  destruct (accept_sub main_title repeated sub) as [c|] eqn:E; [|exact H].
  apply dedup_add_ok; [|exact H]. eapply accept_sub_clean; eassumption.
Qed.

(** The cleaned list of one category obeys the item invariant. *)
Lemma clean_subprograms_ok : forall main_title sub_programs,
  items_ok (clean_subprograms main_title sub_programs).
Proof.
  intros. unfold clean_subprograms.
  apply (fold_left_invariant items_ok (fun _ => True)).
  - intros acc x _ H. now apply clean_step_ok.
  - apply Forall_trivial.
  - split; constructor.
Qed.

Lemma items_ok_nil : items_ok [].
Proof. split; constructor. Qed.

Lemma well_formed_set : forall ps k v,
  items_ok v -> well_formed ps -> well_formed (set ps k v).
Proof.
  intros ps k v Hv [Hk Hi]. split.
  - now apply keys_set_nodup.
  - now apply forall_set.
Qed.

Section WithView.
Context {W Elem : Type} (dv : DocumentView W Elem).

Lemma process_main_program_ok : forall acc main_program w,
  well_formed (fst acc) ->
  well_formed (fst (fst (process_main_program dv acc main_program w))).
Proof.
  intros [ps flat] mp w H. unfold process_main_program.
  destruct (Harvest.click_and_extract_subprograms dv (element mp) (title mp) w)
    as [[[|s subs]|e] w']; simpl.
  - apply well_formed_set; [apply items_ok_nil | exact H].
  - apply well_formed_set; [apply clean_subprograms_ok | exact H].
  - exact H.
Qed.

Lemma process_main_programs_ok : forall main_programs acc w,
  well_formed (fst acc) ->
  well_formed (fst (fst (process_main_programs dv main_programs acc w))).
Proof.
  induction main_programs as [|mp rest IH]; intros acc w H; simpl.
  - exact H.
  - pose proof (process_main_program_ok acc mp w H) as H1.
    destruct (process_main_program dv acc mp w) as [acc' w'].
    apply IH. exact H1.
Qed.

End WithView.

(** *** The text fallback *)

Lemma well_formed_weaken : forall ps, well_formed ps -> keyed_and_trimmed ps.
Proof.
  intros ps [Hk Hi]. split; [exact Hk|].
  eapply Forall_impl; [|exact Hi]. intros e [H _]. exact H.
Qed.

Lemma keys_append_to : forall d key item, keys (append_to d key item) = keys d.
Proof.
  induction d as [|[k v] r IH]; intros; simpl; [reflexivity|].
  destruct (k =? key)%string; simpl; [reflexivity | now rewrite IH].
Qed.

Lemma forall_append_to : forall d key item,
  clean_item item ->
  Forall (fun entry => Forall clean_item (snd entry)) d ->
  Forall (fun entry => Forall clean_item (snd entry)) (append_to d key item).
Proof.
  intros d key item Hitem. induction d as [|[k v] r IH]; simpl; intros H.
  - constructor.
  - inversion H; subst. destruct (k =? key)%string; constructor; simpl in *; auto.
    apply Forall_app. split; [assumption | constructor; [exact Hitem | constructor]].
Qed.

Lemma text_lines_clean : forall content_text,
  Forall clean_item (text_lines content_text).
Proof.
  intros. unfold text_lines. apply Forall_forall. intros x Hx.
  apply in_map_iff in Hx. destruct Hx as (l & Hl & Hin).
  apply filter_In in Hin. destruct Hin as [_ Hne]. subst x. split.
  - now apply eqb_false_nonempty.
  - apply strip_idem.
Qed.

Lemma text_step_ok : forall st line,
  clean_item line -> keyed_and_trimmed (snd st) ->
  keyed_and_trimmed (snd (text_step st line)).
Proof.
  intros [current ps] line [Hne Hs] [Hk Hi]. unfold text_step.
  destruct (is_main_program line); simpl.
  - split; [now apply keys_set_nodup|].
    apply forall_set; [constructor | exact Hi].
  - destruct current as [current|]; simpl; [|now split].
    destruct (negb (current =? "")%string && negb (line =? "")%string);
      simpl; [|now split].
    split.
    + rewrite keys_append_to. exact Hk.
    + apply forall_append_to; [|exact Hi]. split; [now rewrite Hs | now rewrite Hs].
Qed.

Lemma parse_text_ok : forall content_text, keyed_and_trimmed (parse_text content_text).
Proof.
  intros. unfold parse_text.
  destruct (content_text =? "")%string.
  - split; constructor.
  - apply (fold_left_invariant (fun st => keyed_and_trimmed (snd st)) clean_item).
    + intros acc x Hx H. now apply text_step_ok.
    + apply text_lines_clean.
    + split; constructor.
Qed.

Lemma harvest_structure_ok {W Elem} (dv : DocumentView W Elem) : forall content w,
  well_formed (fst (fst (harvest_structure dv content w))).
Proof.
  intros content w. unfold harvest_structure.
  destruct (discover_categories dv content w) as [mps w1].
  apply process_main_programs_ok. split; constructor.
Qed.

Lemma extract_structure_harvested {W Elem} (dv : DocumentView W Elem) :
  forall content w,
  fst (fst (harvest_structure dv content w)) <> [] ->
  fst (fst (extract_structure dv content w))
  = fst (fst (harvest_structure dv content w)).
Proof.
  intros content w H. unfold extract_structure.
  destruct (harvest_structure dv content w) as [[[|p ps] flat] w2]; simpl in *.
  - congruence.
  - reflexivity.
Qed.

Lemma extract_structure_ok {W Elem} (dv : DocumentView W Elem) : forall content w,
  keyed_and_trimmed (fst (fst (extract_structure dv content w))).
Proof.
  intros content w. unfold extract_structure.
  pose proof (harvest_structure_ok dv content w) as H.
  destruct (harvest_structure dv content w) as [[ps flat] w2].
  simpl in H. destruct ps as [|p ps].
  - unfold text_fallback.
    destruct (inner_text dv content w2) as [[t|e] w3].
    + pose proof (parse_text_ok t) as Ht.
      destruct (flat ++ flatten (parse_text t)).
      * destruct (flat_fallback dv content flat_selectors [] w3). exact Ht.
      * exact Ht.
    + destruct flat.
      * destruct (flat_fallback dv content flat_selectors [] w3). split; constructor.
      * split; constructor.
  - apply well_formed_weaken. exact H.
Qed.

End Cleaning.

(** C1 (as the code has it): of two items that pass the filters of the
    clean-up loop, one of which contains the other case-insensitively,
    the loop keeps exactly one, and it is the one fed first, whatever
    the lengths. *)
Theorem clean_subprograms_keeps_first : forall main_title a b a' b',
  Engine.accept_sub main_title (Engine.repeated_elements [a; b]) a = Some a' ->
  Engine.accept_sub main_title (Engine.repeated_elements [a; b]) b = Some b' ->
  PyStr.contains (PyStr.lower a') (PyStr.lower b')
  || PyStr.contains (PyStr.lower b') (PyStr.lower a') = true ->
  Engine.clean_subprograms main_title [a; b] = [a'].
Proof.
  intros main_title a b a' b' Ha Hb Hsim.
  destruct (Cleaning.accept_sub_clean _ _ _ _ Ha) as [Ha' _].
  destruct (Cleaning.accept_sub_clean _ _ _ _ Hb) as [Hb' _].
  unfold Engine.clean_subprograms. cbn [fold_left].
  unfold Engine.clean_step at 2. rewrite Ha.
  assert (E1 : Engine.dedup_add [] a' = [a']).
  { unfold Engine.dedup_add. simpl.
    apply String.eqb_neq in Ha'. rewrite Ha'. reflexivity. }
  rewrite E1. unfold Engine.clean_step. rewrite Hb.
  unfold Engine.dedup_add, Engine.similar_exists. cbn [existsb].
  rewrite (Facts.length_pos _ Ha'), (Facts.length_pos _ Hb'), Hsim.
  simpl. rewrite andb_false_r. reflexivity.
Qed.

Lemma clean_subprograms_keeps_first_witness :
  Engine.clean_subprograms "Business"
    ["Project Management"; "Project Management Professional"]
  = ["Project Management"].
Proof.
  apply (clean_subprograms_keeps_first "Business"
           "Project Management" "Project Management Professional"
           "Project Management" "Project Management Professional").
  - vm_compute. reflexivity.
  - vm_compute. reflexivity.
  - vm_compute. reflexivity.
Defined.

Lemma longer_string_not_kept :
  Engine.clean_subprograms "Business"
    ["Project Management"; "Project Management Professional"]
  <> ["Project Management Professional"].
Proof. vm_compute. discriminate. Qed.

(** C2 (as the code has it): every structure the engine produces has
    unique category keys and only non-empty, trimmed items; when the
    structure comes from the harvest of discovered headers, every item
    list is moreover free of pairs where one item contains the other
    case-insensitively.  The text-fallback parser does not deduplicate. *)
Theorem program_structure_invariant :
  forall W Elem (dv : Dom.DocumentView W Elem) (content : Elem) (w : W),
  Spec.keyed_and_trimmed (fst (fst (Engine.extract_structure dv content w)))
  /\ Spec.well_formed (fst (fst (Engine.harvest_structure dv content w)))
  /\ (fst (fst (Engine.harvest_structure dv content w)) <> [] ->
      fst (fst (Engine.extract_structure dv content w))
      = fst (fst (Engine.harvest_structure dv content w))).
Proof.
  intros. split; [|split].
  - apply Cleaning.extract_structure_ok.
  - apply Cleaning.harvest_structure_ok.
  - apply Cleaning.extract_structure_harvested.
Qed.

Lemma program_structure_invariant_witness :
  fst (fst (Engine.extract_structure
              (Fixtures.static_view Fixtures.headings_page) 0 tt))
  = fst (fst (Engine.harvest_structure
                (Fixtures.static_view Fixtures.headings_page) 0 tt)).
Proof.
  destruct (program_structure_invariant unit nat
              (Fixtures.static_view Fixtures.headings_page) 0 tt) as (_ & _ & H).
  apply H. vm_compute. discriminate.
Defined.

Lemma text_fallback_keeps_duplicates :
  fst (fst (Engine.extract_structure
              (Fixtures.static_view Fixtures.plain_text_page) 0 tt))
  = [("Business", ["diploma in accounting"; "diploma in accounting"])]
  /\ ~ Spec.well_formed
         (fst (fst (Engine.extract_structure
                      (Fixtures.static_view Fixtures.plain_text_page) 0 tt))).
Proof.
  assert (E : fst (fst (Engine.extract_structure
                          (Fixtures.static_view Fixtures.plain_text_page) 0 tt))
              = [("Business", ["diploma in accounting"; "diploma in accounting"])])
    by (vm_compute; reflexivity).
  split; [exact E|]. rewrite E. intros [_ H].
  inversion H as [|x l [_ Hpairs] _]; subst.
  simpl in Hpairs. inversion Hpairs as [|a l' Ha _]; subst.
  inversion Ha as [|b l'' [Hc _] _]; subst.
  vm_compute in Hc. discriminate.
Qed.

(** C3: the noise predicate holds of the empty string, of "ab" and of
    "Home", and does not hold of "Diploma in Business Management". *)
Theorem is_nav_element_examples :
  Noise.is_nav_element "" = true /\
  Noise.is_nav_element "ab" = true /\
  Noise.is_nav_element "Home" = true /\
  Noise.is_nav_element "Diploma in Business Management" = false.
Proof. repeat split; vm_compute; reflexivity. Qed.

(* ------------------------------------------------------------------ *)
(** ** The serialised field and the save-time clean-up *)

Module Serialisation.
Import PyStr Dom Dict Engine Spec Facts.

Lemma format_step_rendered : forall acc entry,
  format_step acc entry = acc ++ [rendered entry].
Proof.
  intros acc [main_program subs]. unfold format_step, rendered. simpl.
  destruct subs as [|s subs]; [reflexivity|].
  destruct (filtered_subs (s :: subs)); reflexivity.
Qed.

Lemma fold_format_step : forall ps acc,
  fold_left format_step ps acc = acc ++ map rendered ps.
Proof.
  induction ps as [|e ps IH]; intros acc; simpl.
  - now rewrite app_nil_r.
  - rewrite IH, format_step_rendered, <- app_assoc. reflexivity.
Qed.

Lemma formatted_programs_map : forall ps, formatted_programs ps = map rendered ps.
Proof. intros. unfold formatted_programs. now rewrite fold_format_step. Qed.

(** *** Splitting a joined field *)

Lemma no_sep_head : forall c a r,
  contains (String c "") (String a r) = false ->
  Ascii.eqb a c = false /\ contains (String c "") r = false.
Proof.
  intros c a r H.
  change (contains (String c "") (String a r))
    with (Ascii.eqb c a && startswith r "" || contains (String c "") r) in H.
  apply orb_false_iff in H. destruct H as [H1 H2].
  assert (E : startswith r "" = true) by (destruct r; reflexivity).
  rewrite E, andb_true_r in H1. split; [|exact H2].
  rewrite Ascii.eqb_sym. exact H1.
Qed.

Lemma split_on_whole : forall c s,
  contains (String c "") s = false -> split_on c s = [s].
Proof.
  induction s as [|a r IH]; intros H; simpl; [reflexivity|].
  apply no_sep_head in H. destruct H as [Ha Hr].
  rewrite Ha, (IH Hr). reflexivity.
Qed.

Lemma split_on_append : forall c s rest,
  contains (String c "") s = false ->
  split_on c (s +++ String c rest) = s :: split_on c rest.
Proof.
  induction s as [|a r IH]; intros rest H; simpl.
  - now rewrite Ascii.eqb_refl.
  - apply no_sep_head in H. destruct H as [Ha Hr].
    rewrite Ha, (IH rest Hr). reflexivity.
Qed.

Lemma split_on_other : forall c a r,
  Ascii.eqb a c = false ->
  split_on c (String a r)
  = match split_on c r with
    | h :: t => String a h :: t
    | [] => [String a ""]
    end.
Proof. intros c a r H. simpl. rewrite H. reflexivity. Qed.

Lemma split_joined : forall s segs,
  Forall segment (s :: segs) ->
  split_on ";" (join "; " (s :: segs)) = s :: map (String " ") segs.
Proof.
  intros s segs. revert s. induction segs as [|s' segs IH]; intros s H.
  - inversion H as [|? ? (_ & _ & Hs) _]; subst. simpl.
    now apply split_on_whole.
  - inversion H as [|? ? (_ & _ & Hs) Hrest]; subst.
    change (join "; " (s :: s' :: segs))
      with (s +++ String ";" (String " " (join "; " (s' :: segs)))).
    rewrite split_on_append by exact Hs.
    rewrite split_on_other by reflexivity.
    rewrite (IH s' Hrest). reflexivity.
Qed.

Lemma strip_space : forall s, strip (String " " s) = strip s.
Proof. reflexivity. Qed.

Lemma mem_In : forall x l, mem x l = true <-> In x l.
Proof.
  intros x l. unfold mem. rewrite existsb_exists. split.
  - intros (y & Hy & E). apply String.eqb_eq in E. now subst.
  - intros H. exists x. split; [exact H | apply String.eqb_refl].
Qed.

(** The loop of the save step: what it keeps, for any list of pieces. *)
Lemma fold_save_step : forall l acc,
  NoDup acc ->
  NoDup (fold_left save_step l acc)
  /\ forall s, In s (fold_left save_step l acc)
               <-> In s acc
                   \/ (In s (map strip l) /\ s <> "" /\ has_save_nav s = false).
Proof.
  induction l as [|x l IH]; intros acc Hacc; simpl.
  - split; [exact Hacc|]. intros s. tauto.
  - unfold save_step at 2 4.
    destruct (has_save_nav (strip x)) eqn:Hn.
    + destruct (IH acc Hacc) as [Hd Hin]. split; [exact Hd|].
      intros s. rewrite Hin. split.
      * intros [H | (H1 & H2 & H3)]; [now left | right; auto].
      * intros [H | ([H1 | H1] & H2 & H3)];
          [now left | subst; congruence | right; auto].
    + destruct (strip x =? "")%string eqn:He; simpl.
      * apply String.eqb_eq in He.
        destruct (IH acc Hacc) as [Hd Hin]. split; [exact Hd|].
        intros s. rewrite Hin. split.
        -- intros [H | (H1 & H2 & H3)]; [now left | right; auto].
        -- intros [H | ([H1 | H1] & H2 & H3)];
             [now left | subst; congruence | right; auto].
      * destruct (mem (strip x) acc) eqn:Hm; simpl.
        -- apply mem_In in Hm.
           destruct (IH acc Hacc) as [Hd Hin]. split; [exact Hd|].
           intros s. rewrite Hin. split.
           ++ intros [H | (H1 & H2 & H3)]; [now left | right; auto].
           ++ intros [H | ([H1 | H1] & H2 & H3)];
                [now left | subst; now left | right; auto].
        -- assert (Hnin : ~ In (strip x) acc).
           { intros Hin. apply mem_In in Hin. congruence. }
           assert (Hacc' : NoDup (acc ++ [strip x])).
           { apply NoDup_app.
             - exact Hacc.
             - constructor; [intros [] | constructor].
             - intros y Hy [Hx | []]. subst. contradiction. }
           apply String.eqb_neq in He.
           destruct (IH (acc ++ [strip x]) Hacc') as [Hd Hin]. split; [exact Hd|].
           intros s. rewrite Hin, in_app_iff. simpl. split.
           ++ intros [[H | [H | []]] | (H1 & H2 & H3)].
              ** now left.
              ** subst. right. auto.
              ** right. auto.
           ++ intros [H | ([H1 | H1] & H2 & H3)].
              ** left. now left.
              ** subst. left. right. now left.
              ** right. auto.
Qed.

(** *** First occurrences *)

Lemma mem_same : forall x a b,
  (forall k, In k a <-> In k b) -> mem x a = mem x b.
Proof.
  intros x a b H. destruct (mem x a) eqn:Ea; destruct (mem x b) eqn:Eb;
    try reflexivity.
  - apply mem_In in Ea. apply H in Ea. apply mem_In in Ea. congruence.
  - apply mem_In in Eb. apply H in Eb. apply mem_In in Eb. congruence.
Qed.

Lemma first_new_seen {A} (key : A -> string) : forall l seen seen',
  (forall k, In k seen <-> In k seen') ->
  Laws.first_new key seen l = Laws.first_new key seen' l.
Proof.
  induction l as [|x l IH]; intros seen seen' H; simpl; [reflexivity|].
  rewrite (mem_same (key x) seen seen' H).
  destruct (mem (key x) seen').
  - now apply IH.
  - f_equal. apply IH. intros k. simpl. rewrite H. tauto.
Qed.

Lemma first_new_app {A} (key : A -> string) : forall a b seen,
  Laws.first_new key seen (a ++ b)
  = Laws.first_new key seen a
    ++ Laws.first_new key (seen ++ map key (Laws.first_new key seen a)) b.
Proof.
  induction a as [|x a IH]; intros b seen; simpl.
  - now rewrite app_nil_r.
  - destruct (mem (key x) seen) eqn:E.
    + apply IH.
    + simpl. f_equal. rewrite IH. f_equal. apply first_new_seen.
      intros k. simpl. rewrite !in_app_iff. simpl. tauto.
Qed.

Lemma first_new_in {A} (key : A -> string) : forall l seen x,
  In x (Laws.first_new key seen l) -> In x l /\ ~ In (key x) seen.
Proof.
  induction l as [|y l IH]; intros seen x H; simpl in H; [contradiction|].
  destruct (mem (key y) seen) eqn:E.
  - destruct (IH seen x H) as [H1 H2]. split; [now right | exact H2].
  - destruct H as [H | H].
    + subst y. split; [now left|]. intros Hin. apply mem_In in Hin. congruence.
    + destruct (IH _ x H) as [H1 H2]. split; [now right|].
      intros Hin. apply H2. now right.
Qed.

Lemma first_new_nodup {A} (key : A -> string) : forall l seen,
  NoDup (map key (Laws.first_new key seen l)).
Proof.
  induction l as [|y l IH]; intros seen; simpl; [constructor|].
  destruct (mem (key y) seen); [apply IH|].
  simpl. constructor; [|apply IH].
  intros Hin. apply in_map_iff in Hin. destruct Hin as (x & Hx & Hin).
  apply first_new_in in Hin. destruct Hin as [_ Hin]. apply Hin. now left.
Qed.

Lemma first_new_first {A} (key : A -> string) : forall pre seen x post,
  ~ In (key x) seen -> ~ In (key x) (map key pre) ->
  In x (Laws.first_new key seen (pre ++ x :: post)).
Proof.
  induction pre as [|y pre IH]; intros seen x post Hs Hp; simpl.
  - destruct (mem (key x) seen) eqn:E; [|now left].
    apply mem_In in E. contradiction.
  - simpl in Hp. destruct (mem (key y) seen).
    + apply IH; [exact Hs | tauto].
    + right. apply IH; [|tauto]. intros [H | H]; [|contradiction].
      apply Hp. now left.
Qed.

(** The loop of the save step keeps the first occurrences of the pieces
    that pass its two tests. *)
Lemma fold_save_step_first : forall l acc,
  fold_left save_step l acc
  = acc ++ Laws.first_new (fun piece => piece) acc
             (filter (fun piece => negb (piece =? "")%string
                                   && negb (has_save_nav piece))
                     (map strip l)).
Proof.
  induction l as [|x l IH]; intros acc; simpl.
  - now rewrite app_nil_r.
  - rewrite IH. unfold save_step.
    destruct (has_save_nav (strip x)) eqn:Hn.
    + rewrite andb_false_r. reflexivity.
    + rewrite andb_true_r.
      destruct (strip x =? "")%string eqn:He; simpl; [reflexivity|].
      destruct (mem (strip x) acc) eqn:Hm; simpl; [reflexivity|].
      rewrite <- app_assoc. simpl. do 2 f_equal. apply first_new_seen.
      intros k. rewrite in_app_iff. simpl. tauto.
Qed.

Lemma cleaned_programs_surviving : forall programs,
  cleaned_programs programs = Laws.surviving (split_on ";" programs).
Proof.
  intros. unfold cleaned_programs, Laws.surviving.
  now rewrite fold_save_step_first.
Qed.

Lemma has_save_nav_mentions : forall piece,
  has_save_nav piece = true <-> Laws.mentions_navigation piece.
Proof.
  intros piece. unfold has_save_nav, Laws.mentions_navigation.
  apply existsb_exists.
Qed.

Lemma filter_same {A} (f g : A -> bool) : forall l,
  (forall x, In x l -> f x = g x) -> filter f l = filter g l.
Proof.
  induction l as [|x l IH]; intros H; simpl; [reflexivity|].
  rewrite (H x (or_introl eq_refl)), IH; [reflexivity|].
  intros y Hy. apply H. now right.
Qed.

Lemma map_strip_segments : forall l, Forall segment l -> map strip l = l.
Proof.
  induction 1 as [|x l (_ & Hx & _) _ IH]; simpl; [reflexivity|].
  now rewrite Hx, IH.
Qed.

Lemma fold_save_step_spaces : forall segs acc,
  Forall segment segs ->
  fold_left save_step (map (String " ") segs) acc = fold_left save_step segs acc.
Proof.
  induction segs as [|s segs IH]; intros acc H; simpl; [reflexivity|].
  inversion H; subst. rewrite IH by assumption. reflexivity.
Qed.

Lemma cleaned_programs_joined : forall s segs,
  Forall segment (s :: segs) ->
  cleaned_programs (join "; " (s :: segs)) = fold_left save_step (s :: segs) [].
Proof.
  intros s segs H. unfold cleaned_programs. rewrite (split_joined s segs H).
  inversion H; subst. simpl. now apply fold_save_step_spaces.
Qed.

Lemma surviving_segments : forall s segs,
  Forall segment (s :: segs) ->
  Laws.surviving (split_on ";" (join "; " (s :: segs)))
  = Laws.first_new (fun seg => seg) []
      (filter (fun seg => negb (has_save_nav seg)) (s :: segs)).
Proof.
  intros s segs H.
  rewrite <- cleaned_programs_surviving, (cleaned_programs_joined s segs H).
  rewrite fold_save_step_first, (map_strip_segments _ H).
  rewrite app_nil_l. f_equal. apply filter_same. intros x Hx.
  rewrite Forall_forall in H. destruct (H x Hx) as (Hne & _).
  apply String.eqb_neq in Hne. now rewrite Hne.
Qed.

Lemma get_save_data_blank : forall dd,
  get dd "programs" = None \/ get dd "programs" = Some "" ->
  get (save_data dd) "programs" = get dd "programs".
Proof.
  intros dd H. unfold save_data.
  assert (E : get (del (del (del dd "programs_offered") "program_structure")
                       "formatted_programs") "programs" = get dd "programs").
  { do 3 (rewrite get_del_other by discriminate). reflexivity. }
  destruct H as [H | H]; rewrite H in E; rewrite E; [|simpl]; rewrite E;
    now rewrite H.
Qed.

Lemma joined_nonempty : forall s segs,
  s <> "" -> join "; " (s :: segs) <> "".
Proof.
  intros s segs Hs H. destruct s as [|c r]; [congruence|].
  destruct segs; simpl in H; discriminate.
Qed.

Lemma get_save_data : forall dd programs,
  programs <> "" -> get dd "programs" = Some programs ->
  get (save_data dd) "programs" = Some (clean_saved_programs programs).
Proof.
  intros dd programs Hne H. unfold save_data.
  assert (E : get (del (del (del dd "programs_offered") "program_structure")
                       "formatted_programs") "programs" = Some programs).
  { rewrite !get_del_other by discriminate. exact H. }
  rewrite E. apply String.eqb_neq in Hne. rewrite Hne.
  apply get_set_same.
Qed.

(** *** The field of a record with a structure *)

Lemma finalize_structured : forall dd ps flat,
  ps <> [] -> get (finalize dd ps flat) "programs" = Some (serialize ps).
Proof.
  intros dd ps flat H. unfold finalize.
  do 3 (rewrite get_del_other by discriminate).
  destruct ps; [congruence|]. apply get_set_same.
Qed.

(** *** The record when no accordion is found *)

Lemma finalize_not_found : forall dd,
  get dd "programs_offered" = None ->
  get (finalize dd [] []) "programs" = Some "N/A".
Proof.
  intros dd H. unfold finalize.
  do 3 (rewrite get_del_other by discriminate).
  destruct (has dd "programs").
  - rewrite H. apply get_set_same.
  - rewrite (get_set_other dd "programs" "programs_offered") by discriminate.
    rewrite H. apply get_set_same.
Qed.

End Serialisation.

(** C6: the programs field of a record with a non-empty structure is
    the join, with "; ", of one segment per category in order: the title
    followed by its filtered items, comma-joined in parentheses, when
    some item remains, and the bare title otherwise. *)
Theorem serialize_joins_segments : forall program_structure,
  program_structure <> [] ->
  (forall detailed_data flat_programs,
      Dict.get (Engine.finalize detailed_data program_structure flat_programs)
               "programs"
      = Some (PyStr.join "; " (map Spec.rendered program_structure)))
  /\ Engine.serialize program_structure
     = PyStr.join "; " (map Spec.rendered program_structure)
  /\ (forall title, Spec.rendered (title, []) = title)
  /\ (forall title subs s rest,
        Engine.filtered_subs subs = s :: rest ->
        Spec.rendered (title, subs)
        = title +++ " (" +++ PyStr.join ", " (s :: rest) +++ ")").
Proof.
  intros ps Hne.
  assert (E : Engine.serialize ps = PyStr.join "; " (map Spec.rendered ps)).
  { unfold Engine.serialize. rewrite Serialisation.formatted_programs_map.
    destruct ps; [congruence | reflexivity]. }
  split; [|split; [|split]].
  - intros dd flat. rewrite <- E. now apply Serialisation.finalize_structured.
  - exact E.
  - reflexivity.
  - intros title subs s rest H. unfold Spec.rendered. simpl fst. simpl snd.
    rewrite H. reflexivity.
Qed.

Lemma serialize_joins_segments_witness :
  Engine.serialize [("Business", ["Item1"; "Item2"]);
                    ("Technology", ["Item3"; "Item4"])]
  = "Business (Item1, Item2); Technology (Item3, Item4)".
Proof.
  destruct (serialize_joins_segments
              [("Business", ["Item1"; "Item2"]);
               ("Technology", ["Item3"; "Item4"])]) as (_ & E & _).
  - discriminate.
  - rewrite E. vm_compute. reflexivity.
Defined.

(** C7: when the locator returns nothing for "Programs Offered" (or its
    exception is caught by the caller), the record is produced without
    an exception, the document is not touched any further, and its
    programs field is "N/A". *)
Theorem not_found_gives_na :
  forall W Elem (dv : Dom.DocumentView W Elem) (detailed_data : Dict.dict string)
         (w w1 : W),
  Dict.get detailed_data "programs_offered" = None ->
  (Locator.click_and_expand_accordion dv "Programs Offered" w = (Dom.Ok None, w1)
   \/ exists e, Locator.click_and_expand_accordion dv "Programs Offered" w
                = (Dom.Raised e, w1)) ->
  exists record,
    Engine.locate_and_build dv detailed_data w = (Dom.Ok record, w1)
    /\ Dict.get record "programs" = Some "N/A".
Proof.
  intros W Elem dv dd w w1 Hdd H.
  exists (Engine.finalize dd [] []). split.
  - unfold Engine.locate_and_build.
    destruct H as [H | [e H]]; rewrite H; reflexivity.
  - now apply Serialisation.finalize_not_found.
Qed.

Lemma not_found_gives_na_witness :
  exists record,
    Engine.locate_and_build (Fixtures.static_view Fixtures.blank_page)
      (Engine.detail_record "Institute" "Dubai" "N/A" "N/A" "N/A" "N/A" "N/A") tt
    = (Dom.Ok record, tt)
    /\ Dict.get record "programs" = Some "N/A".
Proof.
  apply not_found_gives_na.
  - reflexivity.
  - left. vm_compute. reflexivity.
Defined.




(* ------------------------------------------------------------------ *)
(** ** The locator: which errors reach the caller *)

Module LocatorFacts.
Import PyStr Dom Locator Spec.

Section WithView.
Context {W Elem : Type} (dv : DocumentView W Elem).

Lemma total_ret {A} (a : A) : total (@ret W A a).
Proof. intros w. now exists a, w. Qed.

Lemma total_bind {A B} (m : M W A) (k : A -> M W B) :
  total m -> (forall a, total (k a)) -> total (bind m k).
Proof.
  intros Hm Hk w. unfold bind. destruct (Hm w) as (a & w' & E). rewrite E.
  apply Hk.
Qed.

Lemma total_try_catch {A} (m : M W A) (h : exn -> M W A) :
  (forall e, total (h e)) -> total (try_catch m h).
Proof.
  intros Hh w. unfold try_catch. destruct (m w) as [[a|e] w'].
  - now exists a, w'.
  - apply Hh.
Qed.

Lemma find_trigger_total : forall sels, total (find_trigger dv sels).
Proof.
  induction sels as [|sel rest IH]; simpl.
  - apply total_ret.
  - apply total_bind.
    + apply total_try_catch. intros e. apply total_ret.
    + intros [el|]; [apply total_ret | exact IH].
Qed.

Lemma raises_with_load : forall text w e w1,
  wait_for_load_state dv "networkidle" w = (Raised e, w1) ->
  click_and_expand_accordion dv text w = (Raised e, w1).
Proof.
  intros text w e w1 H. unfold click_and_expand_accordion, bind at 1.
  rewrite H. reflexivity.
Qed.

(** *** The probe loops, step by step *)

Lemma find_trigger_step : forall sel rest w,
  find_trigger dv (sel :: rest) w
  = match Laws.trigger_probe dv sel w with
    | (Ok (Some el), w1) => (Ok (Some el), w1)
    | (Ok None, w1) => find_trigger dv rest w1
    | (Raised _, w1) => find_trigger dv rest w1
    end.
Proof.
  intros. cbn [find_trigger]. unfold bind, try_catch, ret, Laws.trigger_probe.
  destruct (wait_for_selector dv sel 3000 "attached" w) as [[[el|]|e] w1];
    reflexivity.
Qed.

Lemma find_trigger_none : forall sels w w',
  find_trigger dv sels w = (Ok None, w')
  <-> Laws.all_miss (Laws.trigger_probe dv) sels w w'.
Proof.
  induction sels as [|sel rest IH]; intros w w'.
  - simpl. unfold ret. split.
    + intros H. inversion H; subst. constructor.
    + intros H. inversion H; subst. reflexivity.
  - rewrite find_trigger_step.
    destruct (Laws.trigger_probe dv sel w) as [[[el|]|e] w1] eqn:E.
    + split; [discriminate|]. intros H. inversion H; subst; congruence.
    + rewrite IH. split.
      * intros H. eapply Laws.all_miss_none; eassumption.
      * intros H. inversion H; subst; congruence.
    + rewrite IH. split.
      * intros H. eapply Laws.all_miss_raised; eassumption.
      * intros H. inversion H; subst; congruence.
Qed.

Lemma find_trigger_some : forall sels w el w',
  find_trigger dv sels w = (Ok (Some el), w')
  <-> Laws.first_hit (Laws.trigger_probe dv) sels w el w'.
Proof.
  induction sels as [|sel rest IH]; intros w el w'.
  - simpl. unfold ret. split; [discriminate | intros H; inversion H].
  - rewrite find_trigger_step.
    destruct (Laws.trigger_probe dv sel w) as [[[el0|]|e] w1] eqn:E.
    + split.
      * intros H. inversion H; subst. now apply Laws.first_hit_here.
      * intros H. inversion H; subst; congruence.
    + rewrite IH. split.
      * intros H. eapply Laws.first_hit_none; eassumption.
      * intros H. inversion H; subst; congruence.
    + rewrite IH. split.
      * intros H. eapply Laws.first_hit_raised; eassumption.
      * intros H. inversion H; subst; congruence.
Qed.

Lemma last_resort_step : forall sel rest w,
  last_resort dv (sel :: rest) w
  = match query_selector dv sel w with
    | (Ok (Some el), w1) => (Ok (Some el), w1)
    | (Ok None, w1) => last_resort dv rest w1
    | (Raised e, w1) => (Raised e, w1)
    end.
Proof.
  intros. cbn [last_resort]. unfold bind, ret.
  destruct (query_selector dv sel w) as [[[el|]|e] w1]; reflexivity.
Qed.

Lemma last_resort_none : forall sels w w',
  last_resort dv sels w = (Ok None, w')
  <-> Laws.none_found (query_selector dv) sels w w'.
Proof.
  induction sels as [|sel rest IH]; intros w w'.
  - simpl. unfold ret. split.
    + intros H. inversion H; subst. constructor.
    + intros H. inversion H; subst. reflexivity.
  - rewrite last_resort_step.
    destruct (query_selector dv sel w) as [[[el|]|e] w1] eqn:E.
    + split; [discriminate|]. intros H. inversion H; subst; congruence.
    + rewrite IH. split.
      * intros H. eapply Laws.none_found_cons; eassumption.
      * intros H. inversion H; subst; congruence.
    + split; [discriminate|]. intros H. inversion H; subst; congruence.
Qed.

Lemma last_resort_some : forall sels w el w',
  last_resort dv sels w = (Ok (Some el), w')
  <-> Laws.found_first (query_selector dv) sels w el w'.
Proof.
  induction sels as [|sel rest IH]; intros w el w'.
  - simpl. unfold ret. split; [discriminate | intros H; inversion H].
  - rewrite last_resort_step.
    destruct (query_selector dv sel w) as [[[el0|]|e] w1] eqn:E.
    + split.
      * intros H. inversion H; subst. now apply Laws.found_first_here.
      * intros H. inversion H; subst; congruence.
    + rewrite IH. split.
      * intros H. eapply Laws.found_first_later; eassumption.
      * intros H. inversion H; subst; congruence.
    + split; [discriminate|]. intros H. inversion H; subst; congruence.
Qed.

Lemma last_resort_raised : forall sels w e w',
  last_resort dv sels w = (Raised e, w')
  <-> Laws.broke_off (query_selector dv) sels w e w'.
Proof.
  induction sels as [|sel rest IH]; intros w e w'.
  - simpl. unfold ret. split; [discriminate | intros H; inversion H].
  - rewrite last_resort_step.
    destruct (query_selector dv sel w) as [[[el0|]|e0] w1] eqn:E.
    + split; [discriminate|]. intros H. inversion H; subst; congruence.
    + rewrite IH. split.
      * intros H. eapply Laws.broke_off_later; eassumption.
      * intros H. inversion H; subst; congruence.
    + split.
      * intros H. inversion H; subst. now apply Laws.broke_off_here.
      * intros H. inversion H; subst; congruence.
Qed.

(** The locator once the page is loaded. *)
Lemma after_load : forall text w u w1,
  wait_for_load_state dv "networkidle" w = (Ok u, w1) ->
  click_and_expand_accordion dv text w
  = match find_trigger dv (selectors text) w1 with
    | (Ok (Some element), w2) =>
        match expand_and_resolve dv element w2 with
        | (Ok (Some c), w3) => (Ok (Some c), w3)
        | (Ok None, w3) | (Raised _, w3) =>
            match last_resort dv last_resort_selectors w3 with
            | (Ok r, w4) => (Ok r, w4)
            | (Raised _, w4) => (Ok None, w4)
            end
        end
    | (Ok None, w2) => (Ok None, w2)
    | (Raised e, w2) => (Raised e, w2)
    end.
Proof.
  intros text w u w1 H. unfold click_and_expand_accordion, bind at 1.
  rewrite H. unfold bind at 1.
  destruct (find_trigger dv (selectors text) w1) as [[[element|]|e] w2];
    try reflexivity.
  unfold bind, try_catch, ret.
  destruct (expand_and_resolve dv element w2) as [[[c|]|e] w3]; try reflexivity.
Qed.

Lemma find_trigger_returns : forall sels w,
  exists r w', find_trigger dv sels w = (Ok r, w').
Proof. intros. apply find_trigger_total. Qed.

End WithView.
End LocatorFacts.

(** C4 (as the code has it): the locator raises to its caller exactly
    when its initial wait for the network-idle state raises, and with
    the error of that wait; every later error of the document view is
    caught inside.  It returns nothing either as soon as every trigger
    selector has found nothing or raised, without running the later
    stages, or, a trigger being found and its content not resolved,
    after every last-resort probe found nothing or one of them raised.
    It returns a container exactly when a trigger is found and either
    the content stage resolves it or, that stage failing, a last-resort
    probe finds it. *)
Theorem locator_raises_only_on_load :
  forall W Elem (dv : Dom.DocumentView W Elem) (text : string) (w : W),
  (forall e w',
      Locator.click_and_expand_accordion dv text w = (Dom.Raised e, w')
      <-> Dom.wait_for_load_state dv "networkidle" w = (Dom.Raised e, w'))
  /\ (forall w',
      Locator.click_and_expand_accordion dv text w = (Dom.Ok None, w')
      <-> exists u w1,
            Dom.wait_for_load_state dv "networkidle" w = (Dom.Ok u, w1)
            /\ (Laws.all_miss (Laws.trigger_probe dv)
                  (Locator.selectors text) w1 w'
                \/ exists element w2 w3,
                     Laws.first_hit (Laws.trigger_probe dv)
                       (Locator.selectors text) w1 element w2
                     /\ Laws.unresolved dv element w2 w3
                     /\ (Laws.none_found (Dom.query_selector dv)
                           Locator.last_resort_selectors w3 w'
                         \/ exists e,
                              Laws.broke_off (Dom.query_selector dv)
                                Locator.last_resort_selectors w3 e w')))
  /\ (forall c w',
      Locator.click_and_expand_accordion dv text w = (Dom.Ok (Some c), w')
      <-> exists u w1 element w2,
            Dom.wait_for_load_state dv "networkidle" w = (Dom.Ok u, w1)
            /\ Laws.first_hit (Laws.trigger_probe dv)
                 (Locator.selectors text) w1 element w2
            /\ (Locator.expand_and_resolve dv element w2 = (Dom.Ok (Some c), w')
                \/ exists w3,
                     Laws.unresolved dv element w2 w3
                     /\ Laws.found_first (Dom.query_selector dv)
                          Locator.last_resort_selectors w3 c w')).
Proof.
  intros W Elem dv text w.
  destruct (Dom.wait_for_load_state dv "networkidle" w) as [[u|e0] w1] eqn:Hload.
  - rewrite (LocatorFacts.after_load dv text w u w1 Hload).
    destruct (Locator.find_trigger dv (Locator.selectors text) w1)
      as [[[element|]|e1] w2] eqn:Ht.
    + apply LocatorFacts.find_trigger_some in Ht.
      assert (Hno : forall w', ~ Laws.all_miss (Laws.trigger_probe dv)
                                   (Locator.selectors text) w1 w').
      { intros w' Hm. apply LocatorFacts.find_trigger_none in Hm.
        apply LocatorFacts.find_trigger_some in Ht. congruence. }
      assert (Hsame : forall el' w2',
                 Laws.first_hit (Laws.trigger_probe dv)
                   (Locator.selectors text) w1 el' w2' ->
                 el' = element /\ w2' = w2).
      { intros el' w2' Hh. apply LocatorFacts.find_trigger_some in Hh.
        apply LocatorFacts.find_trigger_some in Ht.
        rewrite Ht in Hh. now inversion Hh. }
      destruct (Locator.expand_and_resolve dv element w2) as [[[c0|]|e2] w3] eqn:Hr.
      * split; [|split].
        -- intros e w'. split; discriminate.
        -- intros w'. split; [discriminate|].
           intros (u' & w1' & Hl & [Hm | (el' & w2' & w3' & Hh & Hu & _)]).
           ++ inversion Hl; subst. now apply Hno in Hm.
           ++ inversion Hl; subst. destruct (Hsame _ _ Hh) as [-> ->].
              unfold Laws.unresolved in Hu. rewrite Hr in Hu.
              destruct Hu as [Hu | [e Hu]]; discriminate.
        -- intros c w'. split.
           ++ intros H. inversion H; subst.
              exists u, w1, element, w2. split; [reflexivity|].
              split; [exact Ht | now left].
           ++ intros (u' & w1' & el' & w2' & Hl & Hh & Hc).
              inversion Hl; subst. destruct (Hsame _ _ Hh) as [-> ->].
              destruct Hc as [Hc | (w3' & Hu & _)].
              ** rewrite Hr in Hc. now inversion Hc.
              ** unfold Laws.unresolved in Hu. rewrite Hr in Hu.
                 destruct Hu as [Hu | [e Hu]]; discriminate.
      * assert (Hu0 : Laws.unresolved dv element w2 w3) by (left; exact Hr).
        assert (Huniq : forall w3', Laws.unresolved dv element w2 w3' -> w3' = w3).
        { intros w3' [Hu | [e Hu]]; rewrite Hr in Hu; now inversion Hu. }
        destruct (Locator.last_resort dv Locator.last_resort_selectors w3)
          as [[[c1|]|e3] w4] eqn:Hlr.
        -- split; [|split].
           ++ intros e w'. split; discriminate.
           ++ intros w'. split; [discriminate|].
              intros (u' & w1' & Hl & [Hm | (el' & w2' & w3' & Hh & Hu & Hp)]).
              ** inversion Hl; subst. now apply Hno in Hm.
              ** inversion Hl; subst. destruct (Hsame _ _ Hh) as [-> ->].
                 apply Huniq in Hu. subst w3'.
                 destruct Hp as [Hp | [e Hp]].
                 --- apply LocatorFacts.last_resort_none in Hp. congruence.
                 --- apply LocatorFacts.last_resort_raised in Hp. congruence.
           ++ intros c w'. split.
              ** intros H. inversion H; subst.
                 exists u, w1, element, w2. split; [reflexivity|].
                 split; [exact Ht|]. right. exists w3. split; [exact Hu0|].
                 now apply LocatorFacts.last_resort_some.
              ** intros (u' & w1' & el' & w2' & Hl & Hh & Hc).
                 inversion Hl; subst. destruct (Hsame _ _ Hh) as [-> ->].
                 destruct Hc as [Hc | (w3' & Hu & Hp)].
                 --- rewrite Hr in Hc. discriminate.
                 --- apply Huniq in Hu. subst w3'.
                     apply LocatorFacts.last_resort_some in Hp.
                     rewrite Hlr in Hp. now inversion Hp.
        -- split; [|split].
           ++ intros e w'. split; discriminate.
           ++ intros w'. split.
              ** intros H. inversion H; subst.
                 exists u, w1. split; [reflexivity|]. right.
                 exists element, w2, w3. split; [exact Ht|].
                 split; [exact Hu0|]. left.
                 now apply LocatorFacts.last_resort_none.
              ** intros (u' & w1' & Hl & [Hm | (el' & w2' & w3' & Hh & Hu & Hp)]).
                 --- inversion Hl; subst. now apply Hno in Hm.
                 --- inversion Hl; subst. destruct (Hsame _ _ Hh) as [-> ->].
                     apply Huniq in Hu. subst w3'.
                     destruct Hp as [Hp | [e Hp]].
                     +++ apply LocatorFacts.last_resort_none in Hp.
                         rewrite Hlr in Hp. now inversion Hp.
                     +++ apply LocatorFacts.last_resort_raised in Hp. congruence.
           ++ intros c w'. split; [discriminate|].
              intros (u' & w1' & el' & w2' & Hl & Hh & Hc).
              inversion Hl; subst. destruct (Hsame _ _ Hh) as [-> ->].
              destruct Hc as [Hc | (w3' & Hu & Hp)].
              ** rewrite Hr in Hc. discriminate.
              ** apply Huniq in Hu. subst w3'.
                 apply LocatorFacts.last_resort_some in Hp. congruence.
        -- split; [|split].
           ++ intros e w'. split; discriminate.
           ++ intros w'. split.
              ** intros H. inversion H; subst.
                 exists u, w1. split; [reflexivity|]. right.
                 exists element, w2, w3. split; [exact Ht|].
                 split; [exact Hu0|]. right. exists e3.
                 now apply LocatorFacts.last_resort_raised.
              ** intros (u' & w1' & Hl & [Hm | (el' & w2' & w3' & Hh & Hu & Hp)]).
                 --- inversion Hl; subst. now apply Hno in Hm.
                 --- inversion Hl; subst. destruct (Hsame _ _ Hh) as [-> ->].
                     apply Huniq in Hu. subst w3'.
                     destruct Hp as [Hp | [e Hp]].
                     +++ apply LocatorFacts.last_resort_none in Hp. congruence.
                     +++ apply LocatorFacts.last_resort_raised in Hp.
                         rewrite Hlr in Hp. now inversion Hp.
           ++ intros c w'. split; [discriminate|].
              intros (u' & w1' & el' & w2' & Hl & Hh & Hc).
              inversion Hl; subst. destruct (Hsame _ _ Hh) as [-> ->].
              destruct Hc as [Hc | (w3' & Hu & Hp)].
              ** rewrite Hr in Hc. discriminate.
              ** apply Huniq in Hu. subst w3'.
                 apply LocatorFacts.last_resort_some in Hp. congruence.
      * assert (Hu0 : Laws.unresolved dv element w2 w3) by (right; now exists e2).
        assert (Huniq : forall w3', Laws.unresolved dv element w2 w3' -> w3' = w3).
        { intros w3' [Hu | [e Hu]]; rewrite Hr in Hu; now inversion Hu. }
        destruct (Locator.last_resort dv Locator.last_resort_selectors w3)
          as [[[c1|]|e3] w4] eqn:Hlr.
        -- split; [|split].
           ++ intros e w'. split; discriminate.
           ++ intros w'. split; [discriminate|].
              intros (u' & w1' & Hl & [Hm | (el' & w2' & w3' & Hh & Hu & Hp)]).
              ** inversion Hl; subst. now apply Hno in Hm.
              ** inversion Hl; subst. destruct (Hsame _ _ Hh) as [-> ->].
                 apply Huniq in Hu. subst w3'.
                 destruct Hp as [Hp | [e Hp]].
                 --- apply LocatorFacts.last_resort_none in Hp. congruence.
                 --- apply LocatorFacts.last_resort_raised in Hp. congruence.
           ++ intros c w'. split.
              ** intros H. inversion H; subst.
                 exists u, w1, element, w2. split; [reflexivity|].
                 split; [exact Ht|]. right. exists w3. split; [exact Hu0|].
                 now apply LocatorFacts.last_resort_some.
              ** intros (u' & w1' & el' & w2' & Hl & Hh & Hc).
                 inversion Hl; subst. destruct (Hsame _ _ Hh) as [-> ->].
                 destruct Hc as [Hc | (w3' & Hu & Hp)].
                 --- rewrite Hr in Hc. discriminate.
                 --- apply Huniq in Hu. subst w3'.
                     apply LocatorFacts.last_resort_some in Hp.
                     rewrite Hlr in Hp. now inversion Hp.
        -- split; [|split].
           ++ intros e w'. split; discriminate.
           ++ intros w'. split.
              ** intros H. inversion H; subst.
                 exists u, w1. split; [reflexivity|]. right.
                 exists element, w2, w3. split; [exact Ht|].
                 split; [exact Hu0|]. left.
                 now apply LocatorFacts.last_resort_none.
              ** intros (u' & w1' & Hl & [Hm | (el' & w2' & w3' & Hh & Hu & Hp)]).
                 --- inversion Hl; subst. now apply Hno in Hm.
                 --- inversion Hl; subst. destruct (Hsame _ _ Hh) as [-> ->].
                     apply Huniq in Hu. subst w3'.
                     destruct Hp as [Hp | [e Hp]].
                     +++ apply LocatorFacts.last_resort_none in Hp.
                         rewrite Hlr in Hp. now inversion Hp.
                     +++ apply LocatorFacts.last_resort_raised in Hp. congruence.
           ++ intros c w'. split; [discriminate|].
              intros (u' & w1' & el' & w2' & Hl & Hh & Hc).
              inversion Hl; subst. destruct (Hsame _ _ Hh) as [-> ->].
              destruct Hc as [Hc | (w3' & Hu & Hp)].
              ** rewrite Hr in Hc. discriminate.
              ** apply Huniq in Hu. subst w3'.
                 apply LocatorFacts.last_resort_some in Hp. congruence.
        -- split; [|split].
           ++ intros e w'. split; discriminate.
           ++ intros w'. split.
              ** intros H. inversion H; subst.
                 exists u, w1. split; [reflexivity|]. right.
                 exists element, w2, w3. split; [exact Ht|].
                 split; [exact Hu0|]. right. exists e3.
                 now apply LocatorFacts.last_resort_raised.
              ** intros (u' & w1' & Hl & [Hm | (el' & w2' & w3' & Hh & Hu & Hp)]).
                 --- inversion Hl; subst. now apply Hno in Hm.
                 --- inversion Hl; subst. destruct (Hsame _ _ Hh) as [-> ->].
                     apply Huniq in Hu. subst w3'.
                     destruct Hp as [Hp | [e Hp]].
                     +++ apply LocatorFacts.last_resort_none in Hp. congruence.
                     +++ apply LocatorFacts.last_resort_raised in Hp.
                         rewrite Hlr in Hp. now inversion Hp.
           ++ intros c w'. split; [discriminate|].
              intros (u' & w1' & el' & w2' & Hl & Hh & Hc).
              inversion Hl; subst. destruct (Hsame _ _ Hh) as [-> ->].
              destruct Hc as [Hc | (w3' & Hu & Hp)].
              ** rewrite Hr in Hc. discriminate.
              ** apply Huniq in Hu. subst w3'.
                 apply LocatorFacts.last_resort_some in Hp. congruence.
    + split; [|split].
      * intros e w'. split; discriminate.
      * intros w'. split.
        -- intros H. inversion H; subst. exists u, w1. split; [reflexivity|].
           left. now apply LocatorFacts.find_trigger_none.
        -- intros (u' & w1' & Hl & [Hm | (el' & w2' & w3' & Hh & _)]).
           ++ inversion Hl; subst. apply LocatorFacts.find_trigger_none in Hm.
              rewrite Ht in Hm. now inversion Hm.
           ++ inversion Hl; subst. apply LocatorFacts.find_trigger_some in Hh.
              congruence.
      * intros c w'. split; [discriminate|].
        intros (u' & w1' & el' & w2' & Hl & Hh & _).
        inversion Hl; subst. apply LocatorFacts.find_trigger_some in Hh.
        congruence.
    + destruct (LocatorFacts.find_trigger_returns dv (Locator.selectors text) w1)
        as (r & w' & Hr). congruence.
  - rewrite (LocatorFacts.raises_with_load dv text w e0 w1 Hload).
    split; [|split].
    + intros e w'. split; intros H; inversion H; reflexivity.
    + intros w'. split; [discriminate|].
      intros (u' & w1' & Hl & _). discriminate.
    + intros c w'. split; [discriminate|].
      intros (u' & w1' & el' & w2' & Hl & _). discriminate.
Qed.

Lemma locator_raises_only_on_load_witness :
  Locator.click_and_expand_accordion
    (Fixtures.static_view Cases.accordion_page) "Programs Offered" tt
  = (Dom.Ok (Some 2), tt).
Proof.
  destruct (locator_raises_only_on_load unit nat
              (Fixtures.static_view Cases.accordion_page)
              "Programs Offered" tt) as (_ & _ & H).
  apply H. exists tt, tt, 1, tt. split; [reflexivity|]. split.
  - unfold Locator.selectors. apply Laws.first_hit_here.
    vm_compute. reflexivity.
  - left. vm_compute. reflexivity.
Defined.

Lemma locator_raises_on_stalled_page :
  Locator.click_and_expand_accordion
    (Fixtures.static_view Fixtures.stalled_page) "Programs Offered" tt
  = (Dom.Raised "TimeoutError", tt)
  /\ Locator.click_and_expand_accordion
       (Fixtures.static_view Fixtures.unlabelled_page) "Programs Offered" tt
     = (Dom.Ok None, tt)
  /\ Locator.last_resort (Fixtures.static_view Fixtures.unlabelled_page)
       Locator.last_resort_selectors tt
     = (Dom.Ok (Some 7), tt).
Proof. repeat split; vm_compute; reflexivity. Qed.

(* ------------------------------------------------------------------ *)
(** ** Category-header discovery *)

Module Discovery.
Import PyStr Dom Dict Engine Spec Facts.

Lemma title_seen {Elem} : forall (main_programs : list (candidate Elem)) t,
  existsb (fun p => (title p =? t)%string) main_programs = false ->
  ~ In t (titles main_programs).
Proof.
  intros mp t H Hin. unfold titles in Hin. apply in_map_iff in Hin.
  destruct Hin as (p & Hp & Hin).
  assert (E : existsb (fun p => (title p =? t)%string) mp = true).
  { apply existsb_exists. exists p. split; [exact Hin|].
    rewrite Hp. apply String.eqb_refl. }
  congruence.
Qed.

Lemma add_candidate_extends {Elem} : forall (mp : list (candidate Elem)) el text,
  exists ext, add_candidate mp el text = mp ++ ext.
Proof.
  intros. unfold add_candidate.
  destruct (negb (text =? "")%string && (1 <? String.length (strip text))).
  - destruct (existsb _ mp).
    + exists []. now rewrite app_nil_r.
    + eexists. reflexivity.
  - exists []. now rewrite app_nil_r.
Qed.

Lemma add_candidate_nodup {Elem} : forall (mp : list (candidate Elem)) el text,
  NoDup (titles mp) -> NoDup (titles (add_candidate mp el text)).
Proof.
  intros mp el text H. unfold add_candidate.
  destruct (negb (text =? "")%string && (1 <? String.length (strip text)));
    [|exact H].
  destruct (existsb (fun p => (title p =? strip text)%string) mp) eqn:E;
    [exact H|].
  unfold titles. rewrite map_app. simpl. apply NoDup_app.
  - exact H.
  - constructor; [intros [] | constructor].
  - intros t Ht [Hx | []]. subst t. now apply (title_seen mp (strip text)).
Qed.

Lemma existsb_title {Elem} : forall (mp : list (candidate Elem)) t,
  existsb (fun p => (title p =? t)%string) mp = mem t (titles mp).
Proof.
  intros mp t. unfold mem, titles. induction mp as [|p mp IH]; simpl;
    [reflexivity|].
  now rewrite IH, String.eqb_sym.
Qed.

Lemma offered_cons {Elem} : forall (r : Elem * string) reads,
  Laws.offered (r :: reads) = Laws.offered [r] ++ Laws.offered reads.
Proof. intros. unfold Laws.offered. simpl. now rewrite app_nil_r. Qed.

(** The body of the loop keeps the candidate a read offers unless its
    title is there already. *)
Lemma add_candidate_first {Elem} : forall (mp : list (candidate Elem)) el text,
  add_candidate mp el text
  = mp ++ Laws.first_new title (titles mp) (Laws.offered [(el, text)]).
Proof.
  intros mp el text. unfold add_candidate, Laws.offered. simpl.
  destruct (negb (text =? "")%string && (1 <? String.length (strip text))); simpl.
  - rewrite existsb_title. destruct (mem (strip text) (titles mp)).
    + now rewrite app_nil_r.
    + reflexivity.
  - now rewrite app_nil_r.
Qed.

Section WithView.
Context {W Elem : Type} (dv : DocumentView W Elem).

Lemma grows_refl : forall mp : list (candidate Elem), grows mp mp.
Proof. intros. split; [exists []; now rewrite app_nil_r | auto]. Qed.

Lemma grows_trans : forall a b c : list (candidate Elem),
  grows a b -> grows b c -> grows a c.
Proof.
  intros a b c [[e1 E1] N1] [[e2 E2] N2]. split; [|auto].
  exists (e1 ++ e2). subst. now rewrite app_assoc.
Qed.

Lemma scan_elements_grows : forall els mp w,
  grows mp (fst (fst (scan_elements dv els mp w))).
Proof.
  induction els as [|el rest IH]; intros mp w; simpl.
  - apply grows_refl.
  - destruct (inner_text dv el w) as [[text|e] w'].
    + eapply grows_trans; [|apply IH]. split.
      * apply add_candidate_extends.
      * apply add_candidate_nodup.
    + apply grows_refl.
Qed.

Lemma scan_family_grows : forall content sel mp w,
  grows mp (fst (fst (scan_family dv content sel mp w))).
Proof.
  intros. unfold scan_family.
  destruct (query_selector_all dv content sel w) as [[[|el els]|e] w'];
    try apply grows_refl.
  pose proof (scan_elements_grows (el :: els) mp w') as H.
  destruct (scan_elements dv (el :: els) mp w') as [[mp' [|]] w'']; exact H.
Qed.

Lemma scan_families_grows : forall content sels mp w,
  grows mp (fst (scan_families dv content sels mp w)).
Proof.
  induction sels as [|sel rest IH]; intros mp w; simpl.
  - apply grows_refl.
  - pose proof (scan_family_grows content sel mp w) as H.
    destruct (scan_family dv content sel mp w) as [[mp' [|]] w']; simpl in H.
    + exact H.
    + eapply grows_trans; [exact H | apply IH].
Qed.

(** The [break] is taken exactly after a family that matched some
    element, whose texts were all read, and at whose end more than one
    candidate has been collected since the scan began. *)
Lemma scan_family_break : forall content sel mp w,
  snd (fst (scan_family dv content sel mp w)) = true <->
  exists el els w1,
    query_selector_all dv content sel w = (Ok (el :: els), w1)
    /\ snd (fst (scan_elements dv (el :: els) mp w1)) = true
    /\ 1 < List.length (fst (fst (scan_elements dv (el :: els) mp w1))).
Proof.
  intros. unfold scan_family.
  destruct (query_selector_all dv content sel w) as [[[|el els]|e] w1].
  - simpl. split; [discriminate | intros (? & ? & ? & H & _); discriminate].
  - destruct (scan_elements dv (el :: els) mp w1) as [[mp' [|]] w''] eqn:E.
    + cbn [fst snd]. split.
      * intros H. apply Nat.ltb_lt in H. exists el, els, w1.
        rewrite E. cbn [fst snd]. auto.
      * intros (el' & els' & w1' & H & _ & Hlen). inversion H; subst.
        rewrite E in Hlen. cbn [fst snd] in Hlen. now apply Nat.ltb_lt.
    + cbn [fst snd]. split; [discriminate|].
      intros (el' & els' & w1' & H & Hc & _). inversion H; subst.
      rewrite E in Hc. cbn [fst snd] in Hc. discriminate.
  - simpl. split; [discriminate | intros (? & ? & ? & H & _); discriminate].
Qed.

Lemma scan_families_step : forall content sel rest mp w,
  scan_families dv content (sel :: rest) mp w
  = if snd (fst (scan_family dv content sel mp w))
    then (fst (fst (scan_family dv content sel mp w)),
          snd (scan_family dv content sel mp w))
    else scan_families dv content rest
           (fst (fst (scan_family dv content sel mp w)))
           (snd (scan_family dv content sel mp w)).
Proof.
  intros. simpl.
  destruct (scan_family dv content sel mp w) as [[mp' [|]] w']; reflexivity.
Qed.

(** Every element of a family is read, in order, until a read raises;
    of the candidates the reads offer, the first of each title not yet
    present is appended. *)
Lemma scan_elements_first : forall els mp w,
  scan_elements dv els mp w
  = ((mp ++ Laws.first_new title (titles mp)
              (Laws.offered (fst (fst (Laws.read_texts dv els w)))),
      snd (fst (Laws.read_texts dv els w))),
     snd (Laws.read_texts dv els w)).
Proof.
  induction els as [|el rest IH]; intros mp w; simpl.
  - now rewrite app_nil_r.
  - destruct (inner_text dv el w) as [[text|e] w1].
    + rewrite IH.
      destruct (Laws.read_texts dv rest w1) as [[reads complete] w'].
      cbn [fst snd]. f_equal. f_equal.
      rewrite add_candidate_first.
      rewrite (offered_cons (el, text) reads).
      rewrite Serialisation.first_new_app, <- app_assoc.
      f_equal. f_equal. unfold titles. now rewrite map_app.
    + cbn [fst snd]. now rewrite app_nil_r.
Qed.

(** The scan is the run, each to its end, of the families up to the
    first one that ends with the [break]. *)
Lemma scan_families_prefix : forall content sels mp w,
  exists tried untried,
    sels = tried ++ untried
    /\ scan_families dv content sels mp w
       = Laws.try_families dv content tried mp w
    /\ (forall before sel after,
          tried = before ++ sel :: after -> after <> [] ->
          snd (fst (scan_family dv content sel
                      (fst (Laws.try_families dv content before mp w))
                      (snd (Laws.try_families dv content before mp w))))
          = false)
    /\ (untried = []
        \/ exists before sel,
             tried = before ++ [sel]
             /\ snd (fst (scan_family dv content sel
                            (fst (Laws.try_families dv content before mp w))
                            (snd (Laws.try_families dv content before mp w))))
                = true).
Proof.
  induction sels as [|sel rest IH]; intros mp w.
  - exists [], []. split; [reflexivity|]. split; [reflexivity|].
    split; [|now left]. intros before sel after H. now destruct before.
  - cbn [scan_families].
    destruct (scan_family dv content sel mp w) as [[mp' b] w'] eqn:E.
    destruct b.
    + exists [sel], rest. split; [reflexivity|]. split.
      * cbn [Laws.try_families]. now rewrite E.
      * split.
        -- intros before s after H Hne. destruct before as [|x before].
           ++ inversion H; subst. congruence.
           ++ inversion H; subst. now destruct before.
        -- right. exists [], sel. split; [reflexivity|].
           cbn [Laws.try_families fst snd]. now rewrite E.
    + destruct (IH mp' w') as (tried & untried & H1 & H2 & H3 & H4).
      exists (sel :: tried), untried. split; [now rewrite H1|]. split.
      * cbn [Laws.try_families]. rewrite E. exact H2.
      * split.
        -- intros before s after H Hne. destruct before as [|x before].
           ++ inversion H; subst. cbn [Laws.try_families fst snd].
              now rewrite E.
           ++ inversion H; subst. cbn [Laws.try_families]. rewrite E.
              cbn [fst snd]. now apply (H3 before s after).
        -- destruct H4 as [H4 | (before & s & H4 & H5)]; [now left|].
           right. exists (sel :: before), s. split; [now rewrite H4|].
           cbn [Laws.try_families]. rewrite E. exact H5.
Qed.

End WithView.
End Discovery.




(* ------------------------------------------------------------------ *)
(** ** The per-header harvest *)

Module HarvestFacts.
Import PyStr Dom Harvest Spec Facts.

(** *** The title-word filter of the container, snapshot and sibling paths *)

Lemma add_cleaned_overlap : forall main_title subprograms item,
  word_overlap main_title (strip (first_line item)) = true ->
  add_cleaned main_title subprograms item = subprograms.
Proof.
  intros main_title subprograms item H. unfold add_cleaned. rewrite H. simpl.
  destruct (negb (strip (first_line item) =? "")%string
            && (2 <? String.length (strip (first_line item)))
            && negb (Noise.is_nav_element (strip (first_line item))));
    reflexivity.
Qed.

Lemma add_cleaned_distinct : forall main_title subprograms item,
  Forall (distinct_from main_title) subprograms ->
  Forall (distinct_from main_title) (add_cleaned main_title subprograms item).
Proof.
  intros main_title subprograms item H. unfold add_cleaned.
  destruct (negb (strip (first_line item) =? "")%string
            && (2 <? String.length (strip (first_line item)))
            && negb (Noise.is_nav_element (strip (first_line item))));
    [|exact H].
  destruct (word_overlap main_title (strip (first_line item))) eqn:E;
    simpl; [exact H|].
  apply Forall_app. split; [exact H | constructor; [exact E | constructor]].
Qed.

Lemma add_container_item_distinct : forall main_title subprograms item,
  Forall (distinct_from main_title) subprograms ->
  Forall (distinct_from main_title) (add_container_item main_title subprograms item).
Proof.
  intros. unfold add_container_item.
  destruct (negb (item =? "")%string && negb (item =? main_title)%string
            && negb (mem item subprograms)); [|assumption].
  now apply add_cleaned_distinct.
Qed.

Lemma add_text_item_distinct : forall main_title subprograms item,
  Forall (distinct_from main_title) subprograms ->
  Forall (distinct_from main_title) (add_text_item main_title subprograms item).
Proof.
  intros. unfold add_text_item.
  destruct (negb (item =? main_title)%string && negb (mem item subprograms));
    [|assumption].
  now apply add_cleaned_distinct.
Qed.

Lemma fold_distinct : forall main_title (f : list string -> string -> list string),
  (forall acc x, Forall (distinct_from main_title) acc ->
                 Forall (distinct_from main_title) (f acc x)) ->
  forall items init,
    Forall (distinct_from main_title) init ->
    Forall (distinct_from main_title) (fold_left f items init).
Proof.
  intros main_title f Hf items init Hinit.
  apply (fold_left_invariant (Forall (distinct_from main_title)) (fun _ => True)).
  - intros acc x _ H. now apply Hf.
  - apply Forall_trivial.
  - exact Hinit.
Qed.

Ltac distinct_fold :=
  apply fold_distinct;
  [ intros; first [ now apply add_text_item_distinct
                  | now apply add_container_item_distinct ]
  | repeat first [ constructor
                 | apply add_text_item_distinct
                 | apply add_container_item_distinct ] ].

Section WithView.
Context {W Elem : Type} (dv : DocumentView W Elem).

Lemma from_page_distinct : forall main_title w r w',
  from_page dv main_title w = (Ok r, w') ->
  Forall (distinct_from main_title) r.
Proof.
  intros main_title w r w' H. unfold from_page, try_catch, bind in H.
  destruct (js_containers dv w) as [[[|first rest]|e] w1].
  - destruct (js_snapshot dv w1) as [[after_elements|e] w2].
    + destruct (map s_text (filter s_isListItem after_elements)) as [|l ls] eqn:El.
      * destruct (map s_text (filter s_isParagraph after_elements)) as [|p ps];
          inversion H; subst.
        -- constructor.
        -- distinct_fold.
      * inversion H; subst. distinct_fold.
    + inversion H; subst. constructor.
  - inversion H; subst. distinct_fold.
  - inversion H; subst. constructor.
Qed.

Lemma from_siblings_distinct : forall element main_title w r w',
  from_siblings dv element main_title w = (Ok r, w') ->
  Forall (distinct_from main_title) r.
Proof.
  intros element main_title w r w' H. unfold from_siblings, try_catch, bind in H.
  destruct (js_sibling_items dv element w) as [[items|e] w1];
    inversion H; subst.
  - distinct_fold.
  - constructor.
Qed.

End WithView.

(** *** A header that opens on a click and stays open *)

Section Expanding.
Context {W Elem : Type} (dv : DocumentView W Elem) (element : Elem).
Hypothesis Hexp : Laws.expanding_header dv element.

Lemma kept_ret {A} (a : A) (w : W) : snd (@ret W A a w) = w.
Proof. reflexivity. Qed.

Lemma kept_bind {A B} (m : M W A) (k : A -> M W B) (w : W) :
  snd (m w) = w -> (forall a, snd (k a w) = w) -> snd (bind m k w) = w.
Proof.
  intros Hm Hk. unfold bind.
  destruct (m w) as [[a|e] w1]; simpl in Hm; subst w1; [apply Hk | reflexivity].
Qed.

Lemma kept_try_catch {A} (m : M W A) (h : exn -> M W A) (w : W) :
  snd (m w) = w -> (forall e, snd (h e w) = w) -> snd (try_catch m h w) = w.
Proof.
  intros Hm Hh. unfold try_catch.
  destruct (m w) as [[a|e] w1]; simpl in Hm; subst w1; [reflexivity | apply Hh].
Qed.

Lemma kept_or_else (a b : M W (option string)) (w : W) :
  snd (a w) = w -> snd (b w) = w -> snd (or_else a b w) = w.
Proof.
  intros Ha Hb. unfold or_else. apply kept_bind; [exact Ha|].
  intros x. destruct (truthy x); [apply kept_ret | exact Hb].
Qed.

Lemma click_header_opens : forall w,
  click_header dv element w = (Ok tt, snd (click dv element w)).
Proof.
  intros w. unfold click_header, try_catch, bind.
  destruct (Laws.eh_click dv element Hexp w) as [w' Hc]. rewrite Hc.
  now rewrite (Laws.eh_timeout dv element Hexp 1000 w').
Qed.

Ltac kept_step :=
  first
    [ apply kept_ret
    | apply kept_bind; [|intro]
    | apply kept_try_catch; [|intro]
    | apply kept_or_else
    | apply (Laws.eh_attr dv element Hexp)
    | apply (Laws.eh_query dv element Hexp)
    | apply (Laws.eh_show dv element Hexp)
    | apply (Laws.eh_target_items dv element Hexp)
    | apply (Laws.eh_containers dv element Hexp)
    | apply (Laws.eh_snapshot dv element Hexp)
    | apply (Laws.eh_siblings dv element Hexp)
    | match goal with
      | |- snd ((match ?x with _ => _ end) _) = _ => destruct x
      end ].

(** The harvest is what follows the click, run on the document the
    click leaves, and what follows the click leaves that document as it
    is. *)
Lemma harvest_through_click : forall main_title,
  exists after_click : M W (list string),
    (forall w, click_and_extract_subprograms dv element main_title w
               = after_click (snd (click dv element w)))
    /\ (forall w, snd (after_click (snd (click dv element w)))
                  = snd (click dv element w)).
Proof.
  intros main_title. eexists. split.
  - intros w. unfold click_and_extract_subprograms, bind at 1.
    destruct (Laws.eh_texts dv element Hexp w) as [texts Ht]. rewrite Ht.
    unfold bind at 1. rewrite click_header_opens. reflexivity.
  - intros w. unfold read_target_id, from_target, from_page, from_siblings.
    repeat kept_step.
Qed.

End Expanding.

End HarvestFacts.




(** C9 (as the code has it): in the container, snapshot and sibling
    paths of the harvest, a candidate is dropped whenever the word set
    of its first line, lower-cased and trimmed, is a subset or a
    superset of the word set of the category title, so nothing those
    paths return overlaps the title in that way.  The path through an
    explicit target id applies no such filter. *)
Theorem overlapping_items_dropped :
  forall W Elem (dv : Dom.DocumentView W Elem) (main_title : string),
  (forall subprograms item,
      Harvest.word_overlap main_title (PyStr.strip (PyStr.first_line item)) = true ->
      Harvest.add_container_item main_title subprograms item = subprograms
      /\ Harvest.add_text_item main_title subprograms item = subprograms)
  /\ (forall w r w',
        Harvest.from_page dv main_title w = (Dom.Ok r, w') ->
        Forall (fun item => Harvest.word_overlap main_title item = false) r)
  /\ (forall element w r w',
        Harvest.from_siblings dv element main_title w = (Dom.Ok r, w') ->
        Forall (fun item => Harvest.word_overlap main_title item = false) r).
Proof.
  intros. split; [|split].
  - intros subprograms item H. split.
    + unfold Harvest.add_container_item.
      rewrite (HarvestFacts.add_cleaned_overlap _ _ _ H).
      destruct (negb (item =? "")%string && negb (item =? main_title)%string
                && negb (PyStr.mem item subprograms)); reflexivity.
    + unfold Harvest.add_text_item.
      rewrite (HarvestFacts.add_cleaned_overlap _ _ _ H).
      destruct (negb (item =? main_title)%string
                && negb (PyStr.mem item subprograms)); reflexivity.
  - intros w r w' H. exact (HarvestFacts.from_page_distinct dv _ _ _ _ H).
  - intros element w r w' H.
    exact (HarvestFacts.from_siblings_distinct dv _ _ _ _ _ H).
Qed.

Lemma overlapping_items_dropped_witness :
  Harvest.add_container_item "Business" [] "Business Management" = []
  /\ Harvest.add_text_item "Business" [] "Business Management" = [].
Proof.
  destruct (overlapping_items_dropped unit nat
              (Fixtures.static_view Fixtures.blank_page) "Business") as [H _].
  apply H. vm_compute. reflexivity.
Defined.

Lemma target_path_keeps_overlapping_item :
  Harvest.click_and_extract_subprograms
    (Fixtures.static_view Fixtures.linked_page) 1 "Business" tt
  = (Dom.Ok ["Business Management"], tt)
  /\ Harvest.word_overlap "Business" "Business Management" = true.
Proof. split; vm_compute; reflexivity. Qed.

(* ------------------------------------------------------------------ *)
(** ** Substrings *)

Module Substring.
Import PyStr Facts.

Lemma startswith_iff : forall p s,
  startswith s p = true <-> exists post, s = p +++ post.
Proof.
  induction p as [|a p IH]; intros s.
  - split; [intros _; now exists s | intros _; destruct s; reflexivity].
  - destruct s as [|b s]; simpl.
    + split; [discriminate | intros [post H]; discriminate].
    + rewrite andb_true_iff, Ascii.eqb_eq, IH. split.
      * intros [E [post H]]. subst. now exists post.
      * intros [post H]. inversion H; subst. split; [reflexivity | now exists post].
Qed.

Lemma contains_iff : forall p s,
  contains p s = true <-> exists pre post, s = pre +++ p +++ post.
Proof.
  intros p. induction s as [|c s IH].
  - change (contains p "") with (startswith "" p || false).
    rewrite orb_false_r, startswith_iff. split.
    + intros [post H]. now exists "", post.
    + intros (pre & post & H). destruct pre; [now exists post | discriminate].
  - change (contains p (String c s))
      with (startswith (String c s) p || contains p s).
    rewrite orb_true_iff, startswith_iff, IH. split.
    + intros [[post H] | (pre & post & H)].
      * now exists "", post.
      * exists (String c pre), post. simpl. now rewrite H.
    + intros (pre & post & H). destruct pre as [|a pre].
      * left. now exists post.
      * right. inversion H; subst. now exists pre, post.
Qed.

(** [inner] occurs in [outer]. *)
Definition within (inner outer : string) : Prop :=
  exists pre post, outer = pre +++ inner +++ post.

Lemma append_assoc : forall a b c, (a +++ b) +++ c = a +++ b +++ c.
Proof. induction a; intros; simpl; [reflexivity | now rewrite IHa]. Qed.

Lemma append_nil_r : forall a, a +++ "" = a.
Proof. induction a; simpl; [reflexivity | now rewrite IHa]. Qed.

Lemma within_refl : forall s, within s s.
Proof. intros s. exists "", "". simpl. now rewrite append_nil_r. Qed.

Lemma within_trans : forall a b c, within a b -> within b c -> within a c.
Proof.
  intros a b c (p1 & q1 & H1) (p2 & q2 & H2). subst.
  exists (p2 +++ p1), (q1 +++ q2). now rewrite !append_assoc.
Qed.

Lemma contains_within : forall p inner outer,
  within inner outer -> contains p inner = true -> contains p outer = true.
Proof.
  intros p inner outer H Hc. apply contains_iff in Hc.
  apply contains_iff. exact (within_trans _ _ _ Hc H).
Qed.

Lemma not_contains_within : forall p inner outer,
  within inner outer -> contains p outer = false -> contains p inner = false.
Proof.
  intros p inner outer H Hc. destruct (contains p inner) eqn:E; [|reflexivity].
  rewrite (contains_within p inner outer H E) in Hc. discriminate.
Qed.

Lemma lower_append : forall a b, lower (a +++ b) = lower a +++ lower b.
Proof. induction a; intros; simpl; [reflexivity | now rewrite IHa]. Qed.

Lemma within_lower : forall a b, within a b -> within (lower a) (lower b).
Proof.
  intros a b (pre & post & H). subst. exists (lower pre), (lower post).
  now rewrite !lower_append.
Qed.

Lemma lstrip_within : forall s, within (lstrip s) s.
Proof.
  induction s as [|c s IH]; simpl.
  - apply within_refl.
  - destruct (isspace c); [|apply within_refl].
    destruct IH as (pre & post & H). exists (String c pre), post.
    simpl. now rewrite <- H.
Qed.

Lemma rstrip_prefix : forall s, exists post, s = rstrip s +++ post.
Proof.
  induction s as [|c s [post IH]].
  - now exists "".
  - change (rstrip (String c s))
      with (match rstrip s with
            | EmptyString => if isspace c then EmptyString else String c EmptyString
            | r' => String c r'
            end).
    destruct (rstrip s) as [|d r].
    + destruct (isspace c); [now exists (String c s) | now exists s].
    + exists post. simpl. simpl in IH. now rewrite <- IH.
Qed.

Lemma rstrip_within : forall s, within (rstrip s) s.
Proof. intros s. destruct (rstrip_prefix s) as [post H]. now exists "", post. Qed.

Lemma strip_within : forall s, within (strip s) s.
Proof.
  intros s. unfold strip.
  exact (within_trans _ _ _ (rstrip_within (lstrip s)) (lstrip_within s)).
Qed.

Lemma split_on_nonempty : forall c s, split_on c s <> [].
Proof.
  intros c s. destruct s as [|a s]; simpl; [discriminate|].
  destruct (Ascii.eqb a c); [discriminate|].
  destruct (split_on c s); discriminate.
Qed.

Lemma split_head_prefix : forall c s,
  exists post, s = hd "" (split_on c s) +++ post.
Proof.
  induction s as [|a s [post IH]].
  - now exists "".
  - simpl. destruct (Ascii.eqb a c).
    + now exists (String a s).
    + destruct (split_on c s) as [|h t].
      * now exists s.
      * exists post. simpl. simpl in IH. now rewrite <- IH.
Qed.

Lemma split_head_within : forall c s, within (hd "" (split_on c s)) s.
Proof.
  intros c s. destruct (split_head_prefix c s) as [post H]. now exists "", post.
Qed.

Lemma first_line_within : forall s, within (first_line s) s.
Proof. intros s. apply split_head_within. Qed.

(** The first piece of a split holds no separator. *)
Lemma split_head_no_sep : forall c s,
  contains (String c "") (hd "" (split_on c s)) = false.
Proof.
  induction s as [|a s IH]; simpl; [reflexivity|].
  destruct (Ascii.eqb a c) eqn:E; [reflexivity|].
  destruct (split_on c s) as [|h t] eqn:Es; simpl in *.
  - rewrite Ascii.eqb_sym, E. reflexivity.
  - change (contains (String c "") (String a h))
      with (Ascii.eqb c a && startswith h "" || contains (String c "") h).
    rewrite Ascii.eqb_sym, E, IH. reflexivity.
Qed.

End Substring.

(* ------------------------------------------------------------------ *)
(** ** What the harvest and the discovery return *)

Module HarvestShape.
Import PyStr Dom Harvest Spec Shape Facts Substring.

Lemma add_cleaned_shape : forall main_title subprograms item,
  Forall harvested_item subprograms ->
  Forall harvested_item (add_cleaned main_title subprograms item).
Proof.
  intros main_title subprograms item H. unfold add_cleaned.
  destruct (negb (strip (first_line item) =? "")%string
            && (2 <? String.length (strip (first_line item)))
            && negb (Noise.is_nav_element (strip (first_line item)))) eqn:E;
    [|exact H].
  destruct (negb (word_overlap main_title (strip (first_line item)))); [|exact H].
  apply andb_true_iff in E. destruct E as [E Hnav].
  apply andb_true_iff in E. destruct E as [_ Hlen].
  apply Forall_app. split; [exact H|]. constructor; [|constructor].
  repeat split.
  - apply strip_idem.
  - now apply Nat.ltb_lt.
  - now apply negb_true_iff.
  - apply (not_contains_within nl _ (first_line item)).
    + apply strip_within.
    + apply split_head_no_sep.
Qed.

Lemma add_container_item_shape : forall main_title subprograms item,
  Forall harvested_item subprograms ->
  Forall harvested_item (add_container_item main_title subprograms item).
Proof.
  intros. unfold add_container_item.
  destruct (negb (item =? "")%string && negb (item =? main_title)%string
            && negb (mem item subprograms)); [|assumption].
  now apply add_cleaned_shape.
Qed.

Lemma add_text_item_shape : forall main_title subprograms item,
  Forall harvested_item subprograms ->
  Forall harvested_item (add_text_item main_title subprograms item).
Proof.
  intros. unfold add_text_item.
  destruct (negb (item =? main_title)%string && negb (mem item subprograms));
    [|assumption].
  now apply add_cleaned_shape.
Qed.

Lemma fold_shape : forall (f : list string -> string -> list string),
  (forall acc x, Forall harvested_item acc -> Forall harvested_item (f acc x)) ->
  forall items init,
    Forall harvested_item init -> Forall harvested_item (fold_left f items init).
Proof.
  intros f Hf items init Hinit.
  apply (fold_left_invariant (Forall harvested_item) (fun _ => True)).
  - intros acc x _ H. now apply Hf.
  - apply Forall_trivial.
  - exact Hinit.
Qed.

Ltac shape_fold :=
  apply fold_shape;
  [ intros; first [ now apply add_text_item_shape
                  | now apply add_container_item_shape ]
  | repeat first [ apply Forall_nil
                 | apply add_text_item_shape
                 | apply add_container_item_shape ] ].

Lemma add_target_item_nodup : forall subprograms item,
  NoDup subprograms /\ Forall (fun s => s <> "") subprograms ->
  NoDup (add_target_item subprograms item)
  /\ Forall (fun s => s <> "") (add_target_item subprograms item).
Proof.
  intros subprograms item [Hd Hn]. unfold add_target_item.
  destruct (negb (item =? "")%string) eqn:E1; simpl; [|now split].
  destruct (mem item subprograms) eqn:E2; simpl; [now split|].
  split.
  - apply NoDup_app.
    + exact Hd.
    + constructor; [intros [] | constructor].
    + intros x Hx [Hi | []]. subst x.
      apply Serialisation.mem_In in Hx. congruence.
  - apply Forall_app. split; [exact Hn|]. constructor; [|constructor].
    now apply eqb_false_nonempty.
Qed.

Section WithView.
Context {W Elem : Type} (dv : DocumentView W Elem).

Lemma from_page_shape : forall main_title w r w',
  from_page dv main_title w = (Ok r, w') -> Forall harvested_item r.
Proof.
  intros main_title w r w' H. unfold from_page, try_catch, bind in H.
  destruct (js_containers dv w) as [[[|first rest]|e] w1].
  - destruct (js_snapshot dv w1) as [[after_elements|e] w2].
    + destruct (map s_text (filter s_isListItem after_elements)) as [|l ls] eqn:El.
      * destruct (map s_text (filter s_isParagraph after_elements)) as [|p ps] eqn:Ep;
          inversion H; subst.
        -- constructor.
        -- shape_fold.
      * inversion H; subst. shape_fold.
    + inversion H; subst. constructor.
  - inversion H; subst. shape_fold.
  - inversion H; subst. constructor.
Qed.

Lemma from_siblings_shape : forall element main_title w r w',
  from_siblings dv element main_title w = (Ok r, w') -> Forall harvested_item r.
Proof.
  intros element main_title w r w' H. unfold from_siblings, try_catch, bind in H.
  destruct (js_sibling_items dv element w) as [[items|e] w1];
    inversion H; subst.
  - shape_fold.
  - constructor.
Qed.

Lemma from_target_shape : forall target_id w r w',
  from_target dv target_id w = (Ok r, w') ->
  NoDup r /\ Forall (fun s => s <> "") r.
Proof.
  intros target_id w r w' H. unfold from_target, try_catch, bind in H.
  assert (Hnil : NoDup (@nil string) /\ Forall (fun s => s <> "") (@nil string))
    by (split; constructor).
  destruct (query_selector dv ("#" +++ target_id) w) as [[[el|]|e] w1].
  - destruct (js_show dv target_id w1) as [[u|e] w2].
    + destruct (js_target_items dv target_id w2) as [[items|e] w3];
        inversion H; subst; [|exact Hnil].
      apply (fold_left_invariant
               (fun acc => NoDup acc /\ Forall (fun s => s <> "") acc)
               (fun _ => True)).
      * intros acc x _ Hacc. now apply add_target_item_nodup.
      * apply Forall_trivial.
      * exact Hnil.
    + inversion H; subst. exact Hnil.
  - inversion H; subst. exact Hnil.
  - inversion H; subst. exact Hnil.
Qed.

(** *** Which error of the harvest reaches the caller *)

Lemma click_header_total : forall element, total (click_header dv element).
Proof.
  intros. unfold click_header. apply LocatorFacts.total_try_catch. intros e.
  apply LocatorFacts.total_try_catch. intros e'. apply LocatorFacts.total_ret.
Qed.

Lemma guarded_total {A} (m : M W A) (a : A) :
  total (try_catch m (fun _ => ret a)).
Proof. apply LocatorFacts.total_try_catch. intros e. apply LocatorFacts.total_ret. Qed.

Lemma after_snapshot_total : forall element main_title,
  total (click_header dv element ;;;
         target_id <- read_target_id dv element ;;
         sub1 <- (match target_id with
                  | Some id => if (id =? "")%string then ret [] else from_target dv id
                  | None => ret []
                  end) ;;
         sub2 <- (match sub1 with
                  | [] => from_page dv main_title
                  | _ :: _ => ret sub1
                  end) ;;
         match sub2 with
         | [] => from_siblings dv element main_title
         | _ :: _ => ret sub2
         end)%dom.
Proof.
  intros. apply LocatorFacts.total_bind; [apply click_header_total|]. intros _.
  apply LocatorFacts.total_bind; [apply guarded_total|]. intros target_id.
  apply LocatorFacts.total_bind.
  - destruct target_id as [id|]; [|apply LocatorFacts.total_ret].
    destruct (id =? "")%string; [apply LocatorFacts.total_ret | apply guarded_total].
  - intros sub1. apply LocatorFacts.total_bind.
    + destruct sub1; [apply guarded_total | apply LocatorFacts.total_ret].
    + intros sub2. destruct sub2; [apply guarded_total | apply LocatorFacts.total_ret].
Qed.

End WithView.
End HarvestShape.

(** X1: the harvest of one header raises to its caller exactly when the
    snapshot script it runs first raises; after that script every error
    of the document view is caught and a list is returned. *)
Theorem harvest_raises_only_on_snapshot :
  forall W Elem (dv : Dom.DocumentView W Elem) (element : Elem)
         (main_title : string) (w : W),
  (forall e w1,
      Dom.js_visible_texts dv w = (Dom.Raised e, w1) ->
      Harvest.click_and_extract_subprograms dv element main_title w
      = (Dom.Raised e, w1))
  /\ (forall texts w1,
      Dom.js_visible_texts dv w = (Dom.Ok texts, w1) ->
      exists r w', Harvest.click_and_extract_subprograms dv element main_title w
                   = (Dom.Ok r, w')).
Proof.
  intros. split.
  - intros e w1 H. unfold Harvest.click_and_extract_subprograms, Dom.bind at 1.
    rewrite H. reflexivity.
  - intros texts w1 H. unfold Harvest.click_and_extract_subprograms, Dom.bind at 1.
    rewrite H. apply (HarvestShape.after_snapshot_total dv element main_title w1).
Qed.

Lemma harvest_raises_only_on_snapshot_witness :
  exists r w', Harvest.click_and_extract_subprograms
                 (Fixtures.static_view Fixtures.linked_page) 1 "Business" tt
               = (Dom.Ok r, w').
Proof.
  destruct (harvest_raises_only_on_snapshot unit nat
              (Fixtures.static_view Fixtures.linked_page) 1 "Business" tt)
    as [_ H].
  apply (H [] tt). reflexivity.
Defined.

(** X2: whatever the container, snapshot and sibling paths of the
    harvest return is trimmed, longer than two characters, free of line
    breaks and not noise for the harvest's own predicate. *)
Theorem fallback_paths_return_clean_items :
  forall W Elem (dv : Dom.DocumentView W Elem) (main_title : string),
  (forall w r w',
      Harvest.from_page dv main_title w = (Dom.Ok r, w') ->
      Forall Shape.harvested_item r)
  /\ (forall element w r w',
        Harvest.from_siblings dv element main_title w = (Dom.Ok r, w') ->
        Forall Shape.harvested_item r).
Proof.
  intros. split.
  - intros w r w' H. exact (HarvestShape.from_page_shape dv _ _ _ _ H).
  - intros element w r w' H.
    exact (HarvestShape.from_siblings_shape dv _ _ _ _ _ H).
Qed.

Lemma fallback_paths_return_clean_items_witness :
  Forall Shape.harvested_item ["Item1"; "Item2"].
Proof.
  destruct (fallback_paths_return_clean_items bool nat Fixtures.toggle_view
              "Business") as [H _].
  apply (H true ["Item1"; "Item2"] true). vm_compute. reflexivity.
Defined.

(** X3: the items the harvest takes from the element an explicit target
    id points at are non-empty and pairwise different. *)
Theorem target_items_distinct :
  forall W Elem (dv : Dom.DocumentView W Elem) (target_id : string) (w w' : W)
         (r : list string),
  Harvest.from_target dv target_id w = (Dom.Ok r, w') ->
  NoDup r /\ Forall (fun s => s <> "") r.
Proof. intros. eapply HarvestShape.from_target_shape; eassumption. Qed.

Lemma target_items_distinct_witness :
  NoDup ["Business Management"] /\ Forall (fun s => s <> "") ["Business Management"].
Proof.
  apply (target_items_distinct unit nat
           (Fixtures.static_view Fixtures.linked_page) "p1" tt tt).
  vm_compute. reflexivity.
Defined.

(* ------------------------------------------------------------------ *)
(** ** What the discovery returns *)

Module DiscoveryShape.
Import PyStr Dom Dict Engine Spec Shape Facts.

Lemma add_candidate_titled {Elem} : forall (mp : list (candidate Elem)) el text,
  titled mp -> titled (add_candidate mp el text).
Proof.
  intros mp el text H. unfold add_candidate.
  destruct (negb (text =? "")%string && (1 <? String.length (strip text))) eqn:E;
    [|exact H].
  destruct (existsb (fun p => (title p =? strip text)%string) mp); [exact H|].
  apply andb_true_iff in E. destruct E as [_ E].
  apply Forall_app. split; [exact H|]. constructor; [|constructor].
  split; [apply strip_idem | now apply Nat.ltb_lt].
Qed.

Section WithView.
Context {W Elem : Type} (dv : DocumentView W Elem).

Lemma scan_elements_titled : forall els mp w,
  titled mp -> titled (fst (fst (scan_elements dv els mp w))).
Proof.
  induction els as [|el rest IH]; intros mp w H; simpl.
  - exact H.
  - destruct (inner_text dv el w) as [[text|e] w'].
    + apply IH. now apply add_candidate_titled.
    + exact H.
Qed.

Lemma scan_family_titled : forall content sel mp w,
  titled mp -> titled (fst (fst (scan_family dv content sel mp w))).
Proof.
  intros content sel mp w H. unfold scan_family.
  destruct (query_selector_all dv content sel w) as [[[|el els]|e] w'];
    try exact H.
  pose proof (scan_elements_titled (el :: els) mp w' H) as H1.
  destruct (scan_elements dv (el :: els) mp w') as [[mp' [|]] w'']; exact H1.
Qed.

Lemma scan_families_titled : forall content sels mp w,
  titled mp -> titled (fst (scan_families dv content sels mp w)).
Proof.
  induction sels as [|sel rest IH]; intros mp w H; simpl.
  - exact H.
  - pose proof (scan_family_titled content sel mp w H) as H1.
    destruct (scan_family dv content sel mp w) as [[mp' [|]] w']; simpl in H1.
    + exact H1.
    + now apply IH.
Qed.

Lemma rebuilt_selector_id : forall item selector,
  rebuilt_selector item = Ok (Some selector) -> truthy (k_selector item) = true.
Proof.
  intros item selector H. unfold rebuilt_selector in H.
  destruct (truthy (k_selector item)); [reflexivity|].
  destruct (negb (k_className item =? "")%string
            && negb (k_tagName item =? "")%string); [discriminate|].
  destruct (negb (k_tagName item =? "")%string); discriminate.
Qed.

Lemma reacquire_from : forall items mp item w,
  In item items ->
  Forall (reacquired_from items) mp ->
  Forall (reacquired_from items) (fst (reacquire dv mp item w)).
Proof.
  intros items mp item w Hin H. unfold reacquire.
  destruct (rebuilt_selector item) as [[selector|]|e] eqn:E; try exact H.
  assert (Hadd : forall el, Forall (reacquired_from items)
                              (mp ++ [mkCandidate (k_text item) el])).
  { intros el. apply Forall_app. split; [exact H|]. constructor; [|constructor].
    exists item. split; [exact Hin|]. split; [|reflexivity].
    eapply rebuilt_selector_id. exact E. }
  destruct (wait_for_selector dv selector 1000 "visible" w) as [[[el|]|e] w'].
  - apply Hadd.
  - exact H.
  - destruct (startswith selector "//"); [|exact H].
    destruct (wait_for_selector dv selector 1000 "visible" w') as [[[el|]|e'] w''].
    + apply Hadd.
    + exact H.
    + exact H.
Qed.

Lemma reacquire_all_from : forall items rest mp w,
  (forall item, In item rest -> In item items) ->
  Forall (reacquired_from items) mp ->
  Forall (reacquired_from items) (fst (reacquire_all dv rest mp w)).
Proof.
  intros items. induction rest as [|item rest IH]; intros mp w Hsub H; simpl.
  - exact H.
  - pose proof (reacquire_from items mp item w (Hsub item (or_introl eq_refl)) H)
      as H1.
    destruct (reacquire dv mp item w) as [mp' w'].
    apply IH; [|exact H1]. intros it Hit. apply Hsub. now right.
Qed.

End WithView.
End DiscoveryShape.

(** X4: every category title the selector families record is trimmed
    and longer than one character. *)
Theorem discovered_titles_trimmed :
  forall W Elem (dv : Dom.DocumentView W Elem) (content : Elem)
         (selectors : list string) (w : W),
  Forall (fun c => Shape.heading_title (Engine.title c))
         (fst (Engine.scan_families dv content selectors [] w)).
Proof.
  intros. apply DiscoveryShape.scan_families_titled. constructor.
Qed.

(** X5: the clickable-element fallback of the discovery keeps a
    candidate only for an entry that carries an element id: the two
    branches that rebuild a selector from the tag name raise, and the
    entry is skipped.  With no id on any entry, or when the scan script
    raises, the fallback finds nothing. *)
Theorem clickable_fallback_needs_id :
  forall W Elem (dv : Dom.DocumentView W Elem) (w : W),
  (forall items w1,
      Dom.js_clickable_elements dv w = (Dom.Ok items, w1) ->
      Forall (Shape.reacquired_from items) (fst (Engine.scan_clickables dv w))
      /\ ((forall item, In item items -> Dom.k_selector item = None) ->
          Engine.scan_clickables dv w = ([], w1)))
  /\ (forall e w1,
        Dom.js_clickable_elements dv w = (Dom.Raised e, w1) ->
        Engine.scan_clickables dv w = ([], w1)).
Proof.
  intros. split.
  - intros items w1 H. unfold Engine.scan_clickables. rewrite H. split.
    + apply DiscoveryShape.reacquire_all_from; [auto | constructor].
    + intros Hnone. clear H. revert w1.
      assert (Hall : forall rest w1,
                 (forall item, In item rest -> Dom.k_selector item = None) ->
                 Engine.reacquire_all dv rest [] w1 = ([], w1)).
      { induction rest as [|item rest IH]; intros w1 Hn; simpl; [reflexivity|].
        unfold Engine.reacquire, Engine.rebuilt_selector.
        rewrite (Hn item (or_introl eq_refl)). simpl.
        destruct (negb (Dom.k_className item =? "")%string
                  && negb (Dom.k_tagName item =? "")%string);
          [apply IH; intros; apply Hn; now right|].
        destruct (negb (Dom.k_tagName item =? "")%string);
          apply IH; intros; apply Hn; now right. }
      intros w1. now apply Hall.
  - intros e w1 H. unfold Engine.scan_clickables. rewrite H. reflexivity.
Qed.

Lemma clickable_fallback_needs_id_witness :
  Engine.scan_clickables (Fixtures.static_view Cases.buttons_page) tt = ([], tt).
Proof.
  destruct (clickable_fallback_needs_id unit nat
              (Fixtures.static_view Cases.buttons_page) tt) as [H _].
  destruct (H (Fixtures.p_clickables Cases.buttons_page) tt eq_refl) as [_ H2].
  apply H2. intros item [<- | [<- | [<- | []]]]; reflexivity.
Defined.

(* ------------------------------------------------------------------ *)
(** ** What the clean-up loop lets through *)

Module CleaningShape.
Import PyStr Dom Dict Engine Spec Shape Facts Substring.

Lemma dedup_add_from : forall (P : string -> Prop) clean_subs c,
  P c -> Forall P clean_subs -> Forall P (dedup_add clean_subs c).
Proof.
  intros P clean_subs c Hc H. unfold dedup_add.
  destruct (negb (c =? "")%string && negb (similar_exists clean_subs c)
            && negb (mem c clean_subs)); [|exact H].
  apply Forall_app. split; [exact H | constructor; [exact Hc | constructor]].
Qed.

(** Every cleaned item is the accepted form of some sub-program. *)
Lemma clean_subprograms_accepted : forall main_title sub_programs,
  Forall (accepted_from main_title sub_programs)
         (clean_subprograms main_title sub_programs).
Proof.
  intros main_title subs. unfold clean_subprograms.
  assert (H : forall rest acc,
             (forall sub, In sub rest -> In sub subs) ->
             Forall (accepted_from main_title subs) acc ->
             Forall (accepted_from main_title subs)
                    (fold_left (clean_step main_title (repeated_elements subs))
                               rest acc)).
  { induction rest as [|sub rest IH]; intros acc Hsub Hacc; simpl; [exact Hacc|].
    apply IH; [intros; apply Hsub; now right|].
    unfold clean_step.
    destruct (accept_sub main_title (repeated_elements subs) sub) as [c|] eqn:E;
      [|exact Hacc].
    apply dedup_add_from; [|exact Hacc].
    exists sub. split; [apply Hsub; now left | exact E]. }
  apply H; [auto | constructor].
Qed.

Lemma dedup_add_length : forall clean_subs c,
  List.length (dedup_add clean_subs c) <= S (List.length clean_subs).
Proof.
  intros. unfold dedup_add.
  destruct (negb (c =? "")%string && negb (similar_exists clean_subs c)
            && negb (mem c clean_subs)).
  - rewrite length_app. simpl. lia.
  - lia.
Qed.

Lemma fold_clean_step_length : forall main_title repeated rest acc,
  List.length (fold_left (clean_step main_title repeated) rest acc)
  <= List.length acc + List.length rest.
Proof.
  induction rest as [|sub rest IH]; intros acc; simpl; [lia|].
  specialize (IH (clean_step main_title repeated acc sub)).
  assert (List.length (clean_step main_title repeated acc sub)
          <= S (List.length acc)).
  { unfold clean_step. destruct (accept_sub main_title repeated sub).
    - apply dedup_add_length.
    - lia. }
  lia.
Qed.

(** What [shorten] returns, and from what. *)
Lemma shorten_cases : forall s c,
  shorten s = Some c ->
  (c = s /\ String.length s <= 100)
  \/ (c = strip (first_line s) /\ 100 < String.length s
      /\ String.length c < 100
      /\ existsb (fun nav => contains (lower nav) (lower c)) nav_elements = false).
Proof.
  unfold shorten. intros s c H.
  destruct (100 <? String.length s) eqn:E.
  - match type of H with
    | (if ?b then _ else _) = _ => destruct b eqn:E1; [|discriminate]
    end.
    inversion H; subst c. right.
    apply andb_true_iff in E1. destruct E1 as [E1 E3].
    apply andb_true_iff in E1. destruct E1 as [_ E2].
    split; [reflexivity|]. split; [now apply Nat.ltb_lt|].
    split; [now apply Nat.ltb_lt | now apply negb_true_iff].
  - inversion H; subst c. left. split; [reflexivity|].
    apply Nat.ltb_ge in E. exact E.
Qed.

(** The filters an accepted item has passed. *)
Lemma accept_sub_cases : forall main_title repeated sub c,
  accept_sub main_title repeated sub = Some c ->
  mem (strip sub) repeated = false
  /\ is_nav (strip sub) = false
  /\ contains "http" (lower (strip sub)) = false
  /\ contains "www." (lower (strip sub)) = false
  /\ shorten (strip sub) = Some c.
Proof.
  unfold accept_sub. intros main_title repeated sub c H.
  destruct ((sub =? "")%string || (String.length (strip sub) <? 3));
    [discriminate|].
  destruct (mem (strip sub) repeated); [discriminate|].
  destruct (is_nav (strip sub)); [discriminate|].
  destruct (strip sub =? strip main_title)%string; [discriminate|].
  destruct (contains "http" (lower (strip sub))
            || contains "www." (lower (strip sub))) eqn:E; [discriminate|].
  apply orb_false_iff in E. destruct E as [E1 E2].
  destruct (Re.search re_date (strip sub)
            || Re.search_anchored re_numeric (strip sub)); [discriminate|].
  auto.
Qed.

Lemma accepted_within : forall main_title repeated sub c,
  accept_sub main_title repeated sub = Some c -> within c sub.
Proof.
  intros main_title repeated sub c H.
  apply accept_sub_cases in H. destruct H as (_ & _ & _ & _ & H).
  apply shorten_cases in H. destruct H as [[E _] | [E _]]; subst c.
  - apply strip_within.
  - eapply within_trans; [apply strip_within|].
    eapply within_trans; [apply first_line_within | apply strip_within].
Qed.

Lemma no_nav_inside : forall c,
  existsb (fun nav => contains (lower nav) (lower c)) nav_elements = false ->
  is_nav c = false.
Proof.
  intros c H. destruct (is_nav c) eqn:E; [|reflexivity].
  unfold is_nav in E.
  apply existsb_exists in E. destruct E as (nav & Hin & Hnav).
  assert (Hc : contains (lower nav) (lower c) = true).
  { apply orb_true_iff in Hnav. destruct Hnav as [He | Hl].
    - apply String.eqb_eq in He. rewrite He.
      apply contains_iff. apply within_refl.
    - apply andb_true_iff in Hl. apply Hl. }
  assert (Ht : existsb (fun nav => contains (lower nav) (lower c)) nav_elements
               = true).
  { apply existsb_exists. exists nav. split; assumption. }
  congruence.
Qed.

(** *** The count of repeated items *)

Lemma count_fold : forall subs d x,
  get (fold_left count_step subs d) x
  = match get d x, List.length (filter (fun sub => counted sub x) subs) with
    | None, 0 => None
    | None, n => Some n
    | Some n0, n => Some (n0 + n)
    end.
Proof.
  induction subs as [|sub subs IH]; intros d x.
  - simpl. destruct (get d x); [f_equal; lia | reflexivity].
  - cbn [fold_left filter]. rewrite IH. unfold count_step, counted.
    destruct (negb (sub =? "")%string && negb (strip sub =? "")%string) eqn:Eg;
      cbn [andb].
    + destruct (strip sub =? x)%string eqn:Ex.
      * apply String.eqb_eq in Ex. subst x. rewrite get_set_same. cbn [List.length].
        destruct (get d (strip sub)); f_equal; lia.
      * apply String.eqb_neq in Ex. rewrite get_set_other by exact Ex.
        reflexivity.
    + reflexivity.
Qed.

Lemma count_duplicates_get : forall subs x,
  get (count_duplicates subs) x
  = match occurrences x subs with 0 => None | n => Some n end.
Proof.
  intros. unfold count_duplicates, occurrences.
  change (fold_left _ subs []) with (fold_left count_step subs []).
  rewrite count_fold. reflexivity.
Qed.

Lemma count_step_nodup : forall d sub, NoDup (keys d) -> NoDup (keys (count_step d sub)).
Proof.
  intros d sub H. unfold count_step.
  destruct (negb (sub =? "")%string && negb (strip sub =? "")%string);
    [now apply keys_set_nodup | exact H].
Qed.

Lemma count_duplicates_nodup : forall subs, NoDup (keys (count_duplicates subs)).
Proof.
  intros. unfold count_duplicates.
  change (fold_left _ subs []) with (fold_left count_step subs []).
  apply (fold_left_invariant (fun d => NoDup (keys d)) (fun _ => True)).
  - intros acc x _ H. now apply count_step_nodup.
  - apply Forall_trivial.
  - constructor.
Qed.

Lemma get_in {V} : forall (d : dict V) k v, get d k = Some v -> In (k, v) d.
Proof.
  induction d as [|[k0 v0] r IH]; intros k v H; simpl in H; [discriminate|].
  destruct (k0 =? k)%string eqn:E.
  - apply String.eqb_eq in E. inversion H; subst. now left.
  - right. now apply IH.
Qed.

Lemma in_get {V} : forall (d : dict V) k v,
  NoDup (keys d) -> In (k, v) d -> get d k = Some v.
Proof.
  induction d as [|[k0 v0] r IH]; intros k v Hd Hin; [destruct Hin|].
  inversion Hd as [|? ? Hn Hr]; subst. simpl.
  destruct Hin as [E | Hin].
  - inversion E; subst. now rewrite String.eqb_refl.
  - destruct (k0 =? k)%string eqn:E.
    + apply String.eqb_eq in E. subst k0. exfalso. apply Hn.
      unfold keys. apply in_map_iff. exists (k, v). split; [reflexivity | exact Hin].
    + now apply IH.
Qed.

Lemma repeated_elements_iff : forall subs x,
  In x (repeated_elements subs) <-> 3 <= occurrences x subs.
Proof.
  intros subs x. unfold repeated_elements. rewrite in_map_iff. split.
  - intros ([k n] & Hk & Hin). simpl in Hk. subst k.
    apply filter_In in Hin. destruct Hin as [Hin Hn]. cbn [snd] in Hn.
    apply Nat.leb_le in Hn.
    apply (in_get _ _ _ (count_duplicates_nodup subs)) in Hin.
    rewrite count_duplicates_get in Hin.
    destruct (occurrences x subs); [discriminate|]. inversion Hin; subst. exact Hn.
  - intros H. exists (x, occurrences x subs). split; [reflexivity|].
    apply filter_In. split; [|cbn [snd]; now apply Nat.leb_le].
    apply get_in. rewrite count_duplicates_get.
    destruct (occurrences x subs); [lia | reflexivity].
Qed.

End CleaningShape.

(** X6: every item the clean-up loop keeps occurs literally inside one
    of the harvested strings, is at most 100 characters long, and the
    cleaned list is never longer than the harvested one. *)
Theorem cleaned_items_bounded : forall main_title sub_programs,
  Forall (fun c => String.length c <= 100
                   /\ exists sub, In sub sub_programs /\ Substring.within c sub)
         (Engine.clean_subprograms main_title sub_programs)
  /\ List.length (Engine.clean_subprograms main_title sub_programs)
     <= List.length sub_programs.
Proof.
  intros main_title subs. split.
  - eapply Forall_impl; [|apply CleaningShape.clean_subprograms_accepted].
    intros c (sub & Hin & Hacc). split.
    + apply CleaningShape.accept_sub_cases in Hacc.
      destruct Hacc as (_ & _ & _ & _ & Hs).
      apply CleaningShape.shorten_cases in Hs.
      destruct Hs as [[E Hl] | (_ & _ & Hl & _)]; [subst c; exact Hl | lia].
    + exists sub. split; [exact Hin|].
      eapply CleaningShape.accepted_within. exact Hacc.
  - unfold Engine.clean_subprograms.
    pose proof (CleaningShape.fold_clean_step_length main_title
                  (Engine.repeated_elements subs) subs []) as H.
    simpl in H. exact H.
Qed.

(** X7: no item the clean-up loop keeps mentions "http" or "www."
    case-insensitively, and none is a word of the loop's navigation list
    or contains one of its words of more than four letters. *)
Theorem cleaned_items_free_of_links_and_navigation : forall main_title sub_programs,
  Forall (fun c => PyStr.contains "http" (PyStr.lower c) = false
                   /\ PyStr.contains "www." (PyStr.lower c) = false
                   /\ Engine.is_nav c = false)
         (Engine.clean_subprograms main_title sub_programs).
Proof.
  intros main_title subs.
  eapply Forall_impl; [|apply CleaningShape.clean_subprograms_accepted].
  intros c (sub & Hin & Hacc).
  apply CleaningShape.accept_sub_cases in Hacc.
  destruct Hacc as (_ & Hnav & Hh & Hw & Hs).
  apply CleaningShape.shorten_cases in Hs.
  destruct Hs as [[E _] | (E & _ & _ & Hn)].
  - subst c. auto.
  - assert (Hin' : Substring.within (PyStr.lower c) (PyStr.lower (PyStr.strip sub))).
    { apply Substring.within_lower. subst c.
      eapply Substring.within_trans;
        [apply Substring.strip_within | apply Substring.first_line_within]. }
    split; [exact (Substring.not_contains_within _ _ _ Hin' Hh)|].
    split; [exact (Substring.not_contains_within _ _ _ Hin' Hw)|].
    now apply CleaningShape.no_nav_inside.
Qed.

(** X8: the loop that counts duplicates gives, for every string, the
    number of non-blank harvested items whose trimmed text is that
    string, and the repeated elements are exactly the strings counted
    three times or more. *)
Theorem duplicate_count_counts : forall sub_programs x,
  Dict.get (Engine.count_duplicates sub_programs) x
  = match Shape.occurrences x sub_programs with 0 => None | n => Some n end
  /\ (In x (Engine.repeated_elements sub_programs)
      <-> 3 <= Shape.occurrences x sub_programs).
Proof.
  intros. split.
  - apply CleaningShape.count_duplicates_get.
  - apply CleaningShape.repeated_elements_iff.
Qed.

(** X9: an item harvested three times or more for one category is taken
    for navigation and dropped: it does not reach the cleaned list,
    unless it is also the first line of an over-long item. *)
Theorem repeated_items_dropped : forall main_title sub_programs x,
  In x (Engine.clean_subprograms main_title sub_programs) ->
  Shape.occurrences x sub_programs < 3
  \/ exists sub, In sub sub_programs
                 /\ 100 < String.length (PyStr.strip sub)
                 /\ x = PyStr.strip (PyStr.first_line (PyStr.strip sub)).
Proof.
  intros main_title subs x Hin.
  pose proof (CleaningShape.clean_subprograms_accepted main_title subs) as H.
  rewrite Forall_forall in H. destruct (H x Hin) as (sub & Hsub & Hacc).
  apply CleaningShape.accept_sub_cases in Hacc.
  destruct Hacc as (Hrep & _ & _ & _ & Hs).
  apply CleaningShape.shorten_cases in Hs.
  destruct Hs as [[E _] | (E & Hl & _)].
  - left. subst x.
    destruct (Nat.lt_ge_cases (Shape.occurrences (PyStr.strip sub) subs) 3)
      as [Hlt | Hge]; [exact Hlt|].
    apply CleaningShape.repeated_elements_iff in Hge.
    apply Serialisation.mem_In in Hge. congruence.
  - right. exists sub. auto.
Qed.

Lemma repeated_items_dropped_witness :
  Shape.occurrences "Diploma in IT" ["Diploma in IT"; "Apply"; " Diploma in IT "] < 3
  \/ exists sub, In sub ["Diploma in IT"; "Apply"; " Diploma in IT "]
                 /\ 100 < String.length (PyStr.strip sub)
                 /\ "Diploma in IT" = PyStr.strip (PyStr.first_line (PyStr.strip sub)).
Proof.
  apply (repeated_items_dropped "Courses"). vm_compute. now left.
Defined.

(* ------------------------------------------------------------------ *)
(** ** The programs field from the engine to the saved file *)

Module FieldFacts.
Import PyStr Dom Dict Engine Spec Shape Facts Substring Serialisation.

Lemma finalize_unstructured : forall dd flat,
  get dd "programs_offered" = None ->
  get (finalize dd [] flat) "programs" = Some "N/A".
Proof.
  intros dd flat H. unfold finalize.
  do 3 (rewrite get_del_other by discriminate).
  destruct flat as [|f flat].
  - destruct (has dd "programs").
    + rewrite H. apply get_set_same.
    + rewrite (get_set_other dd "programs" "programs_offered") by discriminate.
      rewrite H. apply get_set_same.
  - rewrite (get_set_other dd "programs" "programs_offered") by discriminate.
    rewrite H. apply get_set_same.
Qed.

(** *** The flat list and the record *)

Lemma set_twice {V} : forall (d : dict V) k a b,
  set (set d k a) k b = set d k b.
Proof.
  induction d as [|[k' v'] r IH]; intros k a b; simpl.
  - now rewrite String.eqb_refl.
  - destruct (k' =? k)%string eqn:E; simpl.
    + now rewrite String.eqb_refl.
    + now rewrite E, IH.
Qed.

Lemma finalize_ignores_flat : forall dd ps flat,
  finalize dd ps flat = finalize dd ps [].
Proof.
  intros dd ps flat. unfold finalize. destruct flat as [|f flat]; [reflexivity|].
  destruct ps as [|p ps].
  - rewrite set_twice.
    rewrite (get_set_other dd "programs" "programs_offered") by discriminate.
    destruct (has dd "programs"); [reflexivity|].
    rewrite set_twice.
    now rewrite (get_set_other dd "programs" "programs_offered") by discriminate.
  - destruct (has dd "programs"); [reflexivity|]. now rewrite set_twice.
Qed.

(** *** Cleaning a saved field again *)

Lemma split_on_pieces : forall c s,
  Forall (fun piece => contains (String c "") piece = false) (split_on c s).
Proof.
  induction s as [|a s IH]; simpl.
  - constructor; [reflexivity | constructor].
  - destruct (Ascii.eqb a c) eqn:E.
    + constructor; [reflexivity | exact IH].
    + destruct (split_on c s) as [|h t].
      * constructor; [|constructor].
        change (contains (String c "") (String a ""))
          with (Ascii.eqb c a && startswith "" "" || contains (String c "") "").
        rewrite Ascii.eqb_sym, E. reflexivity.
      * inversion IH; subst. constructor; [|assumption].
        change (contains (String c "") (String a h))
          with (Ascii.eqb c a && startswith h "" || contains (String c "") h).
        rewrite Ascii.eqb_sym, E. assumption.
Qed.

Lemma cleaned_programs_segments : forall programs,
  Forall (fun s => segment s /\ has_save_nav s = false) (cleaned_programs programs)
  /\ NoDup (cleaned_programs programs).
Proof.
  intros programs. unfold cleaned_programs.
  destruct (fold_save_step (split_on ";" programs) [] (NoDup_nil _)) as [Hd Hin].
  split; [|exact Hd]. apply Forall_forall. intros s Hs.
  apply Hin in Hs. destruct Hs as [[] | (Hmap & Hne & Hnav)].
  apply in_map_iff in Hmap. destruct Hmap as (piece & Hp & Hpiece).
  split; [|exact Hnav]. split; [exact Hne|]. split.
  - subst s. apply strip_idem.
  - subst s. apply (not_contains_within ";" _ piece); [apply strip_within|].
    pose proof (split_on_pieces ";" programs) as Hall.
    rewrite Forall_forall in Hall. exact (Hall piece Hpiece).
Qed.

Lemma fold_save_step_kept : forall l acc,
  NoDup (acc ++ l) ->
  Forall (fun s => segment s /\ has_save_nav s = false) l ->
  fold_left save_step l acc = acc ++ l.
Proof.
  induction l as [|x l IH]; intros acc Hd Hl; simpl.
  - now rewrite app_nil_r.
  - inversion Hl as [|? ? [(Hne & Hs & _) Hnav] Hl']; subst.
    assert (Hstep : save_step acc x = acc ++ [x]).
    { unfold save_step. rewrite Hs, Hnav.
      apply String.eqb_neq in Hne. rewrite Hne. simpl.
      destruct (mem x acc) eqn:Hm; [|reflexivity].
      apply mem_In in Hm. apply NoDup_remove_2 in Hd.
      exfalso. apply Hd. apply in_or_app. now left. }
    rewrite Hstep, IH; [now rewrite <- app_assoc | now rewrite <- app_assoc | exact Hl'].
Qed.

Lemma clean_saved_idem : forall programs,
  clean_saved_programs (clean_saved_programs programs)
  = clean_saved_programs programs.
Proof.
  intros programs. unfold clean_saved_programs at 2 3.
  destruct (cleaned_programs_segments programs) as [Hseg Hd].
  destruct (cleaned_programs programs) as [|s kept] eqn:E.
  - vm_compute. reflexivity.
  - unfold clean_saved_programs, or_na at 2.
    assert (Hseg' : Forall segment (s :: kept)).
    { eapply Forall_impl; [|exact Hseg]. intros a [Ha _]. exact Ha. }
    rewrite (cleaned_programs_joined s kept Hseg').
    rewrite (fold_save_step_kept (s :: kept) [] Hd Hseg). reflexivity.
Qed.

(** *** The text fallback *)

Lemma rstrip_char_end : forall c s, endswith_char (rstrip_char c s) c = false.
Proof.
  induction s as [|a r IH]; [reflexivity|].
  change (rstrip_char c (String a r))
    with (match rstrip_char c r with
          | EmptyString => if Ascii.eqb a c then EmptyString else String a EmptyString
          | r' => String a r'
          end).
  destruct (rstrip_char c r) as [|d r'] eqn:E.
  - destruct (Ascii.eqb a c) eqn:Ea; [reflexivity | exact Ea].
  - exact IH.
Qed.

Lemma text_entry_append : forall d key item,
  is_main_program item = false -> clean_item item ->
  Forall text_entry d -> Forall text_entry (append_to d key item).
Proof.
  intros d key item Hm Hc. induction d as [|[k v] r IH]; simpl; intros H.
  - constructor.
  - inversion H as [|? ? [Hk Hv] Hr]; subst.
    destruct (k =? key)%string.
    + constructor; [|exact Hr].
      split; [exact Hk|]. simpl. apply Forall_app. split; [exact Hv|].
      constructor; [now split | constructor].
    + constructor; [now split | now apply IH].
Qed.

Lemma text_step_entries : forall st line,
  clean_item line -> Forall text_entry (snd st) ->
  Forall text_entry (snd (text_step st line)).
Proof.
  intros [current ps] line [Hne Hs] H. unfold text_step.
  destruct (is_main_program line) eqn:Em; simpl.
  - apply forall_set; [|exact H]. split; [apply rstrip_char_end | constructor].
  - destruct current as [current|]; simpl; [|exact H].
    destruct (negb (current =? "")%string && negb (line =? "")%string);
      simpl; [|exact H].
    apply text_entry_append; [now rewrite Hs | split; now rewrite Hs | exact H].
Qed.

Lemma parse_text_entries : forall content_text,
  Forall text_entry (parse_text content_text).
Proof.
  intros. unfold parse_text.
  destruct (content_text =? "")%string; [constructor|].
  apply (fold_left_invariant (fun st => Forall text_entry (snd st)) clean_item).
  - intros acc x Hx H. now apply text_step_entries.
  - apply Cleaning.text_lines_clean.
  - constructor.
Qed.

(** *** The final clean-up *)

Lemma final_cleanup_programs : forall provider,
  get (Closing.final_cleanup provider) "programs"
  = Some (match get provider "programs" with
          | Some programs => if (programs =? "")%string then "N/A" else programs
          | None => "N/A"
          end).
Proof.
  intros provider. unfold Closing.final_cleanup.
  assert (E : get (del (del (del provider "programs_offered") "program_structure")
                       "formatted_programs") "programs" = get provider "programs").
  { do 3 (rewrite get_del_other by discriminate). reflexivity. }
  destruct (get provider "programs") as [v0|] eqn:Ep; rewrite E.
  - destruct (v0 =? "")%string eqn:Ev.
    + apply get_set_same.
    + exact E.
  - apply get_set_same.
Qed.

End FieldFacts.

(** X10: the flat list never reaches the record: the finished record
    is the same whatever the flat fallback collected.  When the engine
    finds no category structure the programs field is "N/A"; so the
    programs field of a finished record is "N/A", the locator or the
    extraction having given nothing, or the serialisation of the
    non-empty structure the extraction returned. *)
Theorem flat_programs_never_recorded :
  (forall (detailed_data : Dict.dict string) program_structure flat1 flat2,
      Engine.finalize detailed_data program_structure flat1
      = Engine.finalize detailed_data program_structure flat2)
  /\ (forall (detailed_data : Dict.dict string) flat_programs,
        Dict.get detailed_data "programs_offered" = None ->
        Dict.get (Engine.finalize detailed_data [] flat_programs) "programs"
        = Some "N/A")
  /\ (forall W Elem (dv : Dom.DocumentView W Elem)
             (detailed_data : Dict.dict string) (w : W),
        Dict.get detailed_data "programs_offered" = None ->
        exists record w',
          Engine.locate_and_build dv detailed_data w = (Dom.Ok record, w')
          /\ ((Dict.get record "programs" = Some "N/A"
               /\ (Locator.click_and_expand_accordion dv "Programs Offered" w
                   = (Dom.Ok None, w')
                   \/ (exists e,
                         Locator.click_and_expand_accordion dv "Programs Offered" w
                         = (Dom.Raised e, w'))
                   \/ exists content w1 flat_programs,
                        Locator.click_and_expand_accordion dv "Programs Offered" w
                        = (Dom.Ok (Some content), w1)
                        /\ Engine.extract_structure dv content w1
                           = (([], flat_programs), w')))
              \/ exists content w1 program_structure flat_programs,
                   Locator.click_and_expand_accordion dv "Programs Offered" w
                   = (Dom.Ok (Some content), w1)
                   /\ Engine.extract_structure dv content w1
                      = ((program_structure, flat_programs), w')
                   /\ program_structure <> []
                   /\ Dict.get record "programs"
                      = Some (Engine.serialize program_structure))).
Proof.
  split; [|split].
  - intros dd ps flat1 flat2.
    rewrite (FieldFacts.finalize_ignores_flat dd ps flat1).
    now rewrite (FieldFacts.finalize_ignores_flat dd ps flat2).
  - intros dd flat Hdd. now apply FieldFacts.finalize_unstructured.
  - intros W Elem dv dd w Hdd. unfold Engine.locate_and_build.
    destruct (Locator.click_and_expand_accordion dv "Programs Offered" w)
      as [[[content|]|e] w1] eqn:Hl.
    + destruct (Engine.extract_structure dv content w1) as [[ps flat] w2] eqn:He.
      eexists. exists w2. split; [reflexivity|]. destruct ps as [|p ps].
      * left. split; [now apply FieldFacts.finalize_unstructured|].
        right. right. now exists content, w1, flat.
      * right. exists content, w1, (p :: ps), flat.
        split; [reflexivity|]. split; [exact He|]. split; [discriminate|].
        apply Serialisation.finalize_structured. discriminate.
    + eexists. exists w1. split; [reflexivity|]. left.
      split; [now apply FieldFacts.finalize_unstructured | now left].
    + eexists. exists w1. split; [reflexivity|]. left.
      split; [now apply FieldFacts.finalize_unstructured|].
      right. left. now exists e.
Qed.

Lemma flat_programs_never_recorded_witness :
  Dict.get (Engine.finalize
              (Engine.detail_record "Institute" "Dubai" "N/A" "N/A" "N/A" "N/A" "N/A")
              [] ["Diploma in Accounting"; "Diploma in Marketing"]) "programs"
  = Some "N/A".
Proof.
  destruct flat_programs_never_recorded as (_ & H & _).
  apply H. reflexivity.
Defined.

(** X11: the save-time clean-up of the programs field is idempotent:
    cleaning a cleaned value gives it back. *)
Theorem save_cleanup_idempotent : forall programs,
  Engine.clean_saved_programs (Engine.clean_saved_programs programs)
  = Engine.clean_saved_programs programs.
Proof. exact FieldFacts.clean_saved_idem. Qed.

(** X12: in a structure read off the flattened text, no category key
    ends with a colon, and no item is a line the parser takes for a
    header; every item is non-empty and trimmed. *)
Theorem text_structure_separates_headers : forall content_text,
  Forall (fun entry =>
            PyStr.endswith_char (fst entry) ":" = false
            /\ Forall (fun item => Engine.is_main_program item = false
                                   /\ Spec.clean_item item) (snd entry))
         (Engine.parse_text content_text).
Proof. exact FieldFacts.parse_text_entries. Qed.

(** X13: after the clean-up that precedes the final save every record
    has a non-empty programs field: a non-empty value is kept as it is,
    a missing or empty one becomes "N/A". *)
Theorem final_cleanup_fills_programs : forall provider,
  Dict.get (Closing.final_cleanup provider) "programs"
  = Some (match Dict.get provider "programs" with
          | Some programs => if (programs =? "")%string then "N/A" else programs
          | None => "N/A"
          end)
  /\ exists v,
       Dict.get (Closing.final_cleanup provider) "programs" = Some v /\ v <> "".
Proof.
  intros provider. split; [apply FieldFacts.final_cleanup_programs|].
  rewrite FieldFacts.final_cleanup_programs.
  destruct (Dict.get provider "programs") as [v0|].
  - destruct (v0 =? "")%string eqn:Ev.
    + exists "N/A". split; [reflexivity | discriminate].
    + exists v0. split; [reflexivity | now apply String.eqb_neq].
  - exists "N/A". split; [reflexivity | discriminate].
Qed.

(* ------------------------------------------------------------------ *)
(** ** The listing page *)

Module ListingFacts.
Import PyStr PyMore Listing Facts Substring.

(** *** Decimal numerals *)

Lemma numeral_digits : forall d,
  all_chars isdigit (DecimalString.NilEmpty.string_of_uint d) = true.
Proof. induction d; simpl; auto. Qed.

Lemma str_of_nat_digits : forall n, all_chars isdigit (str_of_nat n) = true.
Proof. intros. apply numeral_digits. Qed.

Lemma str_of_nat_nonempty : forall n, str_of_nat n <> "".
Proof.
  intros n H. unfold str_of_nat in H.
  assert (Hn : Nat.to_uint n <> Decimal.Nil).
  { rewrite <- (DecimalNat.Unsigned.of_to n) at 1.
    rewrite DecimalNat.Unsigned.to_of. apply DecimalFacts.unorm_nonnil. }
  destruct (Nat.to_uint n); simpl in H; congruence.
Qed.

Lemma int_of_str : forall n, int_of_digits (str_of_nat n) = n.
Proof.
  intros. unfold int_of_digits, str_of_nat.
  rewrite DecimalString.NilEmpty.usu. apply DecimalNat.Unsigned.of_to.
Qed.

(** *** The search for the item count *)

Lemma take_while_digits : forall d t,
  all_chars isdigit d = true -> startswith t " " = true ->
  take_while isdigit (d +++ t) = d /\ drop_while isdigit (d +++ t) = t.
Proof.
  induction d as [|c d IH]; intros t Hd Ht; simpl.
  - apply startswith_iff in Ht. destruct Ht as [post Ht]. subst t.
    split; reflexivity.
  - simpl in Hd. apply andb_true_iff in Hd. destruct Hd as [Hc Hd].
    rewrite Hc. destruct (IH t Hd Ht) as [E1 E2]. now rewrite E1, E2.
Qed.

Lemma digit_not_o : forall c, isdigit c = true -> Ascii.eqb "o" c = false.
Proof.
  intros c H. destruct (Ascii.eqb_spec "o"%char c) as [E|E]; [|reflexivity].
  subst c. discriminate.
Qed.

Lemma match_needs_o : forall c r,
  Ascii.eqb "o" c = false -> match_of_items (String c r) = None.
Proof.
  intros c r H. unfold match_of_items.
  change (startswith (String c r) "of ")
    with (Ascii.eqb "o" c && startswith r "f ").
  now rewrite H.
Qed.

Lemma search_skips : forall pre t,
  all_chars (fun c => negb (Ascii.eqb "o" c)) pre = true ->
  search_of_items (pre +++ t) = search_of_items t.
Proof.
  induction pre as [|c pre IH]; intros t H; [reflexivity|].
  simpl in H. apply andb_true_iff in H. destruct H as [Hc Hp].
  apply negb_true_iff in Hc.
  change (String c pre +++ t) with (String c (pre +++ t)).
  cbn [search_of_items]. rewrite (match_needs_o c (pre +++ t) Hc).
  now apply IH.
Qed.

Lemma all_chars_append : forall p a b,
  all_chars p (a +++ b) = all_chars p a && all_chars p b.
Proof.
  induction a as [|c a IH]; intros b; simpl; [reflexivity|].
  now rewrite IH, andb_assoc.
Qed.

Lemma all_chars_impl : forall (p q : ascii -> bool) s,
  (forall c, p c = true -> q c = true) -> all_chars p s = true -> all_chars q s = true.
Proof.
  intros p q s Hpq. induction s as [|c s IH]; simpl; [reflexivity|].
  intros H. apply andb_true_iff in H. destruct H as [Hc Hs].
  now rewrite (Hpq c Hc), IH.
Qed.

Lemma search_estimated : forall d,
  d <> "" -> all_chars isdigit d = true ->
  search_of_items ("1 - " +++ d +++ " of " +++ d +++ " items") = Some d.
Proof.
  intros d Hne Hd.
  replace ("1 - " +++ d +++ " of " +++ d +++ " items")
    with (("1 - " +++ d +++ " ") +++ ("of " +++ d +++ " items"))
    by (rewrite !append_assoc; reflexivity).
  rewrite search_skips.
  - change ("of " +++ d +++ " items")
      with (String "o" (String "f" (String " " (d +++ " items")))).
    cbn [search_of_items]. unfold match_of_items.
    change (startswith (String "o" (String "f" (String " " (d +++ " items")))) "of ")
      with (startswith (d +++ " items") "").
    assert (E0 : startswith (d +++ " items") "" = true)
      by (destruct (d +++ " items"); reflexivity).
    rewrite E0. cbn [drop].
    destruct (take_while_digits d " items" Hd eq_refl) as [E1 E2].
    rewrite E1, E2. apply String.eqb_neq in Hne. rewrite Hne. reflexivity.
  - assert (Hd' : all_chars (fun c => negb (Ascii.eqb "o" c)) d = true).
    { apply (all_chars_impl isdigit); [|exact Hd].
      intros c Hc. now rewrite (digit_not_o c Hc). }
    rewrite !all_chars_append, Hd'. reflexivity.
Qed.

(** *** The card text *)

Lemma name_index_in : forall name lines i,
  name_index name lines = Some i -> i < List.length lines.
Proof.
  induction lines as [|line rest IH]; intros i H; simpl in H; [discriminate|].
  destruct (contains (lower (strip name)) (lower line)).
  - inversion H; subst. simpl. lia.
  - destruct (name_index name rest) as [j|]; [|discriminate].
    inversion H; subst. simpl. specialize (IH j eq_refl). lia.
Qed.

Lemma area_grounded : forall name lines,
  area_of name lines = "N/A"
  \/ (In (area_of name lines) lines
      /\ 2 < String.length (area_of name lines)
      /\ startswith (lower (area_of name lines)) "location" = false).
Proof.
  intros. unfold area_of.
  destruct (name_index name lines) as [i|]; [|now left].
  destruct (nth_error lines (i + 1)) as [p|] eqn:E; [|now left].
  destruct (negb (startswith (lower p) "location") && (2 <? String.length p)) eqn:C;
    [|now left].
  apply andb_true_iff in C. destruct C as [C1 C2]. right.
  split; [eapply nth_error_In; exact E|].
  split; [now apply Nat.ltb_lt | now apply negb_true_iff].
Qed.

Lemma mentions_when_stripped : forall line,
  strip (lower line) = "location" -> contains "location" (lower line) = true.
Proof.
  intros line H. apply contains_iff. rewrite <- H. apply strip_within.
Qed.

Lemma mentions_when_prefixed : forall line,
  startswith (lower line) "location:" = true ->
  contains "location" (lower line) = true.
Proof.
  intros line H. apply startswith_iff in H. destruct H as [post H].
  apply contains_iff. exists "", (":" +++ post). rewrite H. reflexivity.
Qed.

Lemma location_grounded : forall lines,
  location_of lines = "N/A"
  \/ exists line, In line lines /\ contains "location" (lower line) = true.
Proof.
  induction lines as [|line rest IH]; [now left|].
  cbn [location_of].
  assert (Hlast :
    (if startswith (lower line) "location:"
     then strip (replace "location:" "" line)
     else if contains "location" (lower line) && (10 <? String.length line)
          then line else "N/A") = "N/A"
    \/ exists l, In l (line :: rest) /\ contains "location" (lower l) = true).
  { destruct (startswith (lower line) "location:") eqn:E2.
    - right. exists line. split; [now left | now apply mentions_when_prefixed].
    - destruct (contains "location" (lower line) && (10 <? String.length line)) eqn:E3.
      + right. exists line. split; [now left|].
        apply andb_true_iff in E3. apply E3.
      + now left. }
  destruct rest as [|next rest']; [exact Hlast|].
  destruct (strip (lower line) =? "location")%string eqn:E1.
  - right. exists line. split; [now left|].
    apply mentions_when_stripped. now apply String.eqb_eq.
  - destruct (startswith (lower line) "location:") eqn:E2.
    + right. exists line. split; [now left | now apply mentions_when_prefixed].
    + destruct (contains "location" (lower line) && (10 <? String.length line)) eqn:E3.
      * right. exists line. split; [now left|].
        apply andb_true_iff in E3. apply E3.
      * destruct IH as [IH | (l & Hl & Hc)]; [now left|].
        right. exists l. split; [now right | exact Hc].
Qed.

(** *** File names *)

Lemma map_chars_length : forall f s, String.length (map_chars f s) = String.length s.
Proof. induction s; simpl; auto. Qed.

Lemma map_chars_all : forall (f : ascii -> ascii) (p : ascii -> bool) s,
  (forall c, p (f c) = true) -> all_chars p (map_chars f s) = true.
Proof.
  intros f p s H. induction s as [|c s IH]; simpl; [reflexivity|].
  now rewrite H, IH.
Qed.

Lemma map_chars_fixed : forall (f : ascii -> ascii) s,
  (forall c, f (f c) = f c) -> map_chars f (map_chars f s) = map_chars f s.
Proof.
  intros f s H. induction s as [|c s IH]; simpl; [reflexivity|].
  now rewrite H, IH.
Qed.

Lemma replace_char : forall a b s,
  replace (String a "") (String b "") s
  = map_chars (fun c => if Ascii.eqb a c then b else c) s.
Proof.
  intros a b. unfold replace. induction s as [|c s IH]; [reflexivity|].
  cbn [replace_from map_chars].
  change (startswith (String c s) (String a ""))
    with (Ascii.eqb a c && startswith s "").
  assert (E : startswith s "" = true) by (destruct s; reflexivity).
  rewrite E, andb_true_r. cbn [String.length Nat.sub].
  destruct (Ascii.eqb a c); simpl; now rewrite IH.
Qed.

Lemma occurs_map_chars : forall (f : ascii -> ascii) x s,
  (forall c, Ascii.eqb (f c) x = false) -> occurs x (map_chars f s) = false.
Proof.
  intros f x s H. induction s as [|c s IH]; simpl; [reflexivity|].
  now rewrite H, IH.
Qed.

Lemma map_chars_compose : forall (f g : ascii -> ascii) s,
  map_chars g (map_chars f s) = map_chars (fun c => g (f c)) s.
Proof. induction s as [|c s IH]; simpl; [reflexivity | now rewrite IH]. Qed.

Lemma map_chars_ext : forall (f g : ascii -> ascii) s,
  (forall c, f c = g c) -> map_chars f s = map_chars g s.
Proof.
  intros f g s H. induction s as [|c s IH]; simpl; [reflexivity|].
  now rewrite H, IH.
Qed.

Lemma provider_stem_map : forall name,
  provider_stem name
  = map_chars (fun c => if Ascii.eqb " " c then "_"%char
                        else if Ascii.eqb "/" c then "_"%char else c) name.
Proof.
  intros name. unfold provider_stem.
  rewrite (replace_char " " "_"), (replace_char "/" "_"), map_chars_compose.
  apply map_chars_ext. intros c. destruct (Ascii.eqb " " c); reflexivity.
Qed.

End ListingFacts.

(** X14: the item count read from the pagination text recovers the
    number written into the text that is made up when the entries are
    counted directly, and is 0 for the text used when nothing was
    counted. *)
Theorem estimated_count_round_trip : forall n,
  Listing.total_items (Listing.estimated_info n) = n
  /\ Listing.total_items Listing.unknown_info = 0.
Proof.
  intros n. split; [|vm_compute; reflexivity].
  unfold Listing.total_items, Listing.estimated_info.
  rewrite (ListingFacts.search_estimated (PyMore.str_of_nat n)
             (ListingFacts.str_of_nat_nonempty n)
             (ListingFacts.str_of_nat_digits n)).
  apply ListingFacts.int_of_str.
Qed.

(* ------------------------------------------------------------------ *)
(** ** The card of a provider on the listing page *)

Module CardFacts.
Import PyStr PyMore Dom Listing Card Facts.

Section WithCard.
Context {W Elem : Type} (cv : CardView W Elem) (handle : Elem).

(** A value found in the text is never overwritten by the selectors. *)
Lemma fill_from_kept : forall sels current w,
  current <> "N/A" -> fst (fill_from cv handle sels current w) = current.
Proof.
  induction sels as [|sel rest IH]; intros current w H; simpl; [reflexivity|].
  destruct (query_in cv handle sel w) as [[[el|]|e] w1]; try now apply IH.
  destruct (inner_text (page cv) el w1) as [[text|e] w2]; [|now apply IH].
  assert (E : (current =? "N/A")%string = false) by now apply String.eqb_neq.
  rewrite E, andb_false_r. now apply IH.
Qed.

Lemma blank_text : forall text,
  negb (text =? "")%string && negb (strip text =? "")%string = false ->
  strip text = "".
Proof.
  intros text H. apply andb_false_iff in H. destruct H as [H | H].
  - apply negb_false_iff, String.eqb_eq in H. now subst.
  - now apply negb_false_iff, String.eqb_eq in H.
Qed.

(** A field still at "N/A" takes the value of the first selector that
    has one. *)
Lemma fill_from_read : forall sels w,
  Laws.read_from cv handle sels w
    (fst (fill_from cv handle sels "N/A" w))
    (snd (fill_from cv handle sels "N/A" w))
  \/ (fst (fill_from cv handle sels "N/A" w) = "N/A"
      /\ Laws.nothing_read cv handle sels w
           (snd (fill_from cv handle sels "N/A" w))).
Proof.
  induction sels as [|sel rest IH]; intros w; cbn [fill_from].
  - right. split; [reflexivity | constructor].
  - destruct (query_in cv handle sel w) as [[[el|]|e] w1] eqn:Eq.
    + destruct (inner_text (page cv) el w1) as [[text|e] w2] eqn:Et.
      * rewrite String.eqb_refl, andb_true_r.
        destruct (negb (text =? "")%string && negb (strip text =? "")%string)
          eqn:C.
        -- left. cbn [fst snd]. apply andb_true_iff in C. destruct C as [_ C].
           apply negb_true_iff, String.eqb_neq in C.
           eapply Laws.read_from_here; eassumption.
        -- assert (Hskip : Laws.gives_nothing cv handle sel w w2).
           { right. right. exists el, w1. split; [exact Eq|]. right.
             exists text. split; [exact Et | now apply blank_text]. }
           destruct (IH w2) as [H | [H1 H2]].
           ++ left. eapply Laws.read_from_later; eassumption.
           ++ right. split; [exact H1|].
              eapply Laws.nothing_read_cons; eassumption.
      * assert (Hskip : Laws.gives_nothing cv handle sel w w2).
        { right. right. exists el, w1. split; [exact Eq|]. left. now exists e. }
        destruct (IH w2) as [H | [H1 H2]].
        -- left. eapply Laws.read_from_later; eassumption.
        -- right. split; [exact H1|].
           eapply Laws.nothing_read_cons; eassumption.
    + assert (Hskip : Laws.gives_nothing cv handle sel w w1)
        by (right; left; exact Eq).
      destruct (IH w1) as [H | [H1 H2]].
      * left. eapply Laws.read_from_later; eassumption.
      * right. split; [exact H1|].
        eapply Laws.nothing_read_cons; eassumption.
    + assert (Hskip : Laws.gives_nothing cv handle sel w w1)
        by (left; now exists e).
      destruct (IH w1) as [H | [H1 H2]].
      * left. eapply Laws.read_from_later; eassumption.
      * right. split; [exact H1|].
        eapply Laws.nothing_read_cons; eassumption.
Qed.

(** The loop of one field, whatever the text gave. *)
Lemma fill_from_cases : forall sels current w,
  (current <> "N/A" /\ fst (fill_from cv handle sels current w) = current)
  \/ (current = "N/A"
      /\ (Laws.read_from cv handle sels w
            (fst (fill_from cv handle sels current w))
            (snd (fill_from cv handle sels current w))
          \/ (fst (fill_from cv handle sels current w) = "N/A"
              /\ Laws.nothing_read cv handle sels w
                   (snd (fill_from cv handle sels current w))))).
Proof.
  intros sels current w. destruct (String.eqb_spec current "N/A") as [E | E].
  - right. split; [exact E|]. subst current. apply fill_from_read.
  - left. split; [exact E | now apply fill_from_kept].
Qed.

End WithCard.
End CardFacts.

(** X15: the area recorded for a listing card is the line the analysis
    of the card text picks, a line of the card longer than two
    characters that does not start with "location" in any letter case;
    only when the text gives none it is the trimmed text, not blank, of
    the element the first area selector with such a text finds inside
    the card, and "N/A" when no selector has one.  The location is
    found in the same way: the analysis of the text reports one only
    when a line of the card mentions "location", and the location
    selectors are tried only when it reports none.  When the card or
    its text cannot be read both values are "N/A". *)
Theorem card_fields_grounded :
  forall W Elem (cv : Card.CardView W Elem) (link : Elem) (name : string) (w : W),
  match Card.closest_card cv link w with
  | (Dom.Ok true, w1) =>
      match Card.closest_handle cv link w1 with
      | (Dom.Ok (Some handle), w2) =>
          match Dom.inner_text (Card.page cv) handle w2 with
          | (Dom.Ok card_text, w3) =>
              let lines := Engine.text_lines card_text in
              let area := fst (fst (Card.card_fields cv link name w)) in
              let location := snd (fst (Card.card_fields cv link name w)) in
              let w4 := snd (Card.fill_from cv handle Card.area_selectors
                               (Listing.area_of name lines) w3) in
              let w5 := snd (Card.card_fields cv link name w) in
              ((Listing.area_of name lines <> "N/A"
                /\ area = Listing.area_of name lines
                /\ In area lines /\ 2 < String.length area
                /\ PyStr.startswith (PyStr.lower area) "location" = false)
               \/ (Listing.area_of name lines = "N/A"
                   /\ (Laws.read_from cv handle Card.area_selectors w3 area w4
                       \/ (area = "N/A"
                           /\ Laws.nothing_read cv handle Card.area_selectors
                                w3 w4))))
              /\ ((Listing.location_of lines <> "N/A"
                   /\ location = Listing.location_of lines
                   /\ exists line,
                        In line lines
                        /\ PyStr.contains "location" (PyStr.lower line) = true)
                  \/ (Listing.location_of lines = "N/A"
                      /\ (Laws.read_from cv handle Card.location_selectors
                            w4 location w5
                          \/ (location = "N/A"
                              /\ Laws.nothing_read cv handle
                                   Card.location_selectors w4 w5))))
          | (Dom.Raised _, w3) =>
              Card.card_fields cv link name w = (("N/A", "N/A"), w3)
          end
      | (_, w2) => Card.card_fields cv link name w = (("N/A", "N/A"), w2)
      end
  | (_, w1) => Card.card_fields cv link name w = (("N/A", "N/A"), w1)
  end.
Proof.
  intros W Elem cv link name w. unfold Card.card_fields.
  destruct (Card.closest_card cv link w) as [[[|]|e] w1]; try reflexivity.
  destruct (Card.closest_handle cv link w1) as [[[handle|]|e] w2];
    try reflexivity.
  destruct (Dom.inner_text (Card.page cv) handle w2) as [[card_text|e] w3];
    [|reflexivity].
  pose proof (CardFacts.fill_from_cases cv handle Card.area_selectors
                (Listing.area_of name (Engine.text_lines card_text)) w3) as Ha.
  destruct (Card.fill_from cv handle Card.area_selectors
              (Listing.area_of name (Engine.text_lines card_text)) w3)
    as [area w4].
  pose proof (CardFacts.fill_from_cases cv handle Card.location_selectors
                (Listing.location_of (Engine.text_lines card_text)) w4) as Hl.
  destruct (Card.fill_from cv handle Card.location_selectors
              (Listing.location_of (Engine.text_lines card_text)) w4)
    as [location w5].
  cbn [fst snd] in *. split.
  - destruct Ha as [[Hne Ha] | [He Ha]]; [left | right; now split].
    split; [exact Hne|]. split; [exact Ha|]. subst area.
    destruct (ListingFacts.area_grounded name (Engine.text_lines card_text))
      as [E | H]; [contradiction | exact H].
  - destruct Hl as [[Hne Hl] | [He Hl]]; [left | right; now split].
    split; [exact Hne|]. split; [exact Hl|].
    destruct (ListingFacts.location_grounded (Engine.text_lines card_text))
      as [E | H]; [contradiction | exact H].
Qed.

(** X16: the file name of the backup save has the length of the provider
    name and holds only alphanumeric characters and underscores; making
    a name safe twice changes nothing. *)
Theorem safe_filename_is_safe : forall name,
  String.length (Listing.safe_filename name) = String.length name
  /\ PyMore.all_chars (fun c => PyMore.isalnum c || Ascii.eqb c "_")
                      (Listing.safe_filename name) = true
  /\ Listing.safe_filename (Listing.safe_filename name) = Listing.safe_filename name.
Proof.
  intros name. unfold Listing.safe_filename. split; [|split].
  - apply ListingFacts.map_chars_length.
  - apply ListingFacts.map_chars_all. intros c.
    destruct (PyMore.isalnum c) eqn:E; [now rewrite E | reflexivity].
  - apply ListingFacts.map_chars_fixed. intros c.
    destruct (PyMore.isalnum c) eqn:E; [now rewrite E | reflexivity].
Qed.

(** X17: the stem of the provider-specific CSV file has the length of
    the provider name and contains neither a space nor a slash. *)
Theorem provider_stem_has_no_separator : forall name,
  String.length (Listing.provider_stem name) = String.length name
  /\ PyMore.occurs " " (Listing.provider_stem name) = false
  /\ PyMore.occurs "/" (Listing.provider_stem name) = false.
Proof.
  intros name. rewrite ListingFacts.provider_stem_map. split; [|split].
  - apply ListingFacts.map_chars_length.
  - apply ListingFacts.occurs_map_chars. intros c.
    destruct (Ascii.eqb_spec " "%char c) as [E|E]; [reflexivity|].
    destruct (Ascii.eqb "/" c); [reflexivity|].
    apply Ascii.eqb_neq. congruence.
  - apply ListingFacts.occurs_map_chars. intros c.
    destruct (Ascii.eqb " " c); [reflexivity|].
    destruct (Ascii.eqb_spec "/"%char c) as [E|E]; [reflexivity|].
    apply Ascii.eqb_neq. congruence.
Qed.

(* ------------------------------------------------------------------ *)
(** ** The detail page *)

Module DetailFacts.
Import PyStr PyMore Dom Detail Facts Substring.

Lemma occurs_append : forall c a b, occurs c (a +++ b) = occurs c a || occurs c b.
Proof.
  induction a as [|x a IH]; intros b; simpl; [reflexivity|].
  now rewrite IH, orb_assoc.
Qed.

Lemma contains_char : forall c s, contains (String c "") s = occurs c s.
Proof.
  induction s as [|a s IH]; [reflexivity|].
  change (contains (String c "") (String a s))
    with (Ascii.eqb c a && startswith s "" || contains (String c "") s).
  assert (E : startswith s "" = true) by (destruct s; reflexivity).
  rewrite E, andb_true_r, IH. simpl. now rewrite Ascii.eqb_sym.
Qed.

Lemma drop_append : forall a b, drop (String.length a) (a +++ b) = b.
Proof. induction a as [|x a IH]; intros b; simpl; [now destruct b | apply IH]. Qed.

(** A character that is not part of [old] survives the replacement. *)
Lemma replace_from_keeps : forall c old new,
  old <> "" -> occurs c old = false ->
  forall s skip,
    occurs c (drop skip s) = true ->
    occurs c (replace_from old new skip s) = true.
Proof.
  intros c old new Hne Hold. induction s as [|a r IH]; intros skip H.
  - destruct skip; simpl in H; discriminate.
  - destruct skip as [|k].
    + cbn [replace_from]. cbn [drop] in H.
      destruct (startswith (String a r) old) eqn:E.
      * apply startswith_iff in E. destruct E as [post E].
        destruct old as [|o old']; [congruence|].
        change (String o old' +++ post) with (String o (old' +++ post)) in E.
        inversion E; subst a r.
        rewrite occurs_append. apply orb_true_iff. right.
        apply IH. cbn [String.length Nat.sub]. rewrite Nat.sub_0_r.
        rewrite drop_append.
        change (String o (old' +++ post)) with (String o old' +++ post) in H.
        rewrite occurs_append, Hold in H. exact H.
      * simpl. simpl in H. apply orb_true_iff in H.
        apply orb_true_iff. destruct H as [H | H]; [now left|].
        right. apply IH. now destruct r.
    + cbn [replace_from]. cbn [drop] in H. now apply IH.
Qed.

Lemma replace_keeps : forall c old new s,
  old <> "" -> occurs c old = false -> occurs c s = true ->
  occurs c (replace old new s) = true.
Proof.
  intros c old new s Hne Hold H. unfold replace.
  apply replace_from_keeps; auto.
Qed.

Lemma lstrip_keeps : forall c s,
  isspace c = false -> occurs c s = true -> occurs c (lstrip s) = true.
Proof.
  intros c s Hc. induction s as [|a s IH]; simpl; [discriminate|].
  intros H. destruct (isspace a) eqn:Ea.
  - apply orb_true_iff in H. destruct H as [H | H]; [|now apply IH].
    apply Ascii.eqb_eq in H. subst a. congruence.
  - exact H.
Qed.

Lemma rstrip_keeps : forall c s,
  isspace c = false -> occurs c s = true -> occurs c (rstrip s) = true.
Proof.
  intros c s Hc. induction s as [|a s IH]; [discriminate|].
  intros H.
  change (rstrip (String a s))
    with (match rstrip s with
          | EmptyString => if isspace a then EmptyString else String a EmptyString
          | r' => String a r'
          end).
  simpl in H. apply orb_true_iff in H. destruct H as [H | H].
  - apply Ascii.eqb_eq in H. subst a. rewrite Hc.
    destruct (rstrip s); simpl; now rewrite Ascii.eqb_refl.
  - specialize (IH H). destruct (rstrip s) as [|d r']; [discriminate|].
    change (occurs c (String a (String d r')))
      with (Ascii.eqb a c || occurs c (String d r')).
    rewrite IH. apply orb_true_r.
Qed.

Lemma strip_keeps : forall c s,
  isspace c = false -> occurs c s = true -> occurs c (strip s) = true.
Proof.
  intros c s Hc H. unfold strip. apply rstrip_keeps; [exact Hc|].
  now apply lstrip_keeps.
Qed.

Section WithView.
Context {W Elem : Type} (dv : DocumentView W Elem).

Lemma find_website_external : forall selectors w,
  fst (find_website dv selectors w) = "N/A"
  \/ (contains "http" (fst (find_website dv selectors w)) = true
      /\ contains "khda.gov.ae" (fst (find_website dv selectors w)) = false).
Proof.
  induction selectors as [|sel rest IH]; intros w; simpl; [now left|].
  destruct (href_of dv sel w) as [[href|] w']; [|apply IH].
  destruct (negb (href =? "")%string && contains "http" href
            && negb (contains "khda.gov.ae" href)) eqn:E; [|apply IH].
  right. simpl.
  apply andb_true_iff in E. destruct E as [E E3].
  apply andb_true_iff in E. destruct E as [_ E2].
  split; [exact E2 | now apply negb_true_iff].
Qed.

Lemma find_email_link_address : forall selectors w,
  fst (find_email_link dv selectors w) = "N/A"
  \/ (strip (fst (find_email_link dv selectors w))
      = fst (find_email_link dv selectors w)
      /\ occurs "@" (fst (find_email_link dv selectors w)) = true).
Proof.
  induction selectors as [|sel rest IH]; intros w; simpl; [now left|].
  destruct (href_of dv sel w) as [[href|] w']; [|apply IH].
  destruct (negb (href =? "")%string && contains "@" href) eqn:E; [|apply IH].
  right. simpl. apply andb_true_iff in E. destruct E as [_ E].
  split; [apply strip_idem|].
  apply strip_keeps; [reflexivity|].
  apply replace_keeps; [discriminate | reflexivity|].
  now rewrite <- contains_char.
Qed.

Lemma find_address_trimmed : forall selectors w,
  fst (find_address dv selectors w) = "N/A"
  \/ (strip (fst (find_address dv selectors w)) = fst (find_address dv selectors w)
      /\ 5 < String.length (fst (find_address dv selectors w))).
Proof.
  induction selectors as [|sel rest IH]; intros w; simpl; [now left|].
  destruct (text_of dv sel w) as [[text|] w']; [|apply IH].
  destruct (negb (text =? "")%string && (5 <? String.length (strip text))) eqn:E;
    [|apply IH].
  right. simpl. apply andb_true_iff in E. destruct E as [_ E].
  split; [apply strip_idem | now apply Nat.ltb_lt].
Qed.

End WithView.
End DetailFacts.

(** X18: the website recorded for a provider is "N/A" or a link address
    that contains "http" and does not contain "khda.gov.ae"; the loop
    swallows every error of the document view. *)
Theorem website_is_external :
  forall W Elem (dv : Dom.DocumentView W Elem) (selectors : list string) (w : W),
  fst (Detail.find_website dv selectors w) = "N/A"
  \/ (PyStr.contains "http" (fst (Detail.find_website dv selectors w)) = true
      /\ PyStr.contains "khda.gov.ae" (fst (Detail.find_website dv selectors w))
         = false).
Proof. intros. apply DetailFacts.find_website_external. Qed.

(** X19: an e-mail address taken from a link is trimmed and contains
    "@": removing "mailto:" and the surrounding whitespace cannot take
    the "@" away.  Without such a link the loop leaves "N/A". *)
Theorem email_link_keeps_at :
  forall W Elem (dv : Dom.DocumentView W Elem) (selectors : list string) (w : W),
  fst (Detail.find_email_link dv selectors w) = "N/A"
  \/ (PyStr.strip (fst (Detail.find_email_link dv selectors w))
      = fst (Detail.find_email_link dv selectors w)
      /\ PyMore.occurs "@" (fst (Detail.find_email_link dv selectors w)) = true).
Proof. intros. apply DetailFacts.find_email_link_address. Qed.

(** X20: the address recorded for a provider is "N/A" or a trimmed text
    of more than five characters. *)
Theorem address_is_trimmed :
  forall W Elem (dv : Dom.DocumentView W Elem) (selectors : list string) (w : W),
  fst (Detail.find_address dv selectors w) = "N/A"
  \/ (PyStr.strip (fst (Detail.find_address dv selectors w))
      = fst (Detail.find_address dv selectors w)
      /\ 5 < String.length (fst (Detail.find_address dv selectors w))).
Proof. intros. apply DetailFacts.find_address_trimmed. Qed.

(* ------------------------------------------------------------------ *)
(** ** The listing walk *)

Module WalkFacts.
Import PyStr PyMore Dom Listing Walk Shape Facts.

Section WithPage.
Context {W Elem : Type} (pv : PageView W Elem).

Lemma count_items_text : forall w, fst (count_items pv w) <> "".
Proof.
  intros w. unfold count_items.
  destruct (query_all pv item_count_selector w) as [[[|item items]|e] w1];
    simpl; discriminate.
Qed.

Lemma load_attempt_text : forall w t w',
  load_attempt pv w = (Ok t, w') -> t <> "".
Proof.
  intros w t w' H. unfold load_attempt, bind in H.
  destruct (goto pv url (Some load_timeout) w) as [[u1|e] w1]; [|discriminate].
  destruct (load_state pv "domcontentloaded" load_timeout w1) as [[u2|e] w2];
    [|discriminate].
  destruct (load_state pv "networkidle" load_timeout w2) as [[u3|e] w3]; [|discriminate].
  destruct (wait_for_selector (view pv) content_selector load_timeout "visible" w3)
    as [[el|e] w4]; [|discriminate].
  pose proof (count_items_text w4) as Hc.
  destruct (find_pager_text pv pager_selectors w4) as [[text|] w5] eqn:E.
  - destruct (negb (text =? "")%string) eqn:Et.
    + inversion H; subst. now apply eqb_false_nonempty.
    + pose proof (count_items_text w5) as Hc5.
      destruct (count_items pv w5) as [t5 w6]. inversion H; subst. exact Hc5.
  - pose proof (count_items_text w5) as Hc5.
    destruct (count_items pv w5) as [t5 w6]. inversion H; subst. exact Hc5.
Qed.

Lemma load_attempts_outcome : forall n w,
  match fst (load_attempts pv (S n) w) with
  | Ok t => t <> ""
  | Raised m => exists e, m = load_failure e
  end.
Proof.
  induction n as [|k IH]; intros w.
  - cbn [load_attempts]. unfold try_catch.
    destruct (load_attempt pv w) as [[t|e] w'] eqn:E; simpl.
    + eapply load_attempt_text. exact E.
    + now exists e.
  - change (load_attempts pv (S (S k)) w)
      with (try_catch (load_attempt pv) (fun _ => load_attempts pv (S k)) w).
    unfold try_catch.
    destruct (load_attempt pv w) as [[t|e] w'] eqn:E.
    + simpl. eapply load_attempt_text. exact E.
    + apply IH.
Qed.

Lemma load_listing_first : forall w t w',
  load_attempt pv w = (Ok t, w') -> load_listing pv w = (Ok t, w').
Proof.
  intros w t w' H. unfold load_listing. cbn [load_attempts]. unfold try_catch.
  now rewrite H.
Qed.

Lemma find_next_app : forall before rest next_button w,
  find_next pv (before ++ rest) next_button w
  = if snd (fst (find_next pv before next_button w))
    then find_next pv before next_button w
    else find_next pv rest (fst (fst (find_next pv before next_button w)))
           (snd (find_next pv before next_button w)).
Proof.
  induction before as [|sel before IH]; intros rest nb w; [reflexivity|].
  cbn [app find_next].
  destruct (wait_for_selector (view pv) sel 2000 "attached" w) as [[[btn|]|e] w1];
    try apply IH.
  destruct (js_is_enabled pv btn w1) as [[[|]|e] w2]; try apply IH.
  reflexivity.
Qed.

(** A next page is reported exactly when, the selectors before it
    having given no enabled button, some selector finds a button for
    which the script answers true. *)
Lemma find_next_found : forall selectors next_button w r w',
  find_next pv selectors next_button w = ((r, true), w')
  <-> exists before selector after btn w2,
        r = Some btn
        /\ selectors = before ++ selector :: after
        /\ snd (fst (find_next pv before next_button w)) = false
        /\ wait_for_selector (view pv) selector 2000 "attached"
             (snd (find_next pv before next_button w))
           = (Ok (Some btn), w2)
        /\ js_is_enabled pv btn w2 = (Ok true, w').
Proof.
  intros selectors nb w r w'. split.
  - revert nb w. induction selectors as [|sel rest IH]; intros nb w H.
    + discriminate.
    + cbn [find_next] in H.
      assert (Hlater : forall nb1 w1,
                 find_next pv [sel] nb w = ((nb1, false), w1) ->
                 find_next pv rest nb1 w1 = ((r, true), w') ->
                 exists before selector after btn w2,
                   r = Some btn
                   /\ sel :: rest = before ++ selector :: after
                   /\ snd (fst (find_next pv before nb w)) = false
                   /\ wait_for_selector (view pv) selector 2000 "attached"
                        (snd (find_next pv before nb w))
                      = (Ok (Some btn), w2)
                   /\ js_is_enabled pv btn w2 = (Ok true, w')).
      { intros nb1 w1 H1 H2.
        destruct (IH nb1 w1 H2) as (before & selector & after & btn & w2
                                    & Hr & Hs & Hf & Hw & He).
        exists (sel :: before), selector, after, btn, w2.
        split; [exact Hr|]. split; [now rewrite Hs|].
        change (sel :: before) with ([sel] ++ before).
        rewrite find_next_app, H1. cbn [fst snd]. auto. }
      destruct (wait_for_selector (view pv) sel 2000 "attached" w)
        as [[[btn|]|e] w1] eqn:Ew.
      * destruct (js_is_enabled pv btn w1) as [[[|]|e] w2] eqn:Ee.
        -- inversion H; subst. exists [], sel, rest, btn, w1.
           repeat split; assumption.
        -- apply (Hlater (Some btn) w2); [|exact H].
           cbn [find_next]. now rewrite Ew, Ee.
        -- apply (Hlater (Some btn) w2); [|exact H].
           cbn [find_next]. now rewrite Ew, Ee.
      * apply (Hlater None w1); [|exact H]. cbn [find_next]. now rewrite Ew.
      * apply (Hlater nb w1); [|exact H]. cbn [find_next]. now rewrite Ew.
  - intros (before & selector & after & btn & w2 & Hr & Hs & Hf & Hw & He).
    subst r selectors. rewrite find_next_app, Hf. cbn [find_next].
    now rewrite Hw, He.
Qed.

(** *** Opening a provider, with the clicks of the run logged *)

Lemma logged_click : forall el w t,
  click (view (Laws.logged_page pv)) el (w, t)
  = match click (view pv) el w with
    | (Ok u, w') => (Ok u, (w', t ++ [el]))
    | (Raised e, w') => (Raised e, (w', t))
    end.
Proof. reflexivity. Qed.

Lemma logged_wait_for_load_state : forall s w t,
  wait_for_load_state (view (Laws.logged_page pv)) s (w, t)
  = (fst (wait_for_load_state (view pv) s w),
     (snd (wait_for_load_state (view pv) s w), t)).
Proof. reflexivity. Qed.

Lemma logged_inner_text : forall el w t,
  inner_text (view (Laws.logged_page pv)) el (w, t)
  = (fst (inner_text (view pv) el w), (snd (inner_text (view pv) el w), t)).
Proof. reflexivity. Qed.

Lemma logged_query_all : forall s w t,
  query_all (Laws.logged_page pv) s (w, t)
  = (fst (query_all pv s w), (snd (query_all pv s w), t)).
Proof. reflexivity. Qed.

Lemma logged_page_text : forall s w t,
  page_text (Laws.logged_page pv) s (w, t)
  = (fst (page_text pv s w), (snd (page_text pv s w), t)).
Proof. reflexivity. Qed.

Lemma logged_goto : forall w t,
  goto (Laws.logged_page pv) (page_url (Laws.logged_page pv) (w, t)) None (w, t)
  = (fst (goto pv (page_url pv w) None w),
     (snd (goto pv (page_url pv w) None w), t)).
Proof. reflexivity. Qed.

Ltac log_more IH :=
  match goal with
  | |- exists ext, ?f (?w, ?t ++ ?ext1) = _ /\ _ =>
      let ext2 := fresh "ext" in
      let E2 := fresh "E" in
      let N2 := fresh "N" in
      destruct (IH w (t ++ ext1)) as (ext2 & E2 & N2); rewrite E2;
      exists (ext1 ++ ext2); rewrite app_assoc; split; [reflexivity|];
      let H := fresh in
      let Happ := fresh in
      intros H Happ; apply app_eq_nil in Happ; destruct Happ;
      first [ now apply N2 | tauto ]
  end.

Lemma click_and_wait_logged : forall el w t,
  exists ext,
    click_and_wait (Laws.logged_page pv) el (w, t)
    = (fst (click_and_wait pv el w), (snd (click_and_wait pv el w), t ++ ext))
    /\ (forall u, fst (click_and_wait pv el w) = Ok u -> ext <> []).
Proof.
  intros el w t. unfold click_and_wait, bind. rewrite logged_click.
  destruct (click (view pv) el w) as [[u|e] w1].
  - rewrite logged_wait_for_load_state.
    exists [el]. split; [|discriminate].
    now destruct (wait_for_load_state (view pv) "networkidle" w1).
  - exists []. rewrite app_nil_r. split; [reflexivity|].
    intros u H. discriminate.
Qed.

Lemma click_first_logged : forall elements w t,
  exists ext,
    click_first (Laws.logged_page pv) elements (w, t)
    = (fst (click_first pv elements w), (snd (click_first pv elements w), t ++ ext))
    /\ (fst (click_first pv elements w) = true -> ext <> []).
Proof.
  induction elements as [|el rest IH]; intros w t; cbn [click_first].
  - exists []. rewrite app_nil_r. split; [reflexivity | discriminate].
  - destruct (click_and_wait_logged el w t) as (ext1 & E1 & N1). rewrite E1.
    destruct (click_and_wait pv el w) as [[u|e] w1]; cbn [fst snd] in *.
    + exists ext1. split; [reflexivity|]. intros _. now apply (N1 u).
    + log_more IH.
Qed.

Lemma click_matching_logged : forall name items w t,
  exists ext,
    click_matching (Laws.logged_page pv) name items (w, t)
    = (fst (click_matching pv name items w),
       (snd (click_matching pv name items w), t ++ ext))
    /\ (fst (click_matching pv name items w) = true -> ext <> []).
Proof.
  induction items as [|item rest IH]; intros w t; cbn [click_matching].
  - exists []. rewrite app_nil_r. split; [reflexivity | discriminate].
  - unfold bind. rewrite logged_inner_text.
    destruct (inner_text (view pv) item w) as [[text|e] w1]; cbn [fst snd].
    + destruct (contains (lower name) (lower text)).
      * destruct (click_and_wait_logged item w1 t) as (ext1 & E1 & N1).
        rewrite E1.
        destruct (click_and_wait pv item w1) as [[u|e] w2]; cbn [fst snd] in *;
          unfold ret.
        -- exists ext1. split; [reflexivity|]. intros _. now apply (N1 u).
        -- log_more IH.
      * unfold ret. apply IH.
    + apply IH.
Qed.

Lemma click_container_logged : forall name selectors w t,
  exists ext,
    click_container (Laws.logged_page pv) name selectors (w, t)
    = (fst (click_container pv name selectors w),
       (snd (click_container pv name selectors w), t ++ ext))
    /\ (fst (click_container pv name selectors w) = Ok true -> ext <> []).
Proof.
  induction selectors as [|sel rest IH]; intros w t; cbn [click_container].
  - exists []. rewrite app_nil_r. split; [reflexivity | discriminate].
  - unfold bind. rewrite logged_query_all.
    destruct (query_all pv sel w) as [[items|e] w1]; cbn [fst snd].
    + destruct (click_matching_logged name items w1 t) as (ext1 & E1 & N1).
      rewrite E1.
      destruct (click_matching pv name items w1) as [[|] w2]; cbn [fst snd] in *.
      * exists ext1. split; [reflexivity|]. intros _. now apply N1.
      * log_more IH.
    + exists []. rewrite app_nil_r. split; [reflexivity | discriminate].
Qed.

Lemma follow_details_logged : forall name elems w t,
  exists ext,
    follow_details (Laws.logged_page pv) name elems (w, t)
    = (fst (follow_details pv name elems w),
       (snd (follow_details pv name elems w), t ++ ext))
    /\ (fst (follow_details pv name elems w) = Ok true -> ext <> []).
Proof.
  induction elems as [|el rest IH]; intros w t; cbn [follow_details].
  - exists []. rewrite app_nil_r. split; [reflexivity | discriminate].
  - unfold bind.
    destruct (click_and_wait_logged el w t) as (ext1 & E1 & N1). rewrite E1.
    destruct (click_and_wait pv el w) as [[u|e] w1]; cbn [fst snd] in *.
    + assert (Hext : ext1 <> []) by now apply (N1 u).
      rewrite logged_page_text.
      destruct (page_text pv "body" w1) as [[[body|]|e] w2]; cbn [fst snd].
      * destruct (contains (lower name) (lower body)).
        -- exists ext1. split; [reflexivity | intros _; exact Hext].
        -- rewrite logged_goto.
           destruct (goto pv (page_url pv w2) None w2) as [[u2|e] w3];
             cbn [fst snd].
           ++ rewrite logged_wait_for_load_state.
              destruct (wait_for_load_state (view pv) "networkidle" w3)
                as [[u3|e] w4]; cbn [fst snd].
              ** destruct (IH w4 (t ++ ext1)) as (ext2 & E2 & N2). rewrite E2.
                 exists (ext1 ++ ext2). rewrite app_assoc.
                 split; [reflexivity|]. intros _ Happ.
                 apply app_eq_nil in Happ. tauto.
              ** exists ext1. split; [reflexivity | intros _; exact Hext].
           ++ exists ext1. split; [reflexivity | intros _; exact Hext].
      * exists ext1. split; [reflexivity | intros _; exact Hext].
      * exists ext1. split; [reflexivity | intros _; exact Hext].
    + exists ext1. split; [reflexivity | discriminate].
Qed.

Lemma click_details_logged : forall name selectors w t,
  exists ext,
    click_details (Laws.logged_page pv) name selectors (w, t)
    = (fst (click_details pv name selectors w),
       (snd (click_details pv name selectors w), t ++ ext))
    /\ (fst (click_details pv name selectors w) = Ok true -> ext <> []).
Proof.
  induction selectors as [|sel rest IH]; intros w t; cbn [click_details].
  - exists []. rewrite app_nil_r. split; [reflexivity | discriminate].
  - unfold bind, try_catch. rewrite logged_query_all.
    destruct (query_all pv sel w) as [[elems|e] w1]; cbn [fst snd].
    + destruct (follow_details_logged name elems w1 t) as (ext1 & E1 & N1).
      rewrite E1.
      destruct (follow_details pv name elems w1) as [[[|]|e] w2];
        cbn [fst snd] in *; unfold ret.
      * exists ext1. split; [reflexivity|]. intros _. now apply N1.
      * log_more IH.
      * log_more IH.
    + unfold ret. apply IH.
Qed.

Lemma click_on_provider_logged : forall name w t,
  exists ext,
    click_on_provider (Laws.logged_page pv) name (w, t)
    = (fst (click_on_provider pv name w),
       (snd (click_on_provider pv name w), t ++ ext))
    /\ (fst (click_on_provider pv name w) = Ok true -> ext <> []).
Proof.
  intros name w t. unfold click_on_provider, bind. rewrite logged_query_all.
  destruct (query_all pv ("text=" +++ dq +++ name +++ dq) w)
    as [[elements|e] w1]; cbn [fst snd].
  - destruct (click_first_logged elements w1 t) as (ext1 & E1 & N1). rewrite E1.
    destruct (click_first pv elements w1) as [[|] w2]; cbn [fst snd] in *.
    + exists ext1. split; [reflexivity|]. intros _. now apply N1.
    + destruct (click_container_logged name item_selectors w2 (t ++ ext1))
        as (ext2 & E2 & N2). rewrite E2.
      destruct (click_container pv name item_selectors w2) as [[[|]|e] w3];
        cbn [fst snd] in *; unfold ret.
      * exists (ext1 ++ ext2). rewrite app_assoc. split; [reflexivity|].
        intros _ Happ. apply app_eq_nil in Happ.
        destruct Happ as [_ Happ]. now apply N2.
      * destruct (click_details_logged name detail_selectors w3
                    ((t ++ ext1) ++ ext2)) as (ext3 & E3 & N3). rewrite E3.
        exists (ext1 ++ ext2 ++ ext3). rewrite !app_assoc.
        split; [reflexivity|]. intros H Happ.
        apply app_eq_nil in Happ. destruct Happ as [Happ Happ3].
        now apply N3.
      * exists (ext1 ++ ext2). rewrite app_assoc. split; [reflexivity|].
        discriminate.
  - exists []. rewrite app_nil_r. split; [reflexivity | discriminate].
Qed.

End WithPage.
End WalkFacts.

(** X21: loading the listing either yields a non-empty pagination text
    (found on the page, made up from the number of entries, or the
    fixed text for an unknown number), or raises the loop's own error
    "Failed to load page after 3 attempts: ..."; a first attempt that
    gets through ends the loop with its text. *)
Theorem load_listing_outcome :
  forall W Elem (pv : Walk.PageView W Elem) (w : W),
  match fst (Walk.load_listing pv w) with
  | Dom.Ok total_items_text => total_items_text <> ""
  | Dom.Raised message => exists e, message = Walk.load_failure e
  end
  /\ (forall t w', Walk.load_attempt pv w = (Dom.Ok t, w') ->
                   Walk.load_listing pv w = (Dom.Ok t, w')).
Proof.
  intros. split.
  - apply (WalkFacts.load_attempts_outcome pv 2 w).
  - apply WalkFacts.load_listing_first.
Qed.

Lemma load_listing_outcome_witness :
  Walk.load_listing WalkFixtures.listing_view tt
  = (Dom.Ok Listing.unknown_info, tt).
Proof.
  destruct (load_listing_outcome unit nat WalkFixtures.listing_view tt) as [_ H].
  apply H. vm_compute. reflexivity.
Defined.

(** X22: the check for a next page reports one exactly when, the
    selectors tried before having given no enabled button, a selector
    finds a button and the enabled-state script, run on that button
    right after, answers true; the button reported is that one.  A wait
    that raises, and a script that raises, are passed over: the check
    goes on with the next selector. *)
Theorem next_page_needs_enabled_button :
  forall W Elem (pv : Walk.PageView W Elem) (selectors : list string)
         (next_button : option Elem) (w : W),
  (forall r w',
      Walk.find_next pv selectors next_button w = ((r, true), w')
      <-> exists before selector after btn w2,
            r = Some btn
            /\ selectors = before ++ selector :: after
            /\ snd (fst (Walk.find_next pv before next_button w)) = false
            /\ Dom.wait_for_selector (Walk.view pv) selector 2000 "attached"
                 (snd (Walk.find_next pv before next_button w))
               = (Dom.Ok (Some btn), w2)
            /\ Walk.js_is_enabled pv btn w2 = (Dom.Ok true, w'))
  /\ (forall selector rest e w1,
        Dom.wait_for_selector (Walk.view pv) selector 2000 "attached" w
        = (Dom.Raised e, w1) ->
        Walk.find_next pv (selector :: rest) next_button w
        = Walk.find_next pv rest next_button w1)
  /\ (forall selector rest btn w1 e w2,
        Dom.wait_for_selector (Walk.view pv) selector 2000 "attached" w
        = (Dom.Ok (Some btn), w1) ->
        Walk.js_is_enabled pv btn w1 = (Dom.Raised e, w2) ->
        Walk.find_next pv (selector :: rest) next_button w
        = Walk.find_next pv rest (Some btn) w2).
Proof.
  intros W Elem pv selectors next_button w. split; [|split].
  - intros r w'. apply WalkFacts.find_next_found.
  - intros selector rest e w1 H. cbn [Walk.find_next]. now rewrite H.
  - intros selector rest btn w1 e w2 H1 H2. cbn [Walk.find_next].
    now rewrite H1, H2.
Qed.

Lemma next_page_needs_enabled_button_witness :
  Walk.find_next WalkFixtures.listing_view Walk.next_selectors None tt
  = ((Some 5, true), tt).
Proof.
  destruct (next_page_needs_enabled_button unit nat WalkFixtures.listing_view
              Walk.next_selectors None tt) as [H _].
  apply H.
  exists [], (hd "" Walk.next_selectors), (tl Walk.next_selectors), 5, tt.
  repeat split.
Defined.

(** X23: [click_on_provider] reports success only after a click of its
    own run went through.  Run on a document that keeps a log of the
    elements clicked with success, it returns what it returns on the
    document itself and leaves the document in the same state, it only
    ever adds to the log, and it reports success only when it has added
    a click. *)
Theorem provider_opened_only_by_click :
  forall W Elem (pv : Walk.PageView W Elem) (provider_name : string) (w : W)
         (log : list Elem),
  exists clicked,
    Walk.click_on_provider (Laws.logged_page pv) provider_name (w, log)
    = (fst (Walk.click_on_provider pv provider_name w),
       (snd (Walk.click_on_provider pv provider_name w), log ++ clicked))
    /\ (fst (Walk.click_on_provider pv provider_name w) = Dom.Ok true ->
        clicked <> []).
Proof. intros. apply WalkFacts.click_on_provider_logged. Qed.

Lemma provider_opened_only_by_click_witness :
  exists clicked,
    Walk.click_on_provider (Laws.logged_page WalkFixtures.listing_view)
      "ABC Institute" (tt, [])
    = (Dom.Ok true, (tt, clicked))
    /\ clicked <> [].
Proof.
  destruct (provider_opened_only_by_click unit nat WalkFixtures.listing_view
              "ABC Institute" tt []) as (clicked & E & N).
  exists clicked. split; [exact E|]. apply N. vm_compute. reflexivity.
Defined.

(* ------------------------------------------------------------------ *)
(** ** Further facts about the structure, the record and the count *)

Module RecordFacts.
Import PyStr PyMore Dom Dict Engine Listing Shape Facts Substring.

Section WithView.
Context {W Elem : Type} (dv : DocumentView W Elem).

Lemma process_main_program_keys : forall acc mp w k,
  In k (keys (fst (fst (process_main_program dv acc mp w)))) ->
  k = title mp \/ In k (keys (fst acc)).
Proof.
  intros [ps flat] mp w k H. unfold process_main_program in H.
  destruct (Harvest.click_and_extract_subprograms dv (element mp) (title mp) w)
    as [[[|s subs]|e] w']; simpl in H.
  - now apply in_keys_set in H.
  - now apply in_keys_set in H.
  - now right.
Qed.

Lemma process_main_programs_keys : forall mps acc w k,
  In k (keys (fst (fst (process_main_programs dv mps acc w)))) ->
  In k (titles mps) \/ In k (keys (fst acc)).
Proof.
  induction mps as [|mp rest IH]; intros acc w k H; simpl in H.
  - now right.
  - pose proof (process_main_program_keys acc mp w k) as H1.
    destruct (process_main_program dv acc mp w) as [acc' w'].
    destruct (IH acc' w' k H) as [Hin | Hin].
    + left. now right.
    + destruct (H1 Hin) as [E | Hacc].
      * left. left. now symmetry.
      * now right.
Qed.

Lemma in_keys_set_iff {V} : forall (d : dict V) k v x,
  In x (keys (set d k v)) <-> x = k \/ In x (keys d).
Proof.
  intros d k v x. split; [apply in_keys_set|].
  induction d as [|[k0 v0] r IH]; simpl.
  - intros [E | []]. now left.
  - destruct (k0 =? k)%string eqn:E; simpl.
    + apply String.eqb_eq in E. subst k0.
      intros [H | [H | H]]; [now left | now left | now right].
    + intros [H | [H | H]]; [right; now apply IH; left | now left
                            | right; apply IH; now right].
Qed.

(** The categories are those of the candidates whose harvest returned. *)
Lemma process_main_programs_returned : forall mps acc w k,
  In k (keys (fst (fst (process_main_programs dv mps acc w))))
  <-> In k (keys (fst acc)) \/ In k (Laws.returned_titles dv mps w).
Proof.
  induction mps as [|mp rest IH]; intros acc w k; simpl.
  - tauto.
  - destruct acc as [ps flat]. unfold process_main_program.
    destruct (Harvest.click_and_extract_subprograms dv (element mp) (title mp) w)
      as [[[|s subs]|e] w'].
    + rewrite IH. cbn [fst]. rewrite in_keys_set_iff. simpl.
      split; intros H; intuition congruence.
    + rewrite IH. cbn [fst]. rewrite in_keys_set_iff. simpl.
      split; intros H; intuition congruence.
    + rewrite IH. reflexivity.
Qed.

End WithView.

(** *** The fields the programs code leaves alone *)

Lemma finalize_frame : forall dd ps flat k,
  ~ programs_key k -> get (finalize dd ps flat) k = get dd k.
Proof.
  intros dd ps flat k Hk. unfold programs_key in Hk.
  assert (H1 : "programs" <> k) by (intros E; apply Hk; auto).
  assert (H2 : "programs_offered" <> k) by (intros E; apply Hk; auto).
  assert (H3 : "formatted_programs" <> k) by (intros E; apply Hk; auto).
  assert (H4 : "program_structure" <> k) by (intros E; apply Hk; auto 6).
  unfold finalize.
  rewrite (get_del_other _ _ _ H4), (get_del_other _ _ _ H3),
    (get_del_other _ _ _ H2).
  destruct ps as [|p ps]; rewrite (get_set_other _ _ _ _ H1).
  - destruct flat.
    + destruct (has dd "programs"); [reflexivity | now apply get_set_other].
    + now apply get_set_other.
  - destruct flat; [|reflexivity].
    destruct (has dd "programs"); [reflexivity | now apply get_set_other].
Qed.

Lemma save_data_frame : forall dd k,
  ~ programs_key k -> get (save_data dd) k = get dd k.
Proof.
  intros dd k Hk. unfold programs_key in Hk.
  assert (H1 : "programs" <> k) by (intros E; apply Hk; auto).
  assert (H2 : "programs_offered" <> k) by (intros E; apply Hk; auto).
  assert (H3 : "formatted_programs" <> k) by (intros E; apply Hk; auto).
  assert (H4 : "program_structure" <> k) by (intros E; apply Hk; auto 6).
  unfold save_data.
  assert (E : get (del (del (del dd "programs_offered") "program_structure")
                       "formatted_programs") k = get dd k).
  { now rewrite (get_del_other _ _ _ H3), (get_del_other _ _ _ H4),
      (get_del_other _ _ _ H2). }
  destruct (get (del (del (del dd "programs_offered") "program_structure")
                     "formatted_programs") "programs") as [programs|];
    [|exact E].
  destruct (programs =? "")%string; [exact E|].
  now rewrite (get_set_other _ _ _ _ H1).
Qed.

Lemma final_cleanup_frame : forall dd k,
  ~ programs_key k -> get (Closing.final_cleanup dd) k = get dd k.
Proof.
  intros dd k Hk. unfold programs_key in Hk.
  assert (H1 : "programs" <> k) by (intros E; apply Hk; auto).
  assert (H2 : "programs_offered" <> k) by (intros E; apply Hk; auto).
  assert (H3 : "formatted_programs" <> k) by (intros E; apply Hk; auto).
  assert (H4 : "program_structure" <> k) by (intros E; apply Hk; auto 6).
  unfold Closing.final_cleanup.
  assert (E : get (del (del (del dd "programs_offered") "program_structure")
                       "formatted_programs") k = get dd k).
  { now rewrite (get_del_other _ _ _ H3), (get_del_other _ _ _ H4),
      (get_del_other _ _ _ H2). }
  destruct (get (del (del (del dd "programs_offered") "program_structure")
                     "formatted_programs") "programs") as [programs|].
  - destruct (programs =? "")%string; [|exact E].
    now rewrite (get_set_other _ _ _ _ H1).
  - now rewrite (get_set_other _ _ _ _ H1).
Qed.

(** *** Where the item count comes from *)

Lemma take_drop_while : forall p s, s = take_while p s +++ drop_while p s.
Proof.
  induction s as [|c s IH]; simpl; [reflexivity|].
  destruct (p c); simpl; [now rewrite <- IH | reflexivity].
Qed.

Lemma take_while_all : forall p s, all_chars p (take_while p s) = true.
Proof.
  induction s as [|c s IH]; simpl; [reflexivity|].
  destruct (p c) eqn:E; simpl; [now rewrite E | reflexivity].
Qed.

Lemma match_of_items_sound : forall s digits,
  match_of_items s = Some digits ->
  digits <> "" /\ all_chars isdigit digits = true
  /\ exists post, s = "of " +++ digits +++ " items" +++ post.
Proof.
  intros s digits H. unfold match_of_items in H.
  destruct (startswith s "of ") eqn:E1; [|discriminate].
  apply startswith_iff in E1. destruct E1 as [rest E1]. subst s.
  change (drop 3 ("of " +++ rest)) with rest in H.
  destruct (negb (take_while isdigit rest =? "")%string
            && startswith (drop_while isdigit rest) " items") eqn:E2;
    [|discriminate].
  inversion H; subst digits. clear H.
  apply andb_true_iff in E2. destruct E2 as [E2 E3].
  split; [now apply eqb_false_nonempty|].
  split; [apply take_while_all|].
  apply startswith_iff in E3. destruct E3 as [post E3].
  exists post. rewrite <- E3, <- take_drop_while. reflexivity.
Qed.

Lemma search_of_items_sound : forall s digits,
  search_of_items s = Some digits ->
  digits <> "" /\ all_chars isdigit digits = true
  /\ within ("of " +++ digits +++ " items") s.
Proof.
  induction s as [|c s IH]; intros digits H.
  - cbn [search_of_items] in H.
    destruct (match_of_items "") eqn:E; [|discriminate].
    vm_compute in E. discriminate.
  - cbn [search_of_items] in H.
    destruct (match_of_items (String c s)) as [d|] eqn:E.
    + inversion H; subst d.
      destruct (match_of_items_sound _ _ E) as (H1 & H2 & post & H3).
      split; [exact H1|]. split; [exact H2|].
      exists "", post. rewrite H3. simpl. now rewrite !append_assoc.
    + destruct (IH digits H) as (H1 & H2 & pre & post & H3).
      split; [exact H1|]. split; [exact H2|].
      exists (String c pre), post. rewrite H3 at 1. reflexivity.
Qed.

End RecordFacts.

(** X24: the categories of the harvested structure are exactly the
    titles of the discovered candidates whose harvest returned, so each
    is the title of a candidate the discovery found; a candidate whose
    harvest raised leaves the structure and the flat list as they were. *)
Theorem structure_keys_are_discovered :
  forall W Elem (dv : Dom.DocumentView W Elem) (content : Elem) (w : W),
  (forall k,
      In k (Dict.keys (fst (fst (Engine.harvest_structure dv content w))))
      <-> In k (Laws.returned_titles dv
                  (fst (Engine.discover_categories dv content w))
                  (snd (Engine.discover_categories dv content w))))
  /\ (forall k,
        In k (Dict.keys (fst (fst (Engine.harvest_structure dv content w)))) ->
        In k (Engine.titles (fst (Engine.discover_categories dv content w))))
  /\ (forall acc main_program w0 e w1,
        Harvest.click_and_extract_subprograms dv (Engine.element main_program)
          (Engine.title main_program) w0 = (Dom.Raised e, w1) ->
        Engine.process_main_program dv acc main_program w0 = (acc, w1)).
Proof.
  intros W Elem dv content w. split; [|split].
  - intros k. unfold Engine.harvest_structure.
    destruct (Engine.discover_categories dv content w) as [mps w1].
    rewrite RecordFacts.process_main_programs_returned. simpl. tauto.
  - intros k H. unfold Engine.harvest_structure in H.
    destruct (Engine.discover_categories dv content w) as [mps w1]. simpl.
    destruct (RecordFacts.process_main_programs_keys dv mps ([], []) w1 k H)
      as [Hin | []].
    exact Hin.
  - intros [ps flat] mp w0 e w1 H. unfold Engine.process_main_program.
    now rewrite H.
Qed.

Lemma structure_keys_are_discovered_witness :
  In "Technology"
     (Engine.titles
        (fst (Engine.discover_categories
                (Fixtures.static_view Fixtures.headings_page) 0 tt))).
Proof.
  destruct (structure_keys_are_discovered unit nat
              (Fixtures.static_view Fixtures.headings_page) 0 tt) as (_ & H & _).
  apply H. vm_compute. right. now left.
Defined.

(** X25: building the programs field, cleaning it before a save and the
    final clean-up read and write only the programs field and the three
    legacy columns: every other field of the record is left as it was. *)
Theorem programs_code_leaves_other_fields :
  forall (detailed_data : Dict.dict string) (k : string),
  k <> "programs" -> k <> "programs_offered" -> k <> "formatted_programs" ->
  k <> "program_structure" ->
  (forall program_structure flat_programs,
      Dict.get (Engine.finalize detailed_data program_structure flat_programs) k
      = Dict.get detailed_data k)
  /\ Dict.get (Engine.save_data detailed_data) k = Dict.get detailed_data k
  /\ Dict.get (Closing.final_cleanup detailed_data) k = Dict.get detailed_data k.
Proof.
  intros dd k H1 H2 H3 H4.
  assert (Hk : ~ Shape.programs_key k).
  { intros [E | [E | [E | E]]]; contradiction. }
  split; [|split].
  - intros. now apply RecordFacts.finalize_frame.
  - now apply RecordFacts.save_data_frame.
  - now apply RecordFacts.final_cleanup_frame.
Qed.

Lemma programs_code_leaves_other_fields_witness :
  Dict.get (Engine.save_data
              (Engine.detail_record "Institute" "Dubai" "N/A" "N/A" "N/A" "N/A" "N/A"))
           "name"
  = Some "Institute".
Proof.
  destruct (programs_code_leaves_other_fields
              (Engine.detail_record "Institute" "Dubai" "N/A" "N/A" "N/A" "N/A" "N/A")
              "name") as (_ & H & _); try discriminate.
  rewrite H. reflexivity.
Defined.

(** X26: a number of items is read only from an occurrence, in the
    pagination text, of "of ", a non-empty run of digits and " items";
    a text without such an occurrence gives 0. *)
Theorem item_count_is_grounded : forall total_items_text,
  match Listing.search_of_items total_items_text with
  | Some digits =>
      digits <> "" /\ PyMore.all_chars PyStr.isdigit digits = true
      /\ Substring.within ("of " +++ digits +++ " items") total_items_text
      /\ Listing.total_items total_items_text = PyMore.int_of_digits digits
  | None => Listing.total_items total_items_text = 0
  end.
Proof.
  intros t. unfold Listing.total_items.
  destruct (Listing.search_of_items t) as [digits|] eqn:E; [|reflexivity].
  destruct (RecordFacts.search_of_items_sound t digits E) as (H1 & H2 & H3).
  auto.
Qed.

(* ------------------------------------------------------------------ *)
(** ** The retry loop of the save *)

Module SavingFacts.
Import PyStr Dom Saving.

Section WithFiles.
Context {W : Type} (fv : FileView W).

Lemma save_loop_bounded : forall name k retry_count w,
  (forall w0, fst (save_attempt fv name w0) <> Unchanged) ->
  retry_count + k = max_retries ->
  exists saved n w',
    save_loop fv k name retry_count w = (Some (saved, n), w')
    /\ n <= max_retries /\ (saved = false -> n = max_retries).
Proof.
  intros name. induction k as [|k IH]; intros retry_count w Hno Hk.
  - rewrite Nat.add_0_r in Hk. subst retry_count. simpl.
    exists false, max_retries, w. auto.
  - cbn [save_loop].
    assert (Hlt : (retry_count <? max_retries) = true) by (apply Nat.ltb_lt; lia).
    rewrite Hlt. pose proof (Hno w) as Hw.
    destruct (save_attempt fv name w) as [[| |] w'] eqn:E; simpl in Hw.
    + exists true, retry_count, w'. split; [reflexivity|].
      split; [lia | discriminate].
    + apply IH; [exact Hno | lia].
    + congruence.
Qed.

Lemma save_loop_stuck : forall name fuel retry_count w,
  (forall w0, fst (save_attempt fv name w0) = Unchanged) ->
  retry_count < max_retries ->
  fst (save_loop fv fuel name retry_count w) = None.
Proof.
  intros name. induction fuel as [|fuel IH]; intros retry_count w Hall Hlt;
    cbn [save_loop].
  - apply Nat.ltb_lt in Hlt. rewrite Hlt. reflexivity.
  - pose proof (Hall w) as Hw. apply Nat.ltb_lt in Hlt. rewrite Hlt.
    destruct (save_attempt fv name w) as [[| |] w'] eqn:E; simpl in Hw;
      try discriminate.
    apply IH; [exact Hall | now apply Nat.ltb_lt].
Qed.

(** When a turn changes neither variable. *)
Lemma unchanged_turn : forall name w,
  fst (save_attempt fv name w) = Unchanged
  <-> exists w1 existing_df w2 u w3 w4,
        isfile fv w = (Ok true, w1)
        /\ read_csv fv w1 = (Ok existing_df, w2)
        /\ e_empty existing_df = false /\ e_has_name existing_df = true
        /\ write_temp fv (mem name (e_names existing_df)) w2 = (Ok u, w3)
        /\ (temp_exists fv w3 = (Ok false, w4)
            \/ (temp_exists fv w3 = (Ok true, w4)
                /\ exists e w5, replace_csv fv w4 = (Raised e, w5))).
Proof.
  intros name w. split.
  - intros H. unfold save_attempt, save_aside in H.
    destruct (isfile fv w) as [[[|]|e1] w1] eqn:E1; simpl in H; try discriminate.
    + destruct (read_csv fv w1) as [[existing|e2] w2] eqn:E2.
      * destruct (negb (e_empty existing) && e_has_name existing) eqn:Eu.
        -- apply andb_true_iff in Eu. destruct Eu as [Eu1 Eu2].
           apply negb_true_iff in Eu1.
           destruct (write_temp fv (mem name (e_names existing)) w2)
             as [[u|e3] w3] eqn:E3; simpl in H; try discriminate.
           destruct (temp_exists fv w3) as [[[|]|e4] w4] eqn:E4; simpl in H;
             try discriminate.
           ++ destruct (replace_csv fv w4) as [[u'|e] w5] eqn:E5; simpl in H;
                try discriminate.
              exists w1, existing, w2, u, w3, w4.
              split; [reflexivity|]. split; [exact E2|].
              split; [exact Eu1|]. split; [exact Eu2|]. split; [exact E3|].
              right. split; [exact E4|]. now exists e, w5.
           ++ exists w1, existing, w2, u, w3, w4.
              split; [reflexivity|]. split; [exact E2|].
              split; [exact Eu1|]. split; [exact Eu2|]. split; [exact E3|].
              left. exact E4.
        -- destruct (write_provider_csv fv (Listing.provider_stem name) w2)
             as [[u'|e3] w3]; simpl in H; discriminate.
      * destruct (write_provider_csv fv (Listing.provider_stem name) w2)
          as [[u'|e3] w3]; simpl in H; discriminate.
    + destruct (write_csv fv w1) as [[u'|e2] w2]; simpl in H; discriminate.
  - intros (w1 & existing & w2 & u & w3 & w4 & H1 & H2 & H3 & H4 & H5 & H6).
    unfold save_attempt. rewrite H1, H2, H3, H4, H5. simpl.
    destruct H6 as [H6 | (H6 & e & w5 & H7)]; rewrite H6; [reflexivity|].
    now rewrite H7.
Qed.

End WithFiles.
End SavingFacts.

(** X27: the retry budget of the per-provider save.  A turn of the loop
    changes neither [saved] nor [retry_count] exactly when the CSV was
    read, is not empty and has a name column, the temporary file was
    written, and then the temporary file is missing or its move onto
    the CSV fails.  If no turn is of that kind the loop ends within
    five turns, saved or with the count at five; if every turn is, the
    loop never ends. *)
Theorem save_retries_not_always_counted :
  forall W (fv : Saving.FileView W) (name : string),
  (forall w,
     fst (Saving.save_attempt fv name w) = Saving.Unchanged
     <-> exists w1 existing_df w2 u w3 w4,
           Saving.isfile fv w = (Dom.Ok true, w1)
           /\ Saving.read_csv fv w1 = (Dom.Ok existing_df, w2)
           /\ Saving.e_empty existing_df = false
           /\ Saving.e_has_name existing_df = true
           /\ Saving.write_temp fv
                (PyStr.mem name (Saving.e_names existing_df)) w2
              = (Dom.Ok u, w3)
           /\ (Saving.temp_exists fv w3 = (Dom.Ok false, w4)
               \/ (Saving.temp_exists fv w3 = (Dom.Ok true, w4)
                   /\ exists e w5,
                        Saving.replace_csv fv w4 = (Dom.Raised e, w5))))
  /\ ((forall w, fst (Saving.save_attempt fv name w) <> Saving.Unchanged) ->
      forall w, exists saved n w',
        Saving.save_loop fv Saving.max_retries name 0 w = (Some (saved, n), w')
        /\ n <= Saving.max_retries /\ (saved = false -> n = Saving.max_retries))
  /\ ((forall w, fst (Saving.save_attempt fv name w) = Saving.Unchanged) ->
      forall fuel w, fst (Saving.save_loop fv fuel name 0 w) = None).
Proof.
  intros W fv name. split; [|split].
  - intros w. apply SavingFacts.unchanged_turn.
  - intros Hno w. apply SavingFacts.save_loop_bounded; [exact Hno | reflexivity].
  - intros Hall fuel w. apply SavingFacts.save_loop_stuck; [exact Hall|].
    unfold Saving.max_retries. lia.
Qed.

Lemma save_retries_not_always_counted_witness :
  (forall fuel, fst (Saving.save_loop Saving.locked_files fuel "ABC Institute" 0 tt)
                = None)
  /\ (exists saved n w',
        Saving.save_loop Saving.read_only_files Saving.max_retries
          "ABC Institute" 0 tt = (Some (saved, n), w')
        /\ n <= Saving.max_retries /\ (saved = false -> n = Saving.max_retries))
  /\ fst (Saving.save_attempt Cases.empty_csv_files "ABC Institute" tt)
     <> Saving.Unchanged.
Proof.
  split; [|split].
  - destruct (save_retries_not_always_counted unit Saving.locked_files
                "ABC Institute") as (_ & _ & H).
    intros fuel. apply H. intros []. reflexivity.
  - destruct (save_retries_not_always_counted unit Saving.read_only_files
                "ABC Institute") as (_ & H & _).
    apply H. intros []. vm_compute. discriminate.
  - destruct (save_retries_not_always_counted unit Cases.empty_csv_files
                "ABC Institute") as (H & _).
    intros Hu. apply H in Hu.
    destruct Hu as (w1 & existing & w2 & u & w3 & w4 & _ & Hr & He & _).
    vm_compute in Hr. inversion Hr; subst. discriminate.
Defined.
